(** * vl_imreadjpeg2: asynchronous batched image loading

    A shallow embedding of [matlab/src/vl_imreadjpeg2.cu]: the batch of
    items with its queue operations, the per-item transform plan computed
    by [Batch::prefetch], the work of a reader task on a borrowed item with
    its colour post-processing, the option parser and the top-level
    [mexFunction] dispatcher, followed by the properties established about
    them.

    Conventions.
    - [double] is IEEE binary64 (Rocq's primitive floats); a C [float] is a
      binary64 value rounded to binary32 by [to_single] after every
      operation (exact for +, -, *, / since 53 >= 2*24+2).
    - [int] is 32 bits, [size_t] is 64 bits, both carried by [Z].
    - A conversion or an arithmetic step whose behaviour the language leaves
      undefined, and a read of memory never written, yield [None].
    - The mutex and the condition variables are replaced by the order in
      which the operations are applied: [mexFunction] runs the workers to
      the end of the queue at each [sync], and the interleaved executions
      of the batch operations are the runs of a step function.
    - The logger, the verbosity level, the scratch buffers of
      [ReaderTask::getBuffer], the CUDA device and stream are left out; the
      image reader, the resize kernel, the generators and the device copy
      are parameters ([Env]). *)

From Stdlib Require Import ZArith List Bool String Lia Floats.
From stdpp Require Import base option list strings.
Import ListNotations.
Local Open Scope Z_scope.

(* ================================================================== *)
(** ** C numerics *)
(* ================================================================== *)

Module CNum.

Definition double := float.

Definition INT_MIN : Z := -2147483648.
Definition INT_MAX : Z := 2147483647.
Definition SIZE_MAX : Z := 18446744073709551615.

(** size_t -> int and int -> size_t are modular. *)
Definition int_of_size_t (z : Z) : Z := (z + 2147483648) mod 4294967296 - 2147483648.
Definition size_t_of_int (z : Z) : Z := z mod 18446744073709551616.

(** Integer -> double, rounded to nearest even. *)
Definition double_of_Z (z : Z) : double :=
  SF2Prim (binary_normalize prec emax z 0 false).

(** Truncation toward zero of a finite double; [None] on NaN and
    infinities. *)
Definition double_trunc (x : double) : option Z :=
  match Prim2SF x with
  | S754_zero _ => Some 0
  | S754_finite s m e =>
      let a := match e with
               | Zneg p => Z.shiftr (Zpos m) (Zpos p)
               | _ => Z.shiftl (Zpos m) e
               end in
      Some (if s then - a else a)
  | _ => None
  end.

(** double -> int / size_t: truncation, undefined when the truncated
    value is not representable. *)
Definition int_of_double (x : double) : option Z :=
  match double_trunc x with
  | Some z => if (INT_MIN <=? z) && (z <=? INT_MAX) then Some z else None
  | None => None
  end.

Definition size_t_of_double (x : double) : option Z :=
  match double_trunc x with
  | Some z => if (0 <=? z) && (z <=? SIZE_MAX) then Some z else None
  | None => None
  end.

(** [round] of <cmath>: nearest integer, halfway cases away from zero. *)
Definition c_round (x : double) : double :=
  match Prim2SF x with
  | S754_finite s m (Zneg p) =>
      let a := Z.shiftr (Zpos m + Z.shiftl 1 (Zpos p - 1)) (Zpos p) in
      SF2Prim (binary_normalize prec emax (if s then - a else a) 0 s)
  | _ => x
  end.

(** [std::max(a,b)] is [(a < b) ? b : a]; [std::min(a,b)] is
    [(b < a) ? b : a]. *)
Definition std_max (a b : double) : double := if (a <? b)%float then b else a.
Definition std_min (a b : double) : double := if (b <? a)%float then b else a.

(** Rounding of a double to the nearest binary32 value. *)
Definition to_single (x : double) : double :=
  match Prim2SF x with
  | S754_finite s m e => SF2Prim (binary_round 24 128 s m e)
  | _ => x
  end.

(** Signed [int] arithmetic: overflow and division by zero are
    undefined. *)
Definition in_int (z : Z) : bool := (INT_MIN <=? z) && (z <=? INT_MAX).
Definition int_add (a b : Z) : option Z :=
  if in_int (a + b) then Some (a + b) else None.
Definition int_div (a b : Z) : option Z :=
  if b =? 0 then None
  else if in_int (Z.quot a b) then Some (Z.quot a b) else None.
Definition int_rem (a b : Z) : option Z :=
  if b =? 0 then None
  else if in_int (Z.quot a b) then Some (Z.rem a b) else None.

End CNum.
Import CNum.

(** Lifting of double operations to possibly-undefined operands. *)
Definition olift2 {A B C} (f : A → B → C) (x : option A) (y : option B) : option C :=
  match x, y with
  | Some a, Some b => Some (f a b)
  | _, _ => None
  end.

(* ================================================================== *)
(** ** External collaborators *)
(* ================================================================== *)

(** [vl::ErrorCode] is declared in a header outside these sources; only
    the two codes named in this file are distinguished. *)
Inductive ErrorCode := VLE_Success | VLE_Cuda | VLE_Other (code : Z).

Definition is_success (e : ErrorCode) : bool :=
  match e with VLE_Success => true | _ => false end.

(** [vl::ImageShape]: three [size_t] fields. *)
Record ImageShape := { height : Z; width : Z; depth : Z }.

(** [vl::TensorShape(height, width, depth, size)]. *)
Record TensorShape := { t_height : Z; t_width : Z; t_depth : Z; t_size : Z }.

(** A float buffer; [None] is a cell that was never written. *)
Definition pixels := list (option double).

(** What the file uses from outside: the C library generator, [vl::randn],
    the image reader, the resize kernel and the asynchronous device copy.
    [R] is the hidden state of the generators. *)
Record Env (R : Type) := {
  RAND_MAX : Z;
  rand : R → Z * R;
  randn : R → double * R;
  (** [reader->readShape(shape, name)]: error code and the shape left in
      the out-parameter. *)
  readShape : ImageShape → string → ErrorCode * ImageShape;
  (** [reader->readPixels(buffer, name)]. *)
  readPixels : string → ErrorCode * pixels;
  getLastErrorMessage : string → string;
  (** [vl::impl::imageResizeVertical(dst, src, dstHeight, srcHeight, width,
      depth, cropHeight, cropOffset, flip)], returning [dst]. *)
  imageResizeVertical : pixels → Z → Z → Z → Z → Z → Z → bool → pixels;
  (** [cudaMemcpyAsync] of the pack ([None]) or of one item's array
      ([Some index]): [true] is [cudaSuccess]. *)
  cudaMemcpyAsync : option Z → bool;
  cudaGetErrorString : option Z → string;
  (** The shape built by the default constructor of [vl::ImageShape]. *)
  defaultShape : ImageShape;
  (** Whether [assert] is compiled out. *)
  NDEBUG : bool
}.
Arguments RAND_MAX {R}.
Arguments rand {R}.
Arguments randn {R}.
Arguments readShape {R}.
Arguments readPixels {R}.
Arguments getLastErrorMessage {R}.
Arguments imageResizeVertical {R}.
Arguments cudaMemcpyAsync {R}.
Arguments cudaGetErrorString {R}.
Arguments defaultShape {R}.
Arguments NDEBUG {R}.

(* ================================================================== *)
(** ** Data model: configuration, items, batch *)
(* ================================================================== *)

Inductive ResizeMethod := noResize | resizeShortestSide | fixedSize.
Inductive PackingMethod := individualArrays | singleArray.
Inductive CropLocation := cropCenter | cropRandom.

(** The configuration fields of [Batch]. *)
Record Config := {
  packingMethod : PackingMethod;
  resizeMethod : ResizeMethod;
  resizeHeight : Z;
  resizeWidth : Z;
  gpuMode : bool;
  average : list double;              (* double [3] *)
  contrastDeviation : double;
  saturationDeviation : double;
  brightnessDeviation : list double;  (* double [9] *)
  minCropAnisotropy : double;
  maxCropAnisotropy : double;
  minCropSize : double;
  maxCropSize : double;
  cropLocation : CropLocation;
  flipMode : bool
}.

(** The fields of [Batch::Item] that [Batch::prefetch] writes. *)
Record Plan := {
  outputWidth : option Z;
  outputHeight : option Z;
  outputNumChannels : Z;
  cropWidth : option Z;
  cropHeight : option Z;
  cropOffsetX : option Z;
  cropOffsetY : option Z;
  flip : bool;
  brightnessShift : list (option double);  (* float [3] *)
  contrastShift : double;
  saturationShift : double
}.

(** [vl::MexTensor]: a shape and its memory. *)
Record Tensor := { tshape : TensorShape; tdata : pixels }.

Module Item.
Inductive State := prefetch | fetch | ready.

Record t := {
  state : State;
  name : string;
  shape : ImageShape;
  error : ErrorCode;
  errorMessage : option string;   (* char [512]; [None]: never written *)
  borrowed : bool;
  cpuArray : option Tensor;
  gpuArray : option Tensor;
  index : Z;
  plan : option Plan
}.

Definition State_eqb (a b : State) : bool :=
  match a, b with
  | prefetch, prefetch | fetch, fetch | ready, ready => true
  | _, _ => false
  end.
End Item.

(** The state of [Batch] (the mutex and the condition variables are left
    to the scheduler of the model). *)
Record Batch := {
  quit : bool;
  items : list Item.t;
  nextItem : Z;
  numReturnedItems : Z;
  config : Config;
  cpuPack : option Tensor;
  gpuPack : option Tensor;
  gpuDevice : Z
}.

(* ================================================================== *)
(** ** The generator monad *)
(* ================================================================== *)

(** Computations that draw from the process-wide generators thread their
    state [R]. The bind uses projections, so that the parts of a result
    that do not depend on the draws reduce for every generator. *)
Definition Gen (R A : Type) := R → A * R.
Definition gret {R A} (a : A) : Gen R A := fun r => (a, r).
Definition gbind {R A B} (m : Gen R A) (f : A → Gen R B) : Gen R B :=
  fun r => f (fst (m r)) (snd (m r)).

Notation "x <~ m ;; k" := (gbind m (fun x => k))
  (at level 100, m at next level, right associativity).

(** [for (int i = 0 ; i < n ; ++i) body], as a fold over 0..n-1. *)
Definition for_loop {S} (n : Z) (body : Z → S → S) (s : S) : S :=
  fold_left (fun s i => body i s) (seqZ 0 n) s.

Fixpoint gfor_list {R S} (l : list Z) (body : Z → S → Gen R S) (s : S) : Gen R S :=
  match l with
  | [] => gret s
  | i :: l' => s' <~ body i s ;; gfor_list l' body s'
  end.

Definition gfor_loop {R S} (n : Z) (body : Z → S → Gen R S) (s : S) : Gen R S :=
  gfor_list (seqZ 0 n) body s.

(* ================================================================== *)
(** ** The transform plan of [Batch::prefetch] *)
(* ================================================================== *)

Section Plan.
Context {R : Type} (env : Env R).

Definition dadd (a b : double) : double := (a + b)%float.
Definition dsub (a b : double) : double := (a - b)%float.
Definition dmul (a b : double) : double := (a * b)%float.
Definition ddiv (a b : double) : double := (a / b)%float.

(** [(double)rand() / RAND_MAX]. *)
Definition rand_unit : Gen R double :=
  z <~ rand env ;; gret (ddiv (double_of_Z z) (double_of_Z (RAND_MAX env))).

(** The factor applied by the shortest-side resize (lines 583-585). *)
Definition shortestSideScale (cfg : Config) (sh : ImageShape) : double :=
  let scale1 := ddiv (double_of_Z (resizeHeight cfg)) (double_of_Z (width sh)) in
  let scale2 := ddiv (double_of_Z (resizeHeight cfg)) (double_of_Z (height sh)) in
  std_max scale1 scale2.

(** Lines 576-595: [(outputHeight, outputWidth)], as [int]. *)
Definition outputSize (cfg : Config) (sh : ImageShape) : option Z * option Z :=
  match resizeMethod cfg with
  | noResize => (Some (int_of_size_t (height sh)), Some (int_of_size_t (width sh)))
  | resizeShortestSide =>
      let scale := shortestSideScale cfg sh in
      (int_of_double (std_max 1%float (c_round (dmul scale (double_of_Z (height sh))))),
       int_of_double (std_max 1%float (c_round (dmul scale (double_of_Z (width sh))))))
  | fixedSize => (Some (resizeHeight cfg), Some (resizeWidth cfg))
  end.

(** Lines 598-608: the anisotropy ratio. *)
Definition anisotropyRatio (cfg : Config) (sh : ImageShape)
    (outputHeight outputWidth : option Z) : Gen R (option double) :=
  if ((minCropAnisotropy cfg =? 0)%float && (maxCropAnisotropy cfg =? 0)%float)%bool then
    let inputAspect := ddiv (double_of_Z (width sh)) (double_of_Z (height sh)) in
    let outputAspect :=
      olift2 ddiv (double_of_Z <$> outputWidth) (double_of_Z <$> outputHeight) in
    gret ((fun oa => ddiv oa inputAspect) <$> outputAspect)
  else
    z <~ rand_unit ;;
    gret (Some (dadd (dmul z (dsub (maxCropAnisotropy cfg) (minCropAnisotropy cfg)))
                     (minCropAnisotropy cfg))).

(** Lines 628-641 for one axis: the offset from the input extent and the
    rounded crop extent. *)
Definition cropSlack (extent : Z) (crop : option double) : option Z :=
  crop ≫= (fun c => int_of_double (dsub (double_of_Z extent) c)).

Definition centerOffset (d : option Z) : option Z :=
  d ≫= (fun d => int_add d 1 ≫= (fun d1 => int_div d1 2)).

Definition randomOffset (d : option Z) : Gen R (option Z) :=
  r <~ rand env ;;
  gret (d ≫= (fun d => int_add d 1 ≫= (fun d1 => int_rem r d1))).

(** Lines 659-667: the brightness shift. [w] and [brightnessShift] are
    arrays of three cells; an index past them is left unmodelled (the
    write is dropped, the read is undefined). *)
Definition drawW (numChannels : Z) : Gen R (list (option double)) :=
  gfor_loop numChannels
    (fun i w => x <~ randn env ;; gret (<[Z.to_nat i := Some x]> w))
    [None; None; None].

Definition brightnessLoop (B : list double) (numChannels : Z)
    (w : list (option double)) (bs : list (option double)) : list (option double) :=
  for_loop numChannels (fun i bs =>
    let bs := <[Z.to_nat i := Some 0%float]> bs in
    for_loop numChannels (fun j bs =>
      <[Z.to_nat i :=
          olift2 (fun acc t => to_single (dadd acc t))
                 (mjoin (bs !! Z.to_nat i))
                 (olift2 dmul (B !! Z.to_nat (i + 3 * j)) (mjoin (w !! Z.to_nat i)))]> bs)
      bs) bs.

(** [2.*(double)rand()/RAND_MAX - 1]. *)
Definition rand_sym : Gen R double :=
  z <~ rand env ;;
  gret (dsub (ddiv (dmul 2%float (double_of_Z z)) (double_of_Z (RAND_MAX env))) 1%float).

(** Lines 565-657 of the loop of [Batch::prefetch] for one item: sizes,
    crop, flip, saturation and contrast. [bs0] is the content of the
    item's [brightnessShift] array, not written here. *)
Definition planGeometry (cfg : Config) (sh : ImageShape) (bs0 : list (option double))
    : Gen R Plan :=
  let outputHeight := fst (outputSize cfg sh) in
  let outputWidth := snd (outputSize cfg sh) in
  anisotropy <~ anisotropyRatio cfg sh outputHeight outputWidth ;;
  let cropWidth0 := olift2 dmul (double_of_Z <$> outputWidth) anisotropy in
  let cropHeight0 := olift2 ddiv (double_of_Z <$> outputHeight) anisotropy in
  let scale :=
    olift2 std_min ((fun c => ddiv (double_of_Z (width sh)) c) <$> cropWidth0)
                   ((fun c => ddiv (double_of_Z (height sh)) c) <$> cropHeight0) in
  z <~ rand_unit ;;
  let size := dadd (dmul z (dsub (maxCropSize cfg) (minCropSize cfg))) (minCropSize cfg) in
  let factor := (fun s => dmul s size) <$> scale in
  let cropWidth1 := olift2 dmul cropWidth0 factor in
  let cropHeight1 := olift2 dmul cropHeight0 factor in
  let cropWidth2 := (fun c => std_min (c_round c) (double_of_Z (width sh))) <$> cropWidth1 in
  let cropHeight2 := (fun c => std_min (c_round c) (double_of_Z (height sh))) <$> cropHeight1 in
  let dx0 := cropSlack (width sh) cropWidth2 in
  let dy0 := cropSlack (height sh) cropHeight2 in
  dxy <~ match cropLocation cfg with
         | cropCenter => gret (centerOffset dx0, centerOffset dy0)
         | cropRandom =>
             dx <~ randomOffset dx0 ;;
             dy <~ randomOffset dy0 ;;
             gret (dx, dy)
         end ;;
  flip <~ (if flipMode cfg
           then r <~ rand env ;; gret (Z.quot (RAND_MAX env) 2 <? r)
           else gret false) ;;
  sat <~ rand_sym ;;
  con <~ rand_sym ;;
  gret {| outputWidth := size_t_of_int <$> outputWidth;
          outputHeight := size_t_of_int <$> outputHeight;
          outputNumChannels :=
            match packingMethod cfg with
            | individualArrays => depth sh
            | singleArray => 3
            end;
          cropWidth := cropWidth2 ≫= size_t_of_double;
          cropHeight := cropHeight2 ≫= size_t_of_double;
          cropOffsetX := size_t_of_int <$> fst dxy;
          cropOffsetY := size_t_of_int <$> snd dxy;
          flip := flip;
          brightnessShift := bs0;
          contrastShift :=
            to_single (dadd 1%float (dmul (contrastDeviation cfg) con));
          saturationShift :=
            to_single (dadd 1%float (dmul (saturationDeviation cfg) sat)) |}.

Definition with_brightness (p : Plan) (bs : list (option double)) : Plan :=
  {| outputWidth := outputWidth p; outputHeight := outputHeight p;
     outputNumChannels := outputNumChannels p;
     cropWidth := cropWidth p; cropHeight := cropHeight p;
     cropOffsetX := cropOffsetX p; cropOffsetY := cropOffsetY p;
     flip := flip p; brightnessShift := bs;
     contrastShift := contrastShift p; saturationShift := saturationShift p |}.

(** The whole body (lines 565-668): the geometry, then the draws of [w]
    and the brightness shift (lines 658-668). *)
Definition planItem (cfg : Config) (sh : ImageShape) (bs0 : list (option double))
    : Gen R Plan :=
  p <~ planGeometry cfg sh bs0 ;;
  let numChannels := int_of_size_t (outputNumChannels p) in
  w <~ drawW numChannels ;;
  gret (with_brightness p
          (brightnessLoop (brightnessDeviation cfg) numChannels w bs0)).

End Plan.

(* ================================================================== *)
(** ** Colour post-processing of the reader task (lines 823-878) *)
(* ================================================================== *)

(** C [float] arithmetic. *)
Definition fadd (a b : double) : double := to_single (dadd a b).
Definition fmul (a b : double) : double := to_single (dmul a b).
Definition fdiv (a b : double) : double := to_single (ddiv a b).
Definition single_of_Z (z : Z) : double :=
  SF2Prim (binary_normalize 24 128 z 0 false).

(** A read of the float at offset [i] of a buffer. *)
Definition peek (buf : pixels) (i : Z) : option double :=
  if i <? 0 then None else mjoin (buf !! Z.to_nat i).

Definition poke (buf : pixels) (i : Z) (x : option double) : pixels :=
  if i <? 0 then buf else <[Z.to_nat i := x]> buf.

(** Lines 836-840: the mean of the [n] floats from offset [off]. *)
Definition channelMean (buf : pixels) (off n : Z) : option double :=
  let sum := for_loop n (fun i mu => olift2 fadd mu (peek buf (off + i))) (Some 0%float) in
  (fun mu => fdiv mu (single_of_Z n)) <$> sum.

(** Lines 832-843: [dv] is a local array of three floats, written for
    [k < item->shape.depth] only. *)
Definition colorShifts (average : list double) (p : Plan) (depth n : Z)
    (buf : pixels) : list (option double) :=
  for_loop depth (fun k dv =>
    let dvk :=
      olift2 (fun av bs =>
                to_single (dmul (dsub 1%float (dmul 2%float (contrastShift p)))
                                (dadd av bs)))
             (average !! Z.to_nat k) (mjoin (brightnessShift p !! Z.to_nat k)) in
    let dvk :=
      if negb (contrastShift p =? 1)%float then
        olift2 (fun d mu =>
                  to_single (dsub d (dmul (dsub 1%float (contrastShift p)) mu)))
               dvk (channelMean buf (n * k) n)
      else dvk in
    <[Z.to_nat k := dvk]> dv)
    [None; None; None].

(** One iteration of the loops of lines 850-858 and 862-870: [src k] is
    the offset of the float read for channel [k]. *)
Definition mixPixel (a b : double) (dv : list (option double))
    (src : Z → Z) (n i : Z) (buf : pixels) : pixels :=
  let v k := olift2 fadd (peek buf (src k)) (mjoin (dv !! Z.to_nat k)) in
  let mu := olift2 fadd (olift2 fadd (olift2 fadd (Some 0%float) (v 0)) (v 1)) (v 2) in
  let out k := olift2 fadd ((fun x => fmul a x) <$> v k) ((fun m => fmul b m) <$> mu) in
  poke (poke (poke buf i (out 0)) (n + i) (out 1)) (2 * n + i) (out 2).

(** Lines 823-878 on the output buffer of one item ([K] channels of [n]
    floats each). *)
Definition postprocessColors (average : list double) (p : Plan) (depth n : Z)
    (buf : pixels) : pixels :=
  let K := outputNumChannels p in
  let dv := colorShifts average p depth n buf in
  if (K =? 3) && (depth =? 3) then
    let a := fmul (contrastShift p) (saturationShift p) in
    let b := to_single (ddiv (dmul (contrastShift p) (dsub 1%float (saturationShift p)))
                             (double_of_Z K)) in
    for_loop n (fun i buf => mixPixel a b dv (fun k => n * k + i) n i buf) buf
  else if (K =? 3) && (depth =? 1) then
    let a := fmul (contrastShift p) (saturationShift p) in
    let b := to_single (ddiv (dmul (contrastShift p) (dsub 1%float (saturationShift p)))
                             (double_of_Z K)) in
    for_loop n (fun i buf => mixPixel a b dv (fun _ => i) n i buf) buf
  else
    let a := contrastShift p in
    for_loop n (fun i buf =>
      poke buf i ((fun x => fmul a x) <$>
                  olift2 fadd (peek buf i) (mjoin (dv !! 0%nat)))) buf.

(** What the spec says of the shift of channel [k]:
    [(1 - 2c) * (avg[k] + brightness_shift[k])], minus
    [(1 - c) * mean(channel_k)] when [c] differs from 1. *)
Definition dv_spec (average : list double) (p : Plan) (n : Z) (buf : pixels)
    (k : Z) : option double :=
  let base :=
    olift2 (fun av bs =>
              to_single (dmul (dsub 1%float (dmul 2%float (contrastShift p))) (dadd av bs)))
           (average !! Z.to_nat k) (mjoin (brightnessShift p !! Z.to_nat k)) in
  if negb (contrastShift p =? 1)%float then
    olift2 (fun d mu => to_single (dsub d (dmul (dsub 1%float (contrastShift p)) mu)))
           base (channelMean buf (n * k) n)
  else base.

(* ================================================================== *)
(** ** Batch: the queue operations *)
(* ================================================================== *)

Definition set_items (b : Batch) (l : list Item.t) : Batch :=
  {| quit := quit b; items := l; nextItem := nextItem b;
     numReturnedItems := numReturnedItems b; config := config b;
     cpuPack := cpuPack b; gpuPack := gpuPack b; gpuDevice := gpuDevice b |}.

Definition set_counters (b : Batch) (next returned : Z) : Batch :=
  {| quit := quit b; items := items b; nextItem := next;
     numReturnedItems := returned; config := config b;
     cpuPack := cpuPack b; gpuPack := gpuPack b; gpuDevice := gpuDevice b |}.

Definition set_quit (b : Batch) (q : bool) : Batch :=
  {| quit := q; items := items b; nextItem := nextItem b;
     numReturnedItems := numReturnedItems b; config := config b;
     cpuPack := cpuPack b; gpuPack := gpuPack b; gpuDevice := gpuDevice b |}.

Definition set_config (b : Batch) (c : Config) : Batch :=
  {| quit := quit b; items := items b; nextItem := nextItem b;
     numReturnedItems := numReturnedItems b; config := c;
     cpuPack := cpuPack b; gpuPack := gpuPack b; gpuDevice := gpuDevice b |}.

Definition set_packs (b : Batch) (cpu gpu : option Tensor) : Batch :=
  {| quit := quit b; items := items b; nextItem := nextItem b;
     numReturnedItems := numReturnedItems b; config := config b;
     cpuPack := cpu; gpuPack := gpu; gpuDevice := gpuDevice b |}.

Module ItemOps.
Import Item.

Definition set_state (it : t) (s : State) : t :=
  {| state := s; name := name it; shape := shape it; error := error it;
     errorMessage := errorMessage it; borrowed := borrowed it;
     cpuArray := cpuArray it; gpuArray := gpuArray it; index := index it;
     plan := plan it |}.

Definition set_borrowed (it : t) (x : bool) : t :=
  {| state := state it; name := name it; shape := shape it; error := error it;
     errorMessage := errorMessage it; borrowed := x;
     cpuArray := cpuArray it; gpuArray := gpuArray it; index := index it;
     plan := plan it |}.

Definition set_error (it : t) (e : ErrorCode) (msg : option string) : t :=
  {| state := state it; name := name it; shape := shape it; error := e;
     errorMessage := msg; borrowed := borrowed it;
     cpuArray := cpuArray it; gpuArray := gpuArray it; index := index it;
     plan := plan it |}.

Definition set_shape (it : t) (sh : ImageShape) : t :=
  {| state := state it; name := name it; shape := sh; error := error it;
     errorMessage := errorMessage it; borrowed := borrowed it;
     cpuArray := cpuArray it; gpuArray := gpuArray it; index := index it;
     plan := plan it |}.

Definition set_arrays (it : t) (cpu gpu : option Tensor) : t :=
  {| state := state it; name := name it; shape := shape it; error := error it;
     errorMessage := errorMessage it; borrowed := borrowed it;
     cpuArray := cpu; gpuArray := gpu; index := index it;
     plan := plan it |}.

Definition set_plan (it : t) (p : Plan) : t :=
  {| state := state it; name := name it; shape := shape it; error := error it;
     errorMessage := errorMessage it; borrowed := borrowed it;
     cpuArray := cpuArray it; gpuArray := gpuArray it; index := index it;
     plan := Some p |}.
End ItemOps.
Import ItemOps.

Definition sizeZ {A} (l : list A) : Z := Z.of_nat (length l).

(** [getItem(index)]: [items[index]]. *)
Definition getItem (b : Batch) (i : Z) : option Item.t :=
  if i <? 0 then None else items b !! Z.to_nat i.

Definition putItem (b : Batch) (i : Z) (it : Item.t) : Batch :=
  if i <? 0 then b else set_items b (<[Z.to_nat i := it]> (items b)).

(** The outcome of [borrowNextItem] for the calling worker. *)
Inductive Borrow :=
| Borrowed (it : Item.t) (b : Batch)
| BorrowNull                (* [quit]: the worker leaves *)
| BorrowWait (b : Batch).   (* nothing to hand out: the worker waits *)

Section BatchOps.
Context {R : Type} (env : Env R).

(** [c_assert cond]: [None] is a failed assertion. *)
Definition c_assert (cond : bool) : option unit :=
  if NDEBUG env || cond then Some () else None.

(** [Batch::Item::Item] followed by the assignments of [registerItem]
    (lines 439-442). The [memset] of line 255 has its last two arguments
    exchanged and writes nothing. *)
Definition freshItem (index : Z) (nm : string) : Item.t :=
  {| Item.state := Item.prefetch; Item.name := nm;
     Item.shape := defaultShape env; Item.error := VLE_Success;
     Item.errorMessage := None; Item.borrowed := false;
     Item.cpuArray := None; Item.gpuArray := None;
     Item.index := index; Item.plan := None |}.

(** Lines 436-446. *)
Definition registerItem (b : Batch) (nm : string) : Batch :=
  set_items b (items b ++ [freshItem (sizeZ (items b)) nm]).

(** Lines 351-363. *)
Definition borrowNextItem (b : Batch) : Borrow :=
  if quit b then BorrowNull
  else if (0 <=? nextItem b) && (nextItem b <? sizeZ (items b)) then
    match getItem b (nextItem b) with
    | Some it =>
        let it' := set_borrowed it true in
        Borrowed it' (set_counters (putItem b (nextItem b) it')
                                   (nextItem b + 1) (numReturnedItems b))
    | None => BorrowWait b
    end
  else BorrowWait b.

(** Lines 365-391: [it] is the item as the worker left it, stored back
    at its index. *)
Definition returnItem (b : Batch) (it : Item.t) : Batch :=
  let returned := numReturnedItems b + 1 in
  let push :=
    Item.State_eqb (Item.state it) Item.fetch
    && (returned =? sizeZ (items b))
    && match packingMethod (config b) with singleArray => true | _ => false end
    && gpuMode (config b) in
  let it1 :=
    if push && negb (cudaMemcpyAsync env None)
    then set_error it VLE_Cuda (Some ("cudaMemcpyAsnyc : '" ++ cudaGetErrorString env None ++ "'")%string)
    else it in
  let gpu :=
    if push && cudaMemcpyAsync env None then
      match gpuPack b, cpuPack b with
      | Some g, Some c => Some {| tshape := tshape g; tdata := tdata c |}
      | g, _ => g
      end
    else gpuPack b in
  let it2 := set_state (set_borrowed it1 false) Item.ready in
  set_packs (set_counters (putItem b (Item.index it) it2) (nextItem b) returned)
            (cpuPack b) gpu.

(** Lines 393-412, once every borrowed item is back. *)
Definition clear (b : Batch) : Batch :=
  set_counters (set_items b []) 0 0.

(** Lines 336-349. *)
Definition finalize (b : Batch) : Batch := set_quit (clear b) true.

(** The defaults restored by [init] (lines 310-325); [resizeHeight] and
    [resizeWidth] are not among them and keep the values [rh], [rw]. *)
Definition defaultConfig (rh rw : Z) : Config :=
  {| packingMethod := individualArrays; resizeMethod := noResize;
     resizeHeight := rh; resizeWidth := rw; gpuMode := false;
     average := [0; 0; 0]%float;
     contrastDeviation := 0%float; saturationDeviation := 0%float;
     brightnessDeviation := replicate 9 0%float;
     minCropAnisotropy := 1%float; maxCropAnisotropy := 1%float;
     minCropSize := 1%float; maxCropSize := 1%float;
     cropLocation := cropCenter; flipMode := false |}.

(** Lines 302-334. *)
Definition init (b : Batch) : Batch :=
  let b := finalize b in
  {| quit := false; items := items b; nextItem := 0; numReturnedItems := 0;
     config := defaultConfig (resizeHeight (config b)) (resizeWidth (config b));
     cpuPack := cpuPack b; gpuPack := gpuPack b; gpuDevice := -1 |}.

End BatchOps.

(* ================================================================== *)
(** ** Batch: the setters and [prefetch] *)
(* ================================================================== *)

(** How a call can stop short of returning. *)
Inductive Halt :=
| Raised (msg : string)   (* [vlmxError] *)
| Blocked                 (* waits on a condition or a join that never comes *)
| Aborted                 (* failed [assert] *)
| Undefined.              (* behaviour left undefined by the language *)

Inductive Flow (A : Type) :=
| Go (a : A)
| Stop (h : Halt).
Arguments Go {A}.
Arguments Stop {A}.

Definition flow_bind {A B} (m : Flow A) (f : A → Flow B) : Flow B :=
  match m with
  | Go a => f a
  | Stop h => Stop h
  end.

(** Reader invocations, by item index and file name. *)
Inductive LogEntry :=
| LogReadShape (index : Z) (name : string)
| LogReadPixels (index : Z) (name : string).

(** Field updates of the configuration. *)
Module Cfg.
Definition with_packing (c : Config) (m : PackingMethod) : Config :=
  {| packingMethod := m; resizeMethod := resizeMethod c;
     resizeHeight := resizeHeight c; resizeWidth := resizeWidth c;
     gpuMode := gpuMode c; average := average c;
     contrastDeviation := contrastDeviation c;
     saturationDeviation := saturationDeviation c;
     brightnessDeviation := brightnessDeviation c;
     minCropAnisotropy := minCropAnisotropy c;
     maxCropAnisotropy := maxCropAnisotropy c;
     minCropSize := minCropSize c; maxCropSize := maxCropSize c;
     cropLocation := cropLocation c; flipMode := flipMode c |}.

Definition with_resize (c : Config) (m : ResizeMethod) (h w : Z) : Config :=
  {| packingMethod := packingMethod c; resizeMethod := m;
     resizeHeight := h; resizeWidth := w;
     gpuMode := gpuMode c; average := average c;
     contrastDeviation := contrastDeviation c;
     saturationDeviation := saturationDeviation c;
     brightnessDeviation := brightnessDeviation c;
     minCropAnisotropy := minCropAnisotropy c;
     maxCropAnisotropy := maxCropAnisotropy c;
     minCropSize := minCropSize c; maxCropSize := maxCropSize c;
     cropLocation := cropLocation c; flipMode := flipMode c |}.

Definition with_gpu (c : Config) (gpu : bool) : Config :=
  {| packingMethod := packingMethod c; resizeMethod := resizeMethod c;
     resizeHeight := resizeHeight c; resizeWidth := resizeWidth c;
     gpuMode := gpu; average := average c;
     contrastDeviation := contrastDeviation c;
     saturationDeviation := saturationDeviation c;
     brightnessDeviation := brightnessDeviation c;
     minCropAnisotropy := minCropAnisotropy c;
     maxCropAnisotropy := maxCropAnisotropy c;
     minCropSize := minCropSize c; maxCropSize := maxCropSize c;
     cropLocation := cropLocation c; flipMode := flipMode c |}.

Definition with_average (c : Config) (avg : list double) : Config :=
  {| packingMethod := packingMethod c; resizeMethod := resizeMethod c;
     resizeHeight := resizeHeight c; resizeWidth := resizeWidth c;
     gpuMode := gpuMode c; average := avg;
     contrastDeviation := contrastDeviation c;
     saturationDeviation := saturationDeviation c;
     brightnessDeviation := brightnessDeviation c;
     minCropAnisotropy := minCropAnisotropy c;
     maxCropAnisotropy := maxCropAnisotropy c;
     minCropSize := minCropSize c; maxCropSize := maxCropSize c;
     cropLocation := cropLocation c; flipMode := flipMode c |}.

Definition with_color (c : Config) (brightness : list double)
    (contrast saturation : double) : Config :=
  {| packingMethod := packingMethod c; resizeMethod := resizeMethod c;
     resizeHeight := resizeHeight c; resizeWidth := resizeWidth c;
     gpuMode := gpuMode c; average := average c;
     contrastDeviation := contrast;
     saturationDeviation := saturation;
     brightnessDeviation := brightness;
     minCropAnisotropy := minCropAnisotropy c;
     maxCropAnisotropy := maxCropAnisotropy c;
     minCropSize := minCropSize c; maxCropSize := maxCropSize c;
     cropLocation := cropLocation c; flipMode := flipMode c |}.

Definition with_flip (c : Config) (x : bool) : Config :=
  {| packingMethod := packingMethod c; resizeMethod := resizeMethod c;
     resizeHeight := resizeHeight c; resizeWidth := resizeWidth c;
     gpuMode := gpuMode c; average := average c;
     contrastDeviation := contrastDeviation c;
     saturationDeviation := saturationDeviation c;
     brightnessDeviation := brightnessDeviation c;
     minCropAnisotropy := minCropAnisotropy c;
     maxCropAnisotropy := maxCropAnisotropy c;
     minCropSize := minCropSize c; maxCropSize := maxCropSize c;
     cropLocation := cropLocation c; flipMode := x |}.

Definition with_anisotropy (c : Config) (lo hi : double) : Config :=
  {| packingMethod := packingMethod c; resizeMethod := resizeMethod c;
     resizeHeight := resizeHeight c; resizeWidth := resizeWidth c;
     gpuMode := gpuMode c; average := average c;
     contrastDeviation := contrastDeviation c;
     saturationDeviation := saturationDeviation c;
     brightnessDeviation := brightnessDeviation c;
     minCropAnisotropy := lo; maxCropAnisotropy := hi;
     minCropSize := minCropSize c; maxCropSize := maxCropSize c;
     cropLocation := cropLocation c; flipMode := flipMode c |}.

Definition with_crop_size (c : Config) (lo hi : double) : Config :=
  {| packingMethod := packingMethod c; resizeMethod := resizeMethod c;
     resizeHeight := resizeHeight c; resizeWidth := resizeWidth c;
     gpuMode := gpuMode c; average := average c;
     contrastDeviation := contrastDeviation c;
     saturationDeviation := saturationDeviation c;
     brightnessDeviation := brightnessDeviation c;
     minCropAnisotropy := minCropAnisotropy c;
     maxCropAnisotropy := maxCropAnisotropy c;
     minCropSize := lo; maxCropSize := hi;
     cropLocation := cropLocation c; flipMode := flipMode c |}.

Definition with_location (c : Config) (l : CropLocation) : Config :=
  {| packingMethod := packingMethod c; resizeMethod := resizeMethod c;
     resizeHeight := resizeHeight c; resizeWidth := resizeWidth c;
     gpuMode := gpuMode c; average := average c;
     contrastDeviation := contrastDeviation c;
     saturationDeviation := saturationDeviation c;
     brightnessDeviation := brightnessDeviation c;
     minCropAnisotropy := minCropAnisotropy c;
     maxCropAnisotropy := maxCropAnisotropy c;
     minCropSize := minCropSize c; maxCropSize := maxCropSize c;
     cropLocation := l; flipMode := flipMode c |}.
End Cfg.

Section Setters.
Context {R : Type} (env : Env R).

(** Lines 448-468 (the stream and the device are not modelled). *)
Definition setGpuMode (b : Batch) (gpu : bool) : Batch :=
  set_config b (Cfg.with_gpu (config b) gpu).

Definition setResizeMethod (b : Batch) (m : ResizeMethod) (h w : Z) : Batch :=
  set_config b (Cfg.with_resize (config b) m h w).

(** The assertion of line 479 holds for every value of the type. *)
Definition setPackingMethod (b : Batch) (m : PackingMethod) : Batch :=
  set_config b (Cfg.with_packing (config b) m).

Definition getPackingMethod (b : Batch) : PackingMethod := packingMethod (config b).

Definition setAverage (b : Batch) (avg : list double) : Batch :=
  set_config b (Cfg.with_average (config b) avg).

Definition setColorDeviation (b : Batch) (brightness : list double)
    (contrast saturation : double) : Batch :=
  set_config b (Cfg.with_color (config b) brightness contrast saturation).

Definition setFlipMode (b : Batch) (x : bool) : Batch :=
  set_config b (Cfg.with_flip (config b) x).

(** The two assertions of lines 507-508. *)
Definition setCropAnisotropy_asserts (minAnisotropy maxAnisotropy : double) : bool :=
  (minAnisotropy <=? maxAnisotropy)%float
  && ((0 <=? minAnisotropy)%float && (minAnisotropy <=? 1)%float).

(** Lines 505-511; [None] is a failed assertion. *)
Definition setCropAnisotropy (b : Batch) (minAnisotropy maxAnisotropy : double)
    : option Batch :=
  _ ← c_assert env (minAnisotropy <=? maxAnisotropy)%float;
  _ ← c_assert env ((0 <=? minAnisotropy)%float && (minAnisotropy <=? 1)%float);
  Some (set_config b (Cfg.with_anisotropy (config b) minAnisotropy maxAnisotropy)).

(** Lines 513-520. *)
Definition setCropSize (b : Batch) (minSize maxSize : double) : option Batch :=
  _ ← c_assert env (minSize <=? maxSize)%float;
  _ ← c_assert env ((0 <=? minSize)%float && (minSize <=? 1)%float);
  _ ← c_assert env ((0 <=? maxSize)%float && (maxSize <=? 1)%float);
  Some (set_config b (Cfg.with_crop_size (config b) minSize maxSize)).

(** The assertion of line 524 holds for every value of the type. *)
Definition setCropLocation (b : Batch) (l : CropLocation) : Batch :=
  set_config b (Cfg.with_location (config b) l).

End Setters.

(* ================================================================== *)
(** ** ReaderTask: the work on one borrowed item *)
(* ================================================================== *)

(** [snprintf(buffer, 512, "%s", s)]: at most 511 characters. *)
Definition snprintf512 (s : string) : string := String.substring 0 511 s.

(** The floats that a kernel asked for [n] of them leaves behind: those it
    computed, and undefined cells for the rest. *)
Definition written (n : nat) (out : pixels) : pixels :=
  take n out ++ replicate (n - length out) None.

(** A buffer after a write past its end: the behaviour is undefined, and
    nothing is known of any of its cells. *)
Definition clobbered (mem : pixels) : pixels := replicate (length mem) None.

Definition allocate (h w c n : Z) : Tensor :=
  {| tshape := {| t_height := h; t_width := w; t_depth := c; t_size := n |};
     tdata := replicate (Z.to_nat (h * w * c * n)) None |}.

Section Reader.
Context {R : Type} (env : Env R).

(** The number of floats that the colour loops of lines 844-877 write
    from the start of the output: three channels of [n] floats in the two
    cases with [K = 3], one channel otherwise. *)
Definition colorExtent (K depth n : Z) : Z :=
  if (K =? 3) && ((depth =? 3) || (depth =? 1)) then 3 * n else n.

(** The number of floats written from [outputPixels] by the second resize
    pass and by the colour loops. Nothing bounds it in the source. *)
Definition fetchExtent (p : Plan) (sh : ImageShape) : option Z :=
  olift2 (fun oh ow =>
            Z.max (oh * ow * depth sh)
                  (colorExtent (outputNumChannels p) (depth sh) (oh * ow)))
         (outputHeight p) (outputWidth p).

(** Whether those writes stay within [cap] floats. *)
Definition fetchFits (p : Plan) (sh : ImageShape) (cap : nat) : bool :=
  match fetchExtent p sh with
  | Some e => e <=? Z.of_nat cap
  | None => false
  end.

(** Lines 800-878: the two resize passes and the colour post-processing.
    [mem] is the memory from [outputPixels] to the end of its allocation:
    the second pass writes [outputHeight * outputWidth * shape.depth]
    floats from its start, whatever its length, and the colour loops work
    on the channels that follow one another from there. With an undefined
    crop the floats written are undefined; a write past the end of [mem],
    and an undefined output size, leave [mem] undefined. *)
Definition fetchPixels (average : list double) (p : Plan) (sh : ImageShape)
    (input : pixels) (mem : pixels) : pixels :=
  match outputHeight p, outputWidth p with
  | Some oh, Some ow =>
      if fetchFits p sh (length mem) then
        let resized :=
          match cropHeight p, cropOffsetY p, cropWidth p, cropOffsetX p with
          | Some ch, Some cy, Some cw, Some cx =>
              let temp :=
                (* the first call leaves the flip argument to its default, taken as false *)
                imageResizeVertical env input oh (height sh) (width sh) (depth sh) ch cy false in
              written (Z.to_nat (oh * ow * depth sh))
                (imageResizeVertical env temp ow (width sh) oh (depth sh) cw cx (flip p))
          | _, _, _, _ => replicate (Z.to_nat (oh * ow * depth sh)) None
          end in
        postprocessColors average p (depth sh) (oh * ow)
          (resized ++ drop (length resized) mem)
      else clobbered mem
  | _, _ => clobbered mem
  end.

(** The offset of the item's slab in the pack (line 786). *)
Definition packOffset (p : Plan) (index : Z) : option Z :=
  olift2 (fun oh ow => oh * ow * 3 * index) (outputHeight p) (outputWidth p).

(** The [fetch] case of the switch (lines 780-896). Of the batch the
    worker reads the configuration and the memory of [cpuPack], which it
    also writes in packed mode: [cfg] and [pack]. In packed mode
    [outputPixels] points [packOffset] floats into the pack (line 786) and
    the writes run from there with no bound: when they pass the end of the
    pack, or the offset is undefined, the whole pack is left undefined. *)
Definition fetchWork (cfg : Config) (pack : option Tensor) (it : Item.t)
    : Item.t * option Tensor * list LogEntry :=
  let log := [LogReadPixels (Item.index it) (Item.name it)] in
  let rd := readPixels env (Item.name it) in
  if negb (is_success (fst rd)) then
    (set_error it (fst rd) (Some (snprintf512 (getLastErrorMessage env (Item.name it)))),
     pack, log)
  else
    let it0 := set_error it (fst rd) (Item.errorMessage it) in
    match Item.plan it with
    | None => (it0, pack, log)
    | Some p =>
        let work := fetchPixels (average cfg) p (Item.shape it) (snd rd) in
        match packingMethod cfg with
        | individualArrays =>
            let cpu :=
              (fun t => {| tshape := tshape t; tdata := work (tdata t) |})
                <$> Item.cpuArray it in
            if gpuMode cfg then
              let ok := cudaMemcpyAsync env (Some (Item.index it)) in
              let gpu :=
                if ok then
                  olift2 (fun g c => {| tshape := tshape g; tdata := tdata c |})
                         (Item.gpuArray it) cpu
                else Item.gpuArray it in
              let it1 := set_arrays it0 cpu gpu in
              (if ok then it1
               else set_error it1 VLE_Cuda
                      (Some (snprintf512
                         ("CUDA error while copying memory from host to device: '"
                          ++ cudaGetErrorString env (Some (Item.index it)) ++ "'")%string)),
               pack, log)
            else (set_arrays it0 cpu (Item.gpuArray it), pack, log)
        | singleArray =>
            let pack' :=
              (fun t =>
                 {| tshape := tshape t;
                    tdata :=
                      match packOffset p (Item.index it) with
                      | Some off =>
                          let mem := drop (Z.to_nat off) (tdata t) in
                          if ((Z.to_nat off <=? length (tdata t))%nat
                              && fetchFits p (Item.shape it) (length mem))%bool
                          then take (Z.to_nat off) (tdata t) ++ work mem
                          else clobbered (tdata t)
                      | None => clobbered (tdata t)
                      end |}) <$> pack in
            (it0, pack', log)
        end
    end.

(** The switch of lines 771-900 on a borrowed item without error. *)
Definition entryPointWork (cfg : Config) (pack : option Tensor) (it : Item.t)
    : Item.t * option Tensor * list LogEntry :=
  match Item.state it with
  | Item.prefetch =>
      let rs := readShape env (Item.shape it) (Item.name it) in
      let it1 := set_shape it (snd rs) in
      (set_error it1 (fst rs)
         (if is_success (fst rs) then Item.errorMessage it
          else Some (snprintf512 (getLastErrorMessage env (Item.name it)))),
       pack, [LogReadShape (Item.index it) (Item.name it)])
  | Item.fetch => fetchWork cfg pack it
  | Item.ready => (it, pack, [])
  end.

(** Lines 766-901 on a borrowed item: the work is skipped when the item
    carries an error. *)
Definition entryPointItem (cfg : Config) (pack : option Tensor) (it : Item.t)
    : Item.t * option Tensor * list LogEntry :=
  if negb (is_success (Item.error it)) then (it, pack, [])
  else entryPointWork cfg pack it.

(** One turn of the loop of [ReaderTask::entryPoint] (lines 754-902):
    borrow, work, return. [None] when the worker leaves or waits. *)
Definition entryPointTurn (b : Batch) : option (Batch * list LogEntry) :=
  match borrowNextItem b with
  | Borrowed it b1 =>
      let r := entryPointItem (config b1) (cpuPack b1) it in
      Some (returnItem env (set_packs b1 (snd (fst r)) (gpuPack b1)) (fst (fst r)),
            snd r)
  | BorrowNull => None
  | BorrowWait _ => None
  end.

(** The worker pool run until the queue is drained: the schedule in which
    the items are handed out and returned one after the other. *)
Fixpoint runWorkers (fuel : nat) (b : Batch) : Batch * list LogEntry :=
  match fuel with
  | O => (b, [])
  | S fuel' =>
      match entryPointTurn b with
      | Some (b1, l1) =>
          let r := runWorkers fuel' b1 in (fst r, l1 ++ snd r)
      | None => (b, [])
      end
  end.

Definition drain (b : Batch) : Batch * list LogEntry :=
  runWorkers (length (items b)) b.

(** [Batch::sync] (lines 414-434) with the workers running: it returns
    once every item is [ready], and waits forever otherwise. *)
Definition sync (b : Batch) : Flow Batch * list LogEntry :=
  let r := drain b in
  (if forallb (fun it => Item.State_eqb (Item.state it) Item.ready) (items (fst r))
   then Go (fst r) else Stop Blocked,
   snd r).

(** The body of the loop of [Batch::prefetch] for one item
    (lines 555-689). *)
Definition prefetchItem (cfg : Config) (it : Item.t) : Gen R Item.t :=
  let bs0 := match Item.plan it with
             | Some p => brightnessShift p
             | None => [None; None; None]
             end in
  p <~ planItem env cfg (Item.shape it) bs0 ;;
  let it1 := set_plan it p in
  let it2 :=
    match packingMethod cfg with
    | individualArrays =>
        let fresh :=
          olift2 (fun oh ow => allocate oh ow (outputNumChannels p) 1)
                 (outputHeight p) (outputWidth p) in
        set_arrays it1 fresh (if gpuMode cfg then fresh else Item.gpuArray it1)
    | singleArray => it1
    end in
  gret (set_state it2 Item.fetch).

Fixpoint prefetchItems (cfg : Config) (l : list Item.t) : Gen R (list Item.t) :=
  match l with
  | [] => gret []
  | it :: l' =>
      it' <~ prefetchItem cfg it ;;
      l'' <~ prefetchItems cfg l' ;;
      gret (it' :: l'')
  end.

(** Lines 539-549: in packed mode the pack is allocated for all items;
    [None] is the failed assertion of line 541. *)
Definition allocatePack (b : Batch) : option Batch :=
  let cfg := config b in
  match packingMethod cfg with
  | singleArray =>
      _ ← c_assert env (match resizeMethod cfg with fixedSize => true | _ => false end);
      let t := allocate (resizeHeight cfg) (resizeWidth cfg) 3 (sizeZ (items b)) in
      Some (set_packs b (Some t) (if gpuMode cfg then Some t else gpuPack b))
  | individualArrays => Some b
  end.

(** [Batch::prefetch] (lines 533-692). *)
Definition prefetch (b : Batch) : Gen R (Flow Batch * list LogEntry) :=
  let s := sync b in
  match fst s with
  | Stop h => gret (Stop h, snd s)
  | Go b1 =>
      match allocatePack b1 with
      | None => gret (Stop Aborted, snd s)
      | Some b2 =>
          l <~ prefetchItems (config b2) (items b2) ;;
          gret (Go (set_items (set_counters b2 0 0) l), snd s)
      end
  end.

End Reader.

(* ================================================================== *)
(** ** The MEX interface *)
(* ================================================================== *)

(** The arrays handed in by the caller. *)
#[warnings="-register-all"]
Inductive mxArray :=
| mxDouble (dims : list Z) (pr : list double)   (* full real double array *)
| mxChar (s : string)                           (* row of characters *)
| mxCell (cells : list mxArray)
| mxOther.

(** The predicates of [bits/mexutils.h], a header outside these sources,
    after their documentation: a plain array is a full real double one. *)
Definition numel (dims : list Z) : Z := fold_right Z.mul 1 dims.

Definition vlmxIsPlainMatrix (a : mxArray) (m n : Z) : bool :=
  match a with
  | mxDouble [r; c] pr =>
      (sizeZ pr =? r * c) && ((m <? 0) || (r =? m)) && ((n <? 0) || (c =? n))
  | _ => false
  end.

Definition vlmxIsPlainVector (a : mxArray) (n : Z) : bool :=
  match a with
  | mxDouble [r; c] pr =>
      (sizeZ pr =? r * c) && ((r =? 1) || (c =? 1)) && ((n <? 0) || (sizeZ pr =? n))
  | _ => false
  end.

Definition vlmxIsPlainScalar (a : mxArray) : bool :=
  match a with
  | mxDouble [1; 1] [_] => true
  | _ => false
  end.

Definition vlmxIsString (a : mxArray) (n : Z) : bool :=
  match a with
  | mxChar s => (n <? 0) || (Z.of_nat (String.length s) =? n)
  | _ => false
  end.

Definition mxGetPr (a : mxArray) : list double :=
  match a with
  | mxDouble _ pr => pr
  | _ => []
  end.

(** [mxGetString(a, buffer, 512)]: at most 511 characters are copied. *)
Definition mxGetString512 (a : mxArray) : string :=
  match a with
  | mxChar s => String.substring 0 511 s
  | _ => EmptyString
  end.

Definition ascii_lower (c : Ascii.ascii) : Ascii.ascii :=
  let n := Ascii.nat_of_ascii c in
  if (65 <=? n)%nat && (n <=? 90)%nat then Ascii.ascii_of_nat (n + 32) else c.

Fixpoint string_lower (s : string) : string :=
  match s with
  | EmptyString => EmptyString
  | String c s' => String (ascii_lower c) (string_lower s')
  end.

(** [vlmxCompareToStringI(a, s) == 0]: equality without case. *)
Definition vlmxEqualsStringI (a : mxArray) (s : string) : bool :=
  match a with
  | mxChar t => String.eqb (string_lower t) (string_lower s)
  | _ => false
  end.

(** The option codes of lines 32-47. *)
Inductive OptCode :=
| opt_num_threads | opt_prefetch | opt_resize | opt_pack | opt_gpu
| opt_verbose | opt_subtract_average | opt_crop_size | opt_crop_location
| opt_crop_anisotropy | opt_flip | opt_contrast | opt_saturation
| opt_brightness.

(** The locals of [mexFunction] that the option loop fills
    (lines 972-994); those handed to the setters of the batch are kept in
    a [Config]. *)
Record Args := {
  a_prefetch : bool;
  a_requestedNumThreads : Z;
  a_verbosity : Z;
  a_config : Config
}.

Definition initialArgs (numReaders : Z) : Args :=
  {| a_prefetch := false; a_requestedNumThreads := numReaders;
     a_verbosity := 0; a_config := defaultConfig (-1) (-1) |}.

Definition with_config (a : Args) (c : Config) : Args :=
  {| a_prefetch := a_prefetch a;
     a_requestedNumThreads := a_requestedNumThreads a;
     a_verbosity := a_verbosity a; a_config := c |}.

Definition nth_double (l : list double) (i : nat) : Flow double :=
  match l !! i with
  | Some x => Go x
  | None => Stop Undefined
  end.

Definition flow_int (x : double) : Flow Z :=
  match int_of_double x with
  | Some z => Go z
  | None => Stop Undefined
  end.

(** One case of the switch of lines 1007-1154; [optarg] is the argument
    that [vlmxNextOption] hands over (ignored by the flags). *)
Definition parseOption (a : Args) (opt : OptCode) (optarg : mxArray) : Flow Args :=
  let c := a_config a in
  match opt with
  | opt_verbose =>
      Go {| a_prefetch := a_prefetch a;
            a_requestedNumThreads := a_requestedNumThreads a;
            a_verbosity := a_verbosity a + 1; a_config := c |}
  | opt_prefetch =>
      Go {| a_prefetch := true;
            a_requestedNumThreads := a_requestedNumThreads a;
            a_verbosity := a_verbosity a; a_config := c |}
  | opt_pack => Go (with_config a (Cfg.with_packing c singleArray))
  | opt_gpu => Go (with_config a (Cfg.with_gpu c true))
  | opt_num_threads =>
      (* (int)mxGetScalar(optarg) *)
      flow_bind (flow_bind (nth_double (mxGetPr optarg) 0) flow_int) (fun n =>
      Go {| a_prefetch := a_prefetch a; a_requestedNumThreads := n;
            a_verbosity := a_verbosity a; a_config := c |})
  | opt_resize =>
      if negb (vlmxIsPlainVector optarg (-1)) then
        Stop (Raised "RESIZE is not a plain vector.")
      else
        let sized (m : ResizeMethod) (h w : Z) : Flow Args :=
          if (h <? 1) || (w <? 1) then
            Stop (Raised "An element of RESIZE is smaller than one.")
          else Go (with_config a (Cfg.with_resize c m h w)) in
        match mxGetPr optarg with
        | [x] => flow_bind (flow_int x) (fun h => sized resizeShortestSide h h)
        | [x; y] =>
            flow_bind (flow_int x) (fun h =>
            flow_bind (flow_int y) (fun w => sized fixedSize h w))
        | _ => Stop (Raised "RESIZE does not have one or two dimensions.")
        end
  | opt_brightness =>
      if negb (vlmxIsPlainMatrix optarg (-1) (-1)) then
        Stop (Raised "BRIGHTNESS is not a plain matrix.")
      else
        let zero9 := replicate 9 0%float in
        let set (B : list double) : Flow Args :=
          Go (with_config a
                (Cfg.with_color c B (contrastDeviation c) (saturationDeviation c))) in
        match mxGetPr optarg with
        | [x] => set (<[8%nat := x]> (<[3%nat := x]> (<[0%nat := x]> zero9)))
        | [x0; x1; x2] =>
            set (<[8%nat := x2]> (<[3%nat := x1]> (<[0%nat := x0]> zero9)))
        | [_; _; _; _; _; _; _; _; _] as pr => set pr
        | _ => Stop (Raised "BRIGHTNESS does not have 1, 3, or 9 elements.")
        end
  | opt_saturation =>
      if negb (vlmxIsPlainScalar optarg) then
        Stop (Raised "SATURATION is not a plain scalar.")
      else
        flow_bind (nth_double (mxGetPr optarg) 0) (fun x =>
        if (x <? 0)%float || (1 <? x)%float then
          Stop (Raised "SATURATION is not in the [0,1] range..")
        else
          Go (with_config a
                (Cfg.with_color c (brightnessDeviation c) (contrastDeviation c) x)))
  | opt_contrast =>
      if negb (vlmxIsPlainScalar optarg) then
        Stop (Raised "CONTRAST is not a plain scalar.")
      else
        flow_bind (nth_double (mxGetPr optarg) 0) (fun x =>
        if (x <? 0)%float || (1 <? x)%float then
          Stop (Raised "CONTRAST is not in the [0,1] range..")
        else
          Go (with_config a
                (Cfg.with_color c (brightnessDeviation c) x (saturationDeviation c))))
  | opt_crop_anisotropy =>
      if negb (vlmxIsPlainVector optarg 2) then
        Stop (Raised "CROPANISOTROPY is not a plain vector with two components.")
      else
        flow_bind (nth_double (mxGetPr optarg) 0) (fun lo =>
        flow_bind (nth_double (mxGetPr optarg) 1) (fun hi =>
        if (lo <? 0)%float || (hi <? lo)%float then
          Stop (Raised "CROPANISOTROPY values are not in the legal range.")
        else Go (with_config a (Cfg.with_anisotropy c lo hi))))
  | opt_crop_size =>
      if negb (vlmxIsPlainVector optarg 2) then
        Stop (Raised "CROPSIZE is not a plain vector with two components.")
      else
        flow_bind (nth_double (mxGetPr optarg) 0) (fun lo =>
        flow_bind (nth_double (mxGetPr optarg) 1) (fun hi =>
        if (lo <? 0)%float || (hi <? lo)%float || (1 <? hi)%float then
          Stop (Raised "CROPSIZE values are not in the legal range.")
        else Go (with_config a (Cfg.with_crop_size c lo hi))))
  | opt_crop_location =>
      if negb (vlmxIsString optarg (-1)) then
        Stop (Raised "CROPLOCATION is not a string")
      else if vlmxEqualsStringI optarg "random" then
        Go (with_config a (Cfg.with_location c cropRandom))
      else if vlmxEqualsStringI optarg "center" then
        Go (with_config a (Cfg.with_location c cropCenter))
      else Stop (Raised "CROPLOCATION value unknown.")
  | opt_subtract_average =>
      if negb (vlmxIsPlainVector optarg 3) then
        Stop (Raised "SUBTRACTAVERAGE is not a plain vector with three elements.")
      else Go (with_config a (Cfg.with_average c (to_single <$> mxGetPr optarg)))
  | opt_flip => Go (with_config a (Cfg.with_flip c true))
  end.

(** The option loop of lines 1006-1155 over the options as
    [vlmxNextOption] yields them. *)
Fixpoint parseOptions (a : Args) (opts : list (OptCode * mxArray)) : Flow Args :=
  match opts with
  | [] => Go a
  | (opt, optarg) :: rest =>
      match parseOption a opt optarg with
      | Go a' => parseOptions a' rest
      | Stop h => Stop h
      end
  end.

(* ================================================================== *)
(** ** The process-wide state and [mexFunction] *)
(* ================================================================== *)

(** A [ReaderTask]: its index and whether its thread has been started. *)
Record ReaderTask := { rt_index : Z; rt_thread : bool }.

(** The globals of lines 946-950, with the state of the generators. *)
Record World (R : Type) := {
  batch : Batch;
  batchIsInitialized : bool;
  readers : list ReaderTask;
  rng : R
}.
Arguments batch {R}.
Arguments batchIsInitialized {R}.
Arguments readers {R}.
Arguments rng {R}.

(** What one call of [mexFunction] leaves behind: the globals, how the call
    ended (with the cells of [out[OUT_IMAGES]] when it set them), the
    reader invocations made while it ran, the warnings it issued and the
    names it passed to [registerItem]. *)
Record Result (R : Type) := {
  world : World R;
  outcome : Flow (option (list (option Tensor)));
  readerLog : list LogEntry;
  warnings : list string;
  registered : list string
}.
Arguments world {R}.
Arguments outcome {R}.
Arguments readerLog {R}.
Arguments warnings {R}.
Arguments registered {R}.

(** [ReaderTask::init] (lines 932-940) on the task [rt]: [finalize] first
    joins the thread of a task already started, and that thread leaves its
    loop only when [borrowNextItem] returns NULL, that is once the batch
    has [quit]. *)
Definition ReaderTask_init (quit : bool) (rt : ReaderTask) (index : Z) : Flow ReaderTask :=
  if rt_thread rt && negb quit then Stop Blocked
  else Go {| rt_index := index; rt_thread := true |}.

(** The loop of lines 1178-1184: push a new task, then [init] the task at
    position [r]. *)
Fixpoint createReaders (quit : bool) (rs : list Z) (readers : list ReaderTask)
    : list ReaderTask * Flow unit :=
  match rs with
  | [] => (readers, Go ())
  | r :: rs' =>
      let pushed := readers ++ [ {| rt_index := -1; rt_thread := false |} ] in
      match pushed !! Z.to_nat r with
      | Some rt =>
          match ReaderTask_init quit rt r with
          | Go rt' => createReaders quit rs' (<[Z.to_nat r := rt']> pushed)
          | Stop h => (pushed, Stop h)
          end
      | None => (pushed, Stop Undefined)
      end
  end.

(** Line 1198, accumulated over the cells of FILENAMES from index [i]. *)
Fixpoint extractFilenames (b : Batch) (cells : list mxArray) (i : Z)
    (filenames : list string) (same : bool) : Flow (list string * bool) :=
  match cells with
  | [] => Go (filenames, same)
  | c :: rest =>
      if negb (vlmxIsString c (-1)) then
        Stop (Raised "FILENAMES contains an entry that is not a string.")
      else
        let filename := mxGetString512 c in
        extractFilenames b rest (i + 1) (filenames ++ [filename])
          (same && ((i <? sizeZ (items b))
                    && match getItem b i with
                       | Some it => String.eqb (Item.name it) filename
                       | None => false
                       end))
  end.

(** Lines 1252-1265: the cells of the result, filled item by item. *)
Fixpoint emitItems (gpu : bool) (l : list Item.t) (i : nat)
    (out : list (option Tensor)) (warn : list string)
    : Flow (list (option Tensor)) * list string :=
  match l with
  | [] => (Go out, warn)
  | it :: l' =>
      if negb (is_success (Item.error it)) then
        emitItems gpu l' (S i) out
          (warn ++ [("could not read image '" ++ Item.name it ++ "' because '"
                     ++ default EmptyString (Item.errorMessage it) ++ "'")%string])
      else if (i <? length out)%nat then
        emitItems gpu l' (S i)
          (<[i := if gpu then Item.gpuArray it else Item.cpuArray it]> out) warn
      else (Stop Undefined, warn)
  end.

Section Dispatcher.
Context {R : Type} (env : Env R).

Definition applyConfig (b : Batch) (c : Config) : Flow Batch :=
  let b := setGpuMode b (gpuMode c) in
  let b := setFlipMode b (flipMode c) in
  let b := setCropLocation b (cropLocation c) in
  match setCropAnisotropy env b (minCropAnisotropy c) (maxCropAnisotropy c) with
  | None => Stop Aborted
  | Some b =>
      match setCropSize env b (minCropSize c) (maxCropSize c) with
      | None => Stop Aborted
      | Some b =>
          let b := setPackingMethod b (packingMethod c) in
          let b := setResizeMethod b (resizeMethod c) (resizeHeight c) (resizeWidth c) in
          let b := setAverage b (average c) in
          Go (setColorDeviation b (brightnessDeviation c)
                (contrastDeviation c) (saturationDeviation c))
      end
  end.

Definition stopped (w : World R) (h : Halt) (log : list LogEntry)
    (reg : list string) : Result R :=
  {| world := w; outcome := Stop h; readerLog := log; warnings := [];
     registered := reg |}.

Definition with_batch (w : World R) (b : Batch) : World R :=
  {| batch := b; batchIsInitialized := batchIsInitialized w;
     readers := readers w; rng := rng w |}.

(** Lines 1238-1269: after the batch is ready to be collected. *)
Definition collect (w : World R) (a : Args) (numCells : nat)
    (log : list LogEntry) (reg : list string) : Result R :=
  if a_prefetch a then
    {| world := w; outcome := Go None; readerLog := log; warnings := [];
       registered := reg |}
  else
    let s := sync env (batch w) in
    match fst s with
    | Stop h => stopped w h (log ++ snd s) reg
    | Go b =>
        match getPackingMethod b with
        | singleArray =>
            let out := [ if gpuMode (config b) then gpuPack b else cpuPack b ] in
            let b' := if gpuMode (config b) then set_packs b (cpuPack b) None
                      else set_packs b None (gpuPack b) in
            {| world := with_batch w (clear b'); outcome := Go (Some out);
               readerLog := log ++ snd s; warnings := []; registered := reg |}
        | individualArrays =>
            let e := emitItems (gpuMode (config b)) (items b) 0
                       (replicate numCells None) [] in
            match fst e with
            | Stop h =>
                {| world := with_batch w b; outcome := Stop h;
                   readerLog := log ++ snd s; warnings := snd e;
                   registered := reg |}
            | Go out =>
                {| world := with_batch w (clear b); outcome := Go (Some out);
                   readerLog := log ++ snd s; warnings := snd e;
                   registered := reg |}
            end
        end
    end.

(** Lines 1201-1236: a new cycle unless the names are those prefetched. *)
Definition startCycle (w : World R) (a : Args) (filenames : list string)
    : Result R + World R * list LogEntry :=
  let b := clear (batch w) in
  let w1 := with_batch w b in
  match packingMethod (a_config a), resizeMethod (a_config a) with
  | singleArray, noResize | singleArray, resizeShortestSide =>
      inl (stopped w1
             (Raised "PACK must be used in combination with resizing to a fixed size.")
             [] [])
  | _, _ =>
      match applyConfig b (a_config a) with
      | Stop h => inl (stopped w1 h [] [])
      | Go b =>
          let b := fold_left (registerItem env) filenames b in
          let r := prefetch env b (rng w) in
          let w2 := {| batch := b; batchIsInitialized := batchIsInitialized w;
                       readers := readers w; rng := snd r |} in
          match fst (fst r) with
          | Stop h => inl (stopped w2 h (snd (fst r)) filenames)
          | Go b' => inr (with_batch w2 b', snd (fst r))
          end
      end
  end.

(** Lines 1165-1172. *)
Definition prepareBatch (w : World R) : World R :=
  if batchIsInitialized w then w
  else {| batch := init (batch w); batchIsInitialized := true;
          readers := readers w; rng := rng w |}.

(** Lines 1174-1185. *)
Definition prepareReaders (w : World R) (requestedNumThreads : Z)
    : World R * Flow unit :=
  if sizeZ (readers w) =? requestedNumThreads then (w, Go ())
  else
    let cr := createReaders (quit (batch w)) (seqZ 0 requestedNumThreads) (readers w) in
    ({| batch := clear (batch w); batchIsInitialized := batchIsInitialized w;
        readers := fst cr; rng := rng w |}, snd cr).

(** Lines 1187-1269. *)
Definition dispatch (w : World R) (a : Args) (cells : list mxArray) : Result R :=
  match extractFilenames (batch w) cells 0 [] true with
  | Stop h => stopped w h [] []
  | Go (filenames, same) =>
      if same then collect w a (length cells) [] []
      else
        match startCycle w a filenames with
        | inl res => res
        | inr (w', log) => collect w' a (length cells) log filenames
        end
  end.

(** [mexFunction] (lines 969-1269): [in_filenames] is [in[0]] ([None] when
    [nin] is 0) and [opts] are the options as [vlmxNextOption] yields
    them. *)
Definition mexFunction (w : World R) (in_filenames : option mxArray)
    (opts : list (OptCode * mxArray)) : Result R :=
  match in_filenames with
  | None => stopped w (Raised "There is less than one argument.") [] []
  | Some fn =>
      match parseOptions (initialArgs (sizeZ (readers w))) opts with
      | Stop h => stopped w h [] []
      | Go a =>
          match fn with
          | mxCell cells =>
              let w1 := prepareBatch w in
              let pool := prepareReaders w1 (Z.max (a_requestedNumThreads a) 1) in
              match snd pool with
              | Stop h => stopped (fst pool) h [] []
              | Go _ => dispatch (fst pool) a cells
              end
          | _ => stopped w (Raised "FILENAMES is not a cell array of strings.") [] []
          end
      end
  end.

(** The workers between two calls: they run until the queue is empty. *)
Definition background (w : World R) : World R * list LogEntry :=
  let r := drain env (batch w) in (with_batch w (fst r), snd r).

End Dispatcher.

(* ================================================================== *)
(** ** Interleaved executions of the batch operations *)
(* ================================================================== *)

(** The operations of one prefetch cycle as the dispatcher thread and the
    worker threads interleave them. [registerItem], [borrowNextItem] and
    [returnItem] run under the mutex; [Batch::prefetch] holds it only
    inside [sync], so its loop is split into one step per item. *)
Inductive Event :=
| EvRegister (name : string)   (* dispatcher: [registerItem] *)
| EvBorrow                     (* a worker: [borrowNextItem] *)
| EvReturn (index : Z)         (* the worker holding the item: work, [returnItem] *)
| EvPrefetchBegin              (* dispatcher: [sync] returns, lines 540-553 *)
| EvPrefetchItem               (* dispatcher: one turn of the loop of line 555 *)
| EvPrefetchEnd.               (* dispatcher: the loop ends *)

(** The batch, the generators, and where the dispatcher stands in the loop
    of [Batch::prefetch] ([None]: outside it). *)
Record Machine (R : Type) := {
  m_batch : Batch;
  m_rng : R;
  m_loop : option nat
}.
Arguments m_batch {R}.
Arguments m_rng {R}.
Arguments m_loop {R}.

Section Machine.
Context {R : Type} (env : Env R).

Definition all_ready (b : Batch) : bool :=
  forallb (fun it => Item.State_eqb (Item.state it) Item.ready) (items b).

Definition step (m : Machine R) (e : Event) : option (Machine R) :=
  let b := m_batch m in
  match e, m_loop m with
  | EvRegister nm, None =>
      Some {| m_batch := registerItem env b nm; m_rng := m_rng m; m_loop := None |}
  | EvBorrow, _ =>
      match borrowNextItem b with
      | Borrowed _ b' => Some {| m_batch := b'; m_rng := m_rng m; m_loop := m_loop m |}
      | _ => None
      end
  | EvReturn i, _ =>
      match getItem b i with
      | Some it =>
          if Item.borrowed it then
            let r := entryPointItem env (config b) (cpuPack b) it in
            Some {| m_batch := returnItem env (set_packs b (snd (fst r)) (gpuPack b))
                                 (fst (fst r));
                    m_rng := m_rng m; m_loop := m_loop m |}
          else None
      | None => None
      end
  | EvPrefetchBegin, None =>
      if all_ready b then
        match allocatePack env b with
        | Some b1 =>
            Some {| m_batch := set_counters b1 0 0; m_rng := m_rng m;
                    m_loop := Some 0%nat |}
        | None => None
        end
      else None
  | EvPrefetchItem, Some i =>
      match items b !! i with
      | Some it =>
          let r := prefetchItem env (config b) it (m_rng m) in
          Some {| m_batch := set_items b (<[i := fst r]> (items b));
                  m_rng := snd r; m_loop := Some (S i) |}
      | None => None
      end
  | EvPrefetchEnd, Some i =>
      if (length (items b) <=? i)%nat
      then Some {| m_batch := b; m_rng := m_rng m; m_loop := None |}
      else None
  | _, _ => None
  end.

Fixpoint run (m : Machine R) (es : list Event) : option (Machine R) :=
  match es with
  | [] => Some m
  | e :: es' =>
      match step m e with
      | Some m' => run m' es'
      | None => None
      end
  end.

(** The start of a cycle: an initialised batch without items. *)
Definition cycleStart (b : Batch) (r : R) : Machine R :=
  {| m_batch := clear (set_quit b false); m_rng := r; m_loop := None |}.

End Machine.

(** The order probe < fetch < ready of the spec. *)
Definition state_rank (s : Item.State) : Z :=
  match s with
  | Item.prefetch => 0
  | Item.fetch => 1
  | Item.ready => 2
  end.

(** Phase monotonicity as the spec words it: along every execution from
    the start of a cycle, no step lowers the rank of an item's state. *)
Definition never_regresses {R : Type} (env : Env R) (m0 : Machine R) : Prop :=
  ∀ es e m m' (i : nat) it it',
    run env m0 es = Some m →
    step env m e = Some m' →
    items (m_batch m) !! i = Some it →
    items (m_batch m') !! i = Some it' →
    state_rank (Item.state it) <= state_rank (Item.state it').

(** What holds of every machine reached from the start of a cycle: each
    item sits at its own index, and while the dispatcher is in the loop of
    [Batch::prefetch] the items it has not reached yet are [ready]. *)
Definition cycle_inv {R : Type} (m : Machine R) : Prop :=
  (∀ (j : nat) it, items (m_batch m) !! j = Some it → Item.index it = Z.of_nat j)
  ∧ match m_loop m with
    | Some k => ∀ (j : nat) it, (k <= j)%nat → items (m_batch m) !! j = Some it →
                                Item.state it = Item.ready
    | None => True
    end.

(** How one step may change the state of the item at index [i]: not at
    all, to [ready] by the return of that item, or from [ready] to [fetch]
    by the loop of [Batch::prefetch]. *)
Definition allowed_change (e : Event) (i : nat) (old new : Item.State) : Prop :=
  new = old
  ∨ (e = EvReturn (Z.of_nat i) ∧ new = Item.ready)
  ∨ (e = EvPrefetchItem ∧ old = Item.ready ∧ new = Item.fetch).

(* ================================================================== *)
(** ** One item through the pipeline *)
(* ================================================================== *)

Definition itemNames (b : Batch) : list string := Item.name <$> items b.

(** What [returnItem] leaves of the item when no pack is pushed. *)
Definition returned (it : Item.t) : Item.t :=
  set_state (set_borrowed it false) Item.ready.

(** The item after one turn of a worker on it, and the reader invocations
    of that turn, in individual mode (where the pack is not used). *)
Definition turnItem {R : Type} (env : Env R) (cfg : Config) (it : Item.t) : Item.t :=
  returned (fst (fst (entryPointItem env cfg None (set_borrowed it true)))).

Definition turnLog {R : Type} (env : Env R) (cfg : Config) (it : Item.t)
    : list LogEntry :=
  snd (entryPointItem env cfg None (set_borrowed it true)).

(** The cell of the result for an item (lines 1257-1263). *)
Definition itemSlot (gpu : bool) (it : Item.t) : option Tensor :=
  if negb (is_success (Item.error it)) then None
  else if gpu then Item.gpuArray it else Item.cpuArray it.

Definition itemWarning (it : Item.t) : string :=
  ("could not read image '" ++ Item.name it ++ "' because '"
   ++ default EmptyString (Item.errorMessage it) ++ "'")%string.

(** Every item sits at its own index. *)
Definition indexed (l : list Item.t) : Prop :=
  ∀ (j : nat) it, l !! j = Some it → Item.index it = Z.of_nat j.

(** Reuse as the spec words it: the prefetched batch is reused iff the
    incoming names are exactly the registered ones, and of two consecutive
    calls with the same names only the first invokes the reader or
    registers items. *)
Definition reuse_claim {R : Type} (env : Env R) : Prop :=
  (∀ b cells fns same,
     extractFilenames b cells 0 [] true = Go (fns, same) →
     (same = true ↔ fns = itemNames b))
  ∧ (∀ w cells opts,
       let r1 := mexFunction env w (Some (mxCell cells)) opts in
       let r2 := mexFunction env (world r1) (Some (mxCell cells)) opts in
       readerLog r2 = [] ∧ registered r2 = []).

(** Config validity as the spec words it for packing: every call whose
    options select packed mode without a fixed-size resize raises an
    error. *)
Definition pack_always_rejected {R : Type} (env : Env R) : Prop :=
  ∀ w cells opts a,
    parseOptions (initialArgs (sizeZ (readers w))) opts = Go a →
    packingMethod (a_config a) = singleArray →
    resizeMethod (a_config a) ≠ fixedSize →
    ∃ msg, outcome (mexFunction env w (Some (mxCell cells)) opts) = Stop (Raised msg).

(** Whether an item carries an error. *)
Definition failed (it : Item.t) : bool := negb (is_success (Item.error it)).

(** The items of a cycle in individual mode as registered, as probed, as
    planned and as fetched, for the names [fns] under the configuration
    [cfg] and the generator state [r]. *)
Definition registeredItems {R : Type} (env : Env R) (fns : list string) : list Item.t :=
  imap (fun k nm => freshItem env (Z.of_nat k) nm) fns.

Definition probedItems {R : Type} (env : Env R) (cfg : Config) (fns : list string)
    : list Item.t :=
  turnItem env cfg <$> registeredItems env fns.

Definition plannedItems {R : Type} (env : Env R) (cfg : Config) (fns : list string)
    (r : R) : list Item.t :=
  fst (prefetchItems env cfg (probedItems env cfg fns) r).




(* ================================================================== *)
(** ** The formulas of the spec *)
(* ================================================================== *)

(** What the spec says of the brightness shift of channel [i]:
    the sum over [j] of [B[i + 3j] * w[i]], accumulated from 0 in the
    [float] field of the item. *)
Definition brightness_spec (B : list double) (w : list double) (i : nat)
    : option double :=
  wi ← w !! i;
  b0 ← B !! i;
  b1 ← B !! (i + 3)%nat;
  b2 ← B !! (i + 6)%nat;
  Some (to_single (dadd (to_single (dadd (to_single (dadd 0%float (dmul b0 wi)))
                                         (dmul b1 wi)))
                        (dmul b2 wi))).

(** The matrix-vector product [B w] that the loop does not compute:
    row [i] is the sum over [j] of [B[i + 3j] * w[j]]. *)
Definition brightness_matvec (B : list double) (w : list double) (i : nat)
    : option double :=
  w0 ← w !! 0%nat; w1 ← w !! 1%nat; w2 ← w !! 2%nat;
  b0 ← B !! i;
  b1 ← B !! (i + 3)%nat;
  b2 ← B !! (i + 6)%nat;
  Some (to_single (dadd (to_single (dadd (to_single (dadd 0%float (dmul b0 w0)))
                                         (dmul b1 w1)))
                        (dmul b2 w2))).

(** The three values of [vl::randn()] drawn from generator state [r]. *)
Definition threeNormals {R : Type} (env : Env R) (r : R) : list double :=
  let d0 := randn env r in
  let d1 := randn env (snd d0) in
  let d2 := randn env (snd d1) in
  [fst d0; fst d1; fst d2].

(* ================================================================== *)
(** ** A scripted environment for the concrete scenarios *)
(* ================================================================== *)

Module Scenario.
Local Open Scope string_scope.

(** The generators replay a script: the values of [rand()] and of
    [vl::randn()], each 0 once its list is exhausted. *)
Definition Script : Type := list Z * list double.

(** The files on disk: name and shape; any other name cannot be read. *)
Definition files (n : string) : option ImageShape :=
  if String.eqb n "A.jpg" then Some {| height := 64; width := 48; depth := 3 |}
  else if String.eqb n "small.jpg" then Some {| height := 4; width := 3; depth := 3 |}
  else if String.eqb n "gray.jpg" then Some {| height := 2; width := 2; depth := 1 |}
  else if String.eqb n "wide.jpg" then Some {| height := 3; width := 5; depth := 3 |}
  else None.

(** The reader fills every pixel with 1, and the stand-in for the resize
    kernel fills its destination with 1. *)
Definition env (ndebug : bool) : Env Script :=
  {| RAND_MAX := 2147483647;
     rand := fun r => (hd 0 (fst r), (tl (fst r), snd r));
     randn := fun r => (hd 0%float (snd r), (fst r, tl (snd r)));
     readShape := fun sh n =>
       match files n with
       | Some s => (VLE_Success, s)
       | None => (VLE_Other 1, sh)
       end;
     readPixels := fun n =>
       match files n with
       | Some s =>
           (VLE_Success,
            replicate (Z.to_nat (height s * width s * depth s)) (Some 1%float))
       | None => (VLE_Other 1, [])
       end;
     getLastErrorMessage := fun n => "cannot open " ++ n;
     imageResizeVertical := fun _ dstHeight _ w c _ _ _ =>
       replicate (Z.to_nat (dstHeight * w * c)) (Some 1%float);
     cudaMemcpyAsync := fun _ => true;
     cudaGetErrorString := fun _ => "";
     defaultShape := {| height := 0; width := 0; depth := 0 |};
     NDEBUG := ndebug |}.

(** The globals when the MEX file is loaded. *)
Definition loaded (script : Script) : World Script :=
  {| batch := {| quit := true; items := []; nextItem := 0; numReturnedItems := 0;
                 config := defaultConfig 0 0; cpuPack := None; gpuPack := None;
                 gpuDevice := -1 |};
     batchIsInitialized := false; readers := []; rng := script |}.

Definition names (l : list string) : option mxArray := Some (mxCell (mxChar <$> l)).
Definition row (l : list double) : mxArray := mxDouble [1; sizeZ l] l.

(** The shapes of the cells of a result. *)
Definition shapes (r : Result Script) : Flow (option (list (option TensorShape))) :=
  match outcome r with
  | Go (Some l) => Go (Some (option_map tshape <$> l))
  | Go None => Go None
  | Stop h => Stop h
  end.

(** S1: resize to shortest side 32, individual arrays, centre crop. *)
Definition cfgS1 : Config :=
  Cfg.with_resize (defaultConfig (-1) (-1)) resizeShortestSide 32 32.

Definition itemA : Item.t :=
  {| Item.state := Item.ready; Item.name := "A.jpg";
     Item.shape := {| height := 64; width := 48; depth := 3 |};
     Item.error := VLE_Success; Item.errorMessage := None;
     Item.borrowed := false; Item.cpuArray := None; Item.gpuArray := None;
     Item.index := 0; Item.plan := None |}.

(** A brightness deviation matrix with nine distinct entries
    (column-major). *)
Definition cfgBrightness : Config :=
  Cfg.with_color (defaultConfig (-1) (-1)) [1; 2; 3; 4; 5; 6; 7; 8; 9]%float
    0%float 0%float.

Definition shapeA : ImageShape := {| height := 64; width := 48; depth := 3 |}.

(** Generators whose first [rand()] is 0 and whose normal draws are
    1, 2, 3. *)
Definition scriptZero : Script := ([0], [1; 2; 3]%float).

(** Crop anisotropy sampled in [0, 1]. *)
Definition cfgAnisotropy01 : Config :=
  Cfg.with_anisotropy (defaultConfig (-1) (-1)) 0%float 1%float.

(** The globals after a first call with no names: the batch is
    initialised and empty, the pool holds one reader. *)
Definition started (script : Script) : World Script :=
  world (mexFunction (env false) (loaded script) (names []) []).

(** S3: three names, the second of which cannot be read. *)
Definition cellsS3 : list mxArray :=
  [mxChar "small.jpg"; mxChar "missing.jpg"; mxChar "wide.jpg"].
End Scenario.


(* ================================================================== *)
(** ** ReaderTask: the scratch buffers *)
(* ================================================================== *)

(** The heap as [malloc] and [free] see it: the addresses of the blocks
    currently allocated. *)
Definition Heap := list nat.

(** [struct Buffer] (lines 721-724); [memory] is [None] for NULL. *)
Module Buffer.
Record t := { memory : option nat; size : Z }.
End Buffer.

(** The array [buffers] after the [memset] of the constructor
    (line 735). *)
Definition newBuffers : list Buffer.t :=
  [ {| Buffer.memory := None; Buffer.size := 0 |};
    {| Buffer.memory := None; Buffer.size := 0 |} ].

(** [free(p)]: undefined ([None]) on a block that is not allocated. *)
Definition free (h : Heap) (p : nat) : option Heap :=
  if bool_decide (p ∈ h) then Some (filter (λ q, q ≠ p) h) else None.

Section Buffers.
(** The allocator: [malloc h size] is the address handed out in heap [h],
    [None] when the allocation fails. *)
Variable malloc : Heap → Z → option nat.

(** [ReaderTask::getBuffer] (lines 738-748): the pointer returned, the
    array and the heap afterwards; [None] is an index outside the array or
    a [free] of a block that is not allocated. *)
Definition getBuffer (h : Heap) (buffers : list Buffer.t) (index sz : Z)
    : option (option nat * list Buffer.t * Heap) :=
  b ← (if index <? 0 then None else buffers !! Z.to_nat index);
  if Buffer.size b <? sz then
    h1 ← match Buffer.memory b with
         | Some p => free h p
         | None => Some h
         end;
    let m := malloc h1 sz in
    Some (m,
          <[Z.to_nat index := {| Buffer.memory := m; Buffer.size := sz |}]> buffers,
          match m with Some p => p :: h1 | None => h1 end)
  else Some (Buffer.memory b, buffers, h).

(** A run of calls of [getBuffer], each an index and a size. *)
Fixpoint getBuffers (h : Heap) (buffers : list Buffer.t) (reqs : list (Z * Z))
    : option (list Buffer.t * Heap) :=
  match reqs with
  | [] => Some (buffers, h)
  | (index, sz) :: reqs' =>
      r ← getBuffer h buffers index sz;
      getBuffers (snd r) (snd (fst r)) reqs'
  end.

End Buffers.

(** The loop of [ReaderTask::finalize] over the buffers (lines 909-915):
    a buffer whose memory is NULL keeps its [size]. *)
Fixpoint finalizeBuffers (h : Heap) (buffers : list Buffer.t)
    : option (list Buffer.t * Heap) :=
  match buffers with
  | [] => Some ([], h)
  | b :: rest =>
      match Buffer.memory b with
      | Some p =>
          h1 ← free h p;
          r ← finalizeBuffers h1 rest;
          Some ({| Buffer.memory := None; Buffer.size := 0 |} :: fst r, snd r)
      | None =>
          r ← finalizeBuffers h rest;
          Some (b :: fst r, snd r)
      end
  end.

(** The two requests of a worker fetching an item (lines 790-804), in
    bytes, as [size_t]. *)
Definition scratchRequests (sh : ImageShape) (outputHeight : Z) : list (Z * Z) :=
  [ (0, (height sh * width sh * depth sh * 4) mod (SIZE_MAX + 1));
    (1, (outputHeight * width sh * depth sh * 4) mod (SIZE_MAX + 1)) ].

(** Buffer [i] of the array holds block [p]. *)
Definition holds (buffers : list Buffer.t) (i : nat) (p : nat) : Prop :=
  ∃ b, buffers !! i = Some b ∧ Buffer.memory b = Some p.

(** What the heap and the buffers of a task satisfy between calls: the
    blocks held are distinct, none belongs to the initial heap [h0], and
    together with the blocks of [h0] they are all that is allocated. *)
Definition held (h0 h : Heap) (buffers : list Buffer.t) : Prop :=
  length buffers = 2%nat
  ∧ (∀ i j p, holds buffers i p → holds buffers j p → i = j)
  ∧ (∀ i p, holds buffers i p → p ∉ h0)
  ∧ (∀ q, q ∈ h ↔ q ∈ h0 ∨ ∃ i, holds buffers i q).

(** The largest size requested for buffer [i]. *)
Definition maxRequest (i : Z) (reqs : list (Z * Z)) : Z :=
  foldr (λ r m, if fst r =? i then Z.max (snd r) m else m) 0 reqs.

(** An allocator that never fails: one past the largest live address. *)
Definition bumpAllocator (h : Heap) (sz : Z) : option nat :=
  Some (S (foldr Nat.max 0%nat h)).

(* ================================================================== *)
(** ** Unloading: [atExit] *)
(* ================================================================== *)

(** [ReaderTask::finalize] (lines 906-930) as far as the thread goes: the
    join returns once the worker has left its loop, which it does only
    when [borrowNextItem] returns NULL, that is once the batch has
    [quit]. *)
Definition ReaderTask_finalize (quit : bool) (rt : ReaderTask) : Flow ReaderTask :=
  if rt_thread rt && negb quit then Stop Blocked
  else Go {| rt_index := -1; rt_thread := false |}.

(** The loop of lines 958-961. *)
Fixpoint finalizeReaders (quit : bool) (rs : list ReaderTask) : Flow unit :=
  match rs with
  | [] => Go ()
  | rt :: rs' =>
      match ReaderTask_finalize quit rt with
      | Go _ => finalizeReaders quit rs'
      | Stop h => Stop h
      end
  end.

(** [atExit] (lines 952-963): the globals afterwards, and whether the
    function returned. *)
Definition atExit {R : Type} (w : World R) : World R * Flow unit :=
  let b := if batchIsInitialized w then finalize (batch w) else batch w in
  match finalizeReaders (quit b) (readers w) with
  | Go _ =>
      ({| batch := b; batchIsInitialized := false; readers := []; rng := rng w |}, Go ())
  | Stop h =>
      ({| batch := b; batchIsInitialized := false; readers := readers w; rng := rng w |},
       Stop h)
  end.

(** What holds of the globals between calls: readers exist only once the
    batch has been initialised. *)
Definition pool_needs_batch {R : Type} (w : World R) : Prop :=
  batchIsInitialized w = true ∨ readers w = [].

(** A reader task whose thread runs, as [ReaderTask::init] leaves it. *)
Definition startedReader (r : Z) : ReaderTask := {| rt_index := r; rt_thread := true |}.

(* ================================================================== *)
(** ** Well-formed configurations *)
(* ================================================================== *)

(** What the option RESIZE leaves in the locals (lines 1028-1050). *)
Definition resize_ok (c : Config) : Prop :=
  match resizeMethod c with
  | noResize => True
  | resizeShortestSide =>
      1 <= resizeHeight c <= INT_MAX ∧ resizeWidth c = resizeHeight c
  | fixedSize =>
      1 <= resizeHeight c <= INT_MAX ∧ 1 <= resizeWidth c <= INT_MAX
  end.

(** The test of lines 1081 and 1093, negated. *)
Definition in_unit_range (x : double) : bool :=
  negb ((x <? 0)%float || (1 <? x)%float).

Definition color_ok (c : Config) : Prop :=
  in_unit_range (contrastDeviation c) = true
  ∧ in_unit_range (saturationDeviation c) = true
  ∧ length (brightnessDeviation c) = 9%nat
  ∧ length (average c) = 3%nat.

(** The arguments of a call with the option Prefetch taken away. *)
Definition collecting (a : Args) : Args :=
  {| a_prefetch := false; a_requestedNumThreads := a_requestedNumThreads a;
     a_verbosity := a_verbosity a; a_config := a_config a |}.

(** The number of calls of [rand()] that planning one item makes
    (lines 597-657). *)
Definition randDraws (cfg : Config) : nat :=
  ((if ((minCropAnisotropy cfg =? 0)%float && (maxCropAnisotropy cfg =? 0)%float)%bool
    then 0 else 1)
   + 1
   + match cropLocation cfg with cropCenter => 0 | cropRandom => 2 end
   + (if flipMode cfg then 1 else 0)
   + 2)%nat.

(** The number of output channels of an item (line 647). *)
Definition channelsOf (cfg : Config) (sh : ImageShape) : Z :=
  match packingMethod cfg with
  | individualArrays => depth sh
  | singleArray => 3
  end.

(* ================================================================== *)
(** ** The queue and the pack *)
(* ================================================================== *)

(** The number of floats of one item's slab in a pack of images of
    [h] x [w] pixels (line 786). *)
Definition slabLength (h w : Z) : Z := h * w * 3.

(** An item that sits in the queue with nothing left to do on it. *)
Definition settled (it : Item.t) : Prop :=
  Item.state it = Item.ready ∧ Item.borrowed it = false.

(** An item that carries an error also carries a message written by the
    code: [errorMessage] is not the buffer left unwritten by the
    constructor. *)
Definition reported (it : Item.t) : Prop :=
  failed it = true → is_Some (Item.errorMessage it).

(** What one event does to the queue, as far as the states, the borrowed
    flags and the cursor go. *)
Definition effect {R : Type} (e : Event) (m m' : Machine R) : Prop :=
  let l := items (m_batch m) in
  let l' := items (m_batch m') in
  let n := nextItem (m_batch m) in
  let n' := nextItem (m_batch m') in
  match e with
  | EvRegister _ =>
      m_loop m = None ∧ m_loop m' = None ∧ n' = n
      ∧ ∃ it, l' = l ++ [it] ∧ Item.state it = Item.prefetch ∧ Item.borrowed it = false
  | EvBorrow =>
      m_loop m' = m_loop m ∧ 0 <= n ∧ n' = n + 1
      ∧ ∃ it, l !! Z.to_nat n = Some it ∧ l' = <[Z.to_nat n := set_borrowed it true]> l
  | EvReturn ix =>
      m_loop m' = m_loop m ∧ 0 <= ix ∧ n' = n
      ∧ ∃ it it', l !! Z.to_nat ix = Some it ∧ Item.borrowed it = true
                  ∧ l' = <[Z.to_nat ix := it']> l
                  ∧ Item.state it' = Item.ready ∧ Item.borrowed it' = false
  | EvPrefetchBegin =>
      m_loop m = None ∧ m_loop m' = Some 0%nat ∧ n' = 0
      ∧ all_ready (m_batch m) = true ∧ l' = l
  | EvPrefetchItem =>
      n' = n
      ∧ ∃ k it it', m_loop m = Some k ∧ m_loop m' = Some (S k)
                    ∧ l !! k = Some it ∧ l' = <[k := it']> l
                    ∧ Item.state it' = Item.fetch
                    ∧ Item.borrowed it' = Item.borrowed it
  | EvPrefetchEnd =>
      n' = n ∧ l' = l
      ∧ ∃ k, m_loop m = Some k ∧ m_loop m' = None ∧ (length l <= k)%nat
  end.

(** An item that a worker returned before the loop of [Batch::prefetch]
    reached it: the loop then left it in state [fetch], below the cursor and
    in no worker's hands. *)
Definition stranded {R : Type} (m : Machine R) (j : nat) : Prop :=
  (∃ it, items (m_batch m) !! j = Some it
         ∧ Item.state it = Item.fetch ∧ Item.borrowed it = false)
  ∧ Z.of_nat j < nextItem (m_batch m)
  ∧ match m_loop m with
    | Some k => (j < k)%nat
    | None => True
    end.

(** The items from the cursor on are in no worker's hands; a borrowed item
    is never [ready] outside the loop of [Batch::prefetch], nor below the
    position of that loop. *)
Definition lending_inv {R : Type} (m : Machine R) : Prop :=
  0 <= nextItem (m_batch m)
  ∧ (∀ (j : nat) it, items (m_batch m) !! j = Some it →
       nextItem (m_batch m) <= Z.of_nat j →
       Item.borrowed it = false
       ∧ match m_loop m with
         | None => Item.state it ≠ Item.ready
         | Some k => (j < k)%nat → Item.state it = Item.fetch
         end)
  ∧ (∀ (j : nat) it, items (m_batch m) !! j = Some it →
       Item.borrowed it = true →
       match m_loop m with
       | None => Item.state it ≠ Item.ready
       | Some k => (j < k)%nat → Item.state it ≠ Item.ready
       end).

(* ================================================================== *)
(** ** Proof automation *)
(* ================================================================== *)

(** Case analysis of a successful [parseOption]. *)
Ltac parse_cases Hp :=
  repeat match type of Hp with
         | Go _ = Go _ => injection Hp as <-
         | Stop _ = Go _ => discriminate Hp
         | (if ?c then _ else _) = Go _ => destruct c eqn:?
         | flow_bind ?m _ = Go _ => destruct m eqn:?; cbn [flow_bind] in Hp
         | match ?m with _ => _ end = Go _ => destruct m eqn:?
         end.

(** Case analysis of the comparisons inside [SFcompare]. *)
Ltac sf_cases :=
  repeat match goal with
         | |- context [Z.compare ?a ?b] => destruct (Z.compare_spec a b)
         | |- context [PosDef.Pos.compare_cont Eq ?a ?b] =>
             change (PosDef.Pos.compare_cont Eq a b) with (Pos.compare a b);
             destruct (Pos.compare_spec a b)
         | H : context [Z.compare ?a ?b] |- _ => destruct (Z.compare_spec a b)
         | H : context [PosDef.Pos.compare_cont Eq ?a ?b] |- _ =>
             change (PosDef.Pos.compare_cont Eq a b) with (Pos.compare a b) in H;
             destruct (Pos.compare_spec a b)
         end.

(* ================================================================== *)
(** ** The reader invocations of a cycle *)
(* ================================================================== *)

(** On the names [fns]: one probe of the shape per name, and one decode
    per name whose probe succeeded. *)
Definition probeLog (fns : list string) : list LogEntry :=
  imap (fun k nm => LogReadShape (Z.of_nat k) nm) fns.

Definition decodeLog {R : Type} (env : Env R) (fns : list string) : list LogEntry :=
  concat (imap (fun k nm =>
                  if is_success (fst (readShape env (defaultShape env) nm))
                  then [LogReadPixels (Z.of_nat k) nm] else []) fns).

(* ================================================================== *)
(** ** Further scenarios *)
(* ================================================================== *)

Module Examples.
Local Open Scope string_scope.

(** Packed mode with a fixed size of 2 x 2. *)
Definition cfgPacked : Config :=
  Cfg.with_resize (Cfg.with_packing (defaultConfig (-1) (-1)) singleArray) fixedSize 2 2.

(** An initialised batch under [cfgPacked] with two names registered. *)
Definition packedBatch : Batch :=
  fold_left (registerItem (Scenario.env false)) ["small.jpg"; "wide.jpg"]
    (set_config (init (batch (Scenario.loaded ([], [])))) cfgPacked).

(** The same batch once [Batch::prefetch] has returned. *)
Definition packedPrefetched : Batch :=
  match fst (fst (prefetch (Scenario.env false) packedBatch ([], []))) with
  | Go b => b
  | Stop _ => packedBatch
  end.

Definition packedLog : list LogEntry :=
  snd (fst (prefetch (Scenario.env false) packedBatch ([], []))).

(** The second item of [packedPrefetched]. *)
Definition packedItem : Item.t :=
  default Scenario.itemA (items packedPrefetched !! 1%nat).

(** The globals after a prefetch-only call on two names. *)
Definition prefetchedTwo : World Scenario.Script :=
  world (mexFunction (Scenario.env false) (Scenario.started ([], []))
           (Some (mxCell [mxChar "small.jpg"; mxChar "wide.jpg"]))
           [(opt_prefetch, mxOther)]).

Definition prefetchedTwoItem : Item.t :=
  default Scenario.itemA (items (batch prefetchedTwo) !! 1%nat).

(** An interleaving in which a worker takes the second item before the
    loop of [Batch::prefetch] has reached it. *)
Definition raceEvents : list Event :=
  [EvRegister "small.jpg"; EvRegister "wide.jpg";
   EvBorrow; EvReturn 0; EvBorrow; EvReturn 1;
   EvPrefetchBegin; EvPrefetchItem;
   EvBorrow; EvReturn 0; EvBorrow; EvReturn 1;
   EvPrefetchItem].

Definition raceStart : Machine Scenario.Script :=
  cycleStart (batch (Scenario.loaded ([], []))) ([], []).

Definition raced : Machine Scenario.Script :=
  default raceStart (run (Scenario.env false) raceStart raceEvents).

Definition racedEnd : Machine Scenario.Script :=
  default raceStart (run (Scenario.env false) raced [EvPrefetchEnd]).

(** The machine after one registration and one borrow. *)
Definition lentOne : Machine Scenario.Script :=
  default raceStart
    (run (Scenario.env false) raceStart [EvRegister "small.jpg"; EvBorrow]).

End Examples.
(* ================================================================== *)
(** ** Properties *)
(* ================================================================== *)

(** *** The transform plan *)

Section PlanFacts.
Context {R : Type} (env : Env R).

Lemma planItem_geometry (cfg : Config) (sh : ImageShape) bs0 (r : R) :
  let p := fst (planItem env cfg sh bs0 r) in
  outputHeight p = size_t_of_int <$> fst (outputSize cfg sh)
  ∧ outputWidth p = size_t_of_int <$> snd (outputSize cfg sh)
  ∧ outputNumChannels p =
      match packingMethod cfg with
      | individualArrays => depth sh
      | singleArray => 3
      end.
Proof. repeat split. Qed.

Lemma prefetchItem_cpuArray (cfg : Config) (it : Item.t) (r : R) :
  packingMethod cfg = individualArrays →
  Item.cpuArray (fst (prefetchItem env cfg it r)) =
    olift2 (fun oh ow => allocate oh ow (depth (Item.shape it)) 1)
           (size_t_of_int <$> fst (outputSize cfg (Item.shape it)))
           (size_t_of_int <$> snd (outputSize cfg (Item.shape it))).
Proof.
  intros Hp. unfold prefetchItem, gbind, gret. cbn [fst snd].
  rewrite Hp. cbn [set_state set_arrays Item.cpuArray set_plan].
  destruct (planItem_geometry cfg (Item.shape it)
              (match Item.plan it with
               | Some p => brightnessShift p
               | None => [None; None; None]
               end) r) as (Hh & Hw & Hc).
  cbv zeta in Hh, Hw, Hc. rewrite Hh, Hw, Hc, Hp. reflexivity.
Qed.

End PlanFacts.

(** C4. For an input of height 64, width 48 and 3 channels, resized to
    shortest side 32 into individual arrays, the scale applied is
    max(32/64, 32/48) = 2/3 and the array allocated for the item has shape
    (43, 32, 3, 1): height 43, width 32. The result depends neither on the
    state of the generators nor on what the item held before, so a repeated
    call yields the same shape. *)
Theorem C4_shortest_side_shape {R : Type} (env : Env R) (cfg : Config)
    (it : Item.t) (r : R) :
  resizeMethod cfg = resizeShortestSide →
  resizeHeight cfg = 32 →
  packingMethod cfg = individualArrays →
  Item.shape it = {| height := 64; width := 48; depth := 3 |} →
  shortestSideScale cfg (Item.shape it) = std_max (32 / 64)%float (32 / 48)%float
  ∧ shortestSideScale cfg (Item.shape it) = (2 / 3)%float
  ∧ tshape <$> Item.cpuArray (fst (prefetchItem env cfg it r))
    = Some {| t_height := 43; t_width := 32; t_depth := 3; t_size := 1 |}
  ∧ outputHeight <$> Item.plan (fst (prefetchItem env cfg it r)) = Some (Some 43)
  ∧ outputWidth <$> Item.plan (fst (prefetchItem env cfg it r)) = Some (Some 32).
Proof.
  intros Hm Hs Hp Hsh.
  assert (Hscale : shortestSideScale cfg (Item.shape it) = (2 / 3)%float).
  { unfold shortestSideScale. rewrite Hs, Hsh. vm_compute. reflexivity. }
  assert (Hsize : outputSize cfg (Item.shape it) = (Some 43, Some 32)).
  { unfold outputSize. rewrite Hm, Hscale, Hsh. vm_compute. reflexivity. }
  split; [rewrite Hscale; vm_compute; reflexivity|].
  split; [exact Hscale|].
  split.
  - rewrite prefetchItem_cpuArray by exact Hp.
    rewrite Hsize, Hsh. vm_compute. reflexivity.
  - destruct (planItem_geometry env cfg (Item.shape it)
                (match Item.plan it with
                 | Some p => brightnessShift p
                 | None => [None; None; None]
                 end) r) as (Hh & Hw & _).
    cbv zeta in Hh, Hw. rewrite Hsize in Hh, Hw.
    unfold prefetchItem, gbind, gret. cbn [fst snd].
    destruct (packingMethod cfg);
      cbn [set_state set_arrays set_plan Item.plan fmap option_fmap option_map];
      rewrite Hh, Hw; split; reflexivity.
Qed.

Lemma C4_shortest_side_shape_witness :
  tshape <$> Item.cpuArray
    (fst (prefetchItem (Scenario.env false) Scenario.cfgS1 Scenario.itemA ([], [])))
  = Some {| t_height := 43; t_width := 32; t_depth := 3; t_size := 1 |}.
Proof.
  apply (C4_shortest_side_shape (Scenario.env false) Scenario.cfgS1 Scenario.itemA ([], []));
    reflexivity.
Defined.

(** C9. For an item with three output channels, the plan sets
    [brightnessShift[i]] to the sum over [j] of [B[i + 3j] * w[i]] for each
    [i], where [w] holds three successive draws of [vl::randn()] made after
    the geometry of the plan: the weight has index [i] in every term. *)
Theorem C9_brightness_shift {R : Type} (env : Env R) (cfg : Config)
    (sh : ImageShape) (bs0 : list (option double)) (r : R) :
  outputNumChannels (fst (planItem env cfg sh bs0 r)) = 3 →
  length (brightnessDeviation cfg) = 9%nat →
  length bs0 = 3%nat →
  let w := threeNormals env (snd (planGeometry env cfg sh bs0 r)) in
  brightnessShift (fst (planItem env cfg sh bs0 r))
  = [ brightness_spec (brightnessDeviation cfg) w 0;
      brightness_spec (brightnessDeviation cfg) w 1;
      brightness_spec (brightnessDeviation cfg) w 2 ].
Proof.
  intros Hc HB Hbs w.
  destruct (planItem_geometry env cfg sh bs0 r) as (_ & _ & Hk).
  cbv zeta in Hk. rewrite Hk in Hc. clear Hk.
  unfold planItem, gbind, gret. cbn [fst snd].
  change (outputNumChannels (planGeometry env cfg sh bs0 r).1)
    with (match packingMethod cfg with
          | individualArrays => depth sh
          | singleArray => 3
          end).
  rewrite Hc.
  change (int_of_size_t 3) with 3.
  cbn [with_brightness brightnessShift].
  subst w. unfold threeNormals.
  set (r' := (planGeometry env cfg sh bs0 r).2).
  destruct (brightnessDeviation cfg) as [|b0 [|b1 [|b2 [|b3 [|b4 [|b5 [|b6 [|b7 [|b8 [|? ?]]]]]]]]]];
    try discriminate HB.
  destruct bs0 as [|x0 [|x1 [|x2 [|? ?]]]]; try discriminate Hbs.
  reflexivity.
Qed.

Lemma C9_brightness_shift_witness :
  brightnessShift
    (fst (planItem (Scenario.env false) Scenario.cfgBrightness Scenario.shapeA
            [None; None; None] Scenario.scriptZero))
  = [Some 12%float; Some 30%float; Some 54%float].
Proof.
  rewrite (C9_brightness_shift (Scenario.env false) Scenario.cfgBrightness
             Scenario.shapeA [None; None; None] Scenario.scriptZero
             eq_refl eq_refl eq_refl).
  vm_compute. reflexivity.
Defined.

(** On the same input the matrix-vector product would give another first
    entry: 1*1 + 4*2 + 7*3 = 30, where the loop yields (1+4+7)*1 = 12. *)
Lemma brightness_is_not_matvec :
  brightness_matvec (brightnessDeviation Scenario.cfgBrightness)
    (threeNormals (Scenario.env false) Scenario.scriptZero) 0
  = Some 30%float
  ∧ brightness_spec (brightnessDeviation Scenario.cfgBrightness)
      (threeNormals (Scenario.env false) Scenario.scriptZero) 0
    = Some 12%float.
Proof. split; vm_compute; reflexivity. Qed.

(** *** The option parser against the setters *)

(** C10. The parser accepts the crop anisotropy pair (2, 3), since it only
    requires 0 <= min <= max, and the second assertion of
    [Batch::setCropAnisotropy] (min <= 1) fails on it: with assertions
    compiled in, the call aborts in the setter. *)
Theorem C10_parser_accepts_what_setter_rejects :
  (∃ a, parseOption (initialArgs 0) opt_crop_anisotropy (Scenario.row [2; 3]%float) = Go a
        ∧ minCropAnisotropy (a_config a) = 2%float
        ∧ maxCropAnisotropy (a_config a) = 3%float)
  ∧ setCropAnisotropy_asserts 2%float 3%float = false
  ∧ (∀ b, setCropAnisotropy (Scenario.env false) b 2%float 3%float = None)
  ∧ outcome (mexFunction (Scenario.env false) (Scenario.loaded ([], []))
               (Scenario.names ["small.jpg"%string])
               [(opt_crop_anisotropy, Scenario.row [2; 3]%float)])
    = Stop Aborted.
Proof.
  split; [eexists; split; [vm_compute; reflexivity | split; reflexivity]|].
  split; [vm_compute; reflexivity|].
  split; [intros b; vm_compute; reflexivity|].
  vm_compute. reflexivity.
Qed.

(** *** Crop placement *)

(** Once the slack [d] of an axis is a defined non-negative [int], both
    placements keep the offset within [0, d]. *)
Lemma centerOffset_bounds (d x : Z) :
  0 <= d → centerOffset (Some d) = Some x → 0 <= x <= d.
Proof.
  unfold centerOffset, int_add, int_div. cbn [mbind option_bind].
  intros Hd. destruct (in_int (d + 1)); [|discriminate].
  cbn [mbind option_bind]. change (2 =? 0) with false. cbv iota.
  destruct (in_int _); [|discriminate].
  intros [= <-]. rewrite Z.quot_div_nonneg by lia.
  Z.div_mod_to_equations. lia.
Qed.

Lemma randomOffset_bounds {R : Type} (env : Env R) (r : R) (d x : Z) :
  0 <= d → 0 <= fst (rand env r) →
  fst (randomOffset env (Some d) r) = Some x → 0 <= x <= d.
Proof.
  unfold randomOffset, gbind, gret, int_add, int_rem. cbn [fst snd mbind option_bind].
  intros Hd Hr. destruct (in_int (d + 1)); [|discriminate].
  cbn [mbind option_bind].
  destruct (d + 1 =? 0) eqn:E; [discriminate|].
  destruct (in_int _); [|discriminate].
  intros [= <-]. rewrite Z.rem_mod_nonneg by lia.
  pose proof (Z.mod_pos_bound (fst (rand env r)) (d + 1)). lia.
Qed.

(** C6. With the crop anisotropy range [0, 1], which the parser accepts and
    the assertions of the setter allow, a first [rand()] equal to 0 samples
    the anisotropy 0: the crop height becomes [outputHeight / 0] scaled by
    0, a NaN, and its conversions to [size_t] and [int] (lines 629 and 650)
    are undefined. No crop rectangle inside the 48x64 input comes out. *)
Theorem C6_zero_anisotropy_crop_undefined :
  (∃ a, parseOption (initialArgs 0) opt_crop_anisotropy (Scenario.row [0; 1]%float) = Go a
        ∧ a_config a = Scenario.cfgAnisotropy01)
  ∧ setCropAnisotropy_asserts 0%float 1%float = true
  ∧ fst (anisotropyRatio (Scenario.env false) Scenario.cfgAnisotropy01 Scenario.shapeA
           (Some 64) (Some 48) Scenario.scriptZero) = Some 0%float
  ∧ (let p := fst (planItem (Scenario.env false) Scenario.cfgAnisotropy01
                     Scenario.shapeA [None; None; None] Scenario.scriptZero) in
     cropHeight p = None ∧ cropOffsetY p = None
     ∧ cropWidth p = Some 0 ∧ cropOffsetX p = Some 24).
Proof.
  split; [eexists; split; vm_compute; reflexivity|].
  split; [vm_compute; reflexivity|].
  split; [vm_compute; reflexivity|].
  vm_compute. repeat split; reflexivity.
Qed.

(** *** Colour post-processing *)

(** C5. For a grayscale input ([shape.depth] = 1) the loop of line 832
    writes [dv[0]] only: [dv[1]] and [dv[2]] are read by the broadcast
    branch without ever having been written, whereas the formula gives them
    defined values. On the 2x2 grayscale file packed into (2, 2, 3, 1) every
    output float is therefore indeterminate. *)
Theorem C5_gray_broadcast_shifts_unwritten :
  (∀ average p n buf,
     colorShifts average p 1 n buf = [dv_spec average p n buf 0; None; None])
  ∧ (∃ p, Item.plan <$> items (batch (world
             (mexFunction (Scenario.env false) (Scenario.loaded ([], []))
                (Scenario.names ["gray.jpg"%string])
                [(opt_pack, mxOther); (opt_resize, Scenario.row [2; 2]%float);
                 (opt_prefetch, mxOther)]))) = [Some p]
          ∧ outputNumChannels p = 3
          ∧ is_Some (dv_spec [0; 0; 0]%float p 4 (replicate 12 (Some 1%float)) 1)
          ∧ is_Some (dv_spec [0; 0; 0]%float p 4 (replicate 12 (Some 1%float)) 2))
  ∧ outcome (mexFunction (Scenario.env false) (Scenario.loaded ([], []))
               (Scenario.names ["gray.jpg"%string])
               [(opt_pack, mxOther); (opt_resize, Scenario.row [2; 2]%float)])
    = Go (Some [Some {| tshape := {| t_height := 2; t_width := 2;
                                    t_depth := 3; t_size := 1 |};
                        tdata := replicate 12 None |}]).
Proof.
  split; [intros; reflexivity|].
  split.
  - eexists. split; [vm_compute; reflexivity|].
    split; [reflexivity|]. split; vm_compute; eexists; reflexivity.
  - vm_compute. reflexivity.
Qed.

(** *** The worker pool *)

(** [createReaders] only ever appends to the vector of readers. *)
Lemma createReaders_length (q : bool) (rs : list Z) (rd : list ReaderTask) :
  (length rd <= length (fst (createReaders q rs rd)))%nat
  ∧ (rs ≠ [] → (length rd < length (fst (createReaders q rs rd)))%nat).
Proof.
  revert rd. induction rs as [|r rs IH]; intros rd; cbn [createReaders].
  - split; [cbn; lia | congruence].
  - set (pushed := rd ++ _).
    assert (Hp : length pushed = S (length rd)).
    { subst pushed. rewrite length_app. cbn. lia. }
    destruct (pushed !! Z.to_nat r) as [rt|]; [|cbn [fst]; lia].
    destruct (ReaderTask_init q rt r) as [rt'|h]; [|cbn [fst]; lia].
    destruct (IH (<[Z.to_nat r := rt']> pushed)) as [IH1 _].
    rewrite length_insert in IH1. lia.
Qed.

(** C3. From a pool of 4 workers, a call asking for 2 neither shrinks nor
    rebuilds the pool: the loop of line 1178 pushes a fifth task and then
    re-initialises task 0, whose [finalize] joins a thread that only ends
    when the batch quits. The call never returns and the pool holds 5
    tasks, not 2. *)
Theorem C3_pool_not_rebuilt :
  let r1 := mexFunction (Scenario.env false) (Scenario.loaded ([], []))
              (Scenario.names []) [(opt_num_threads, Scenario.row [4]%float)] in
  let r2 := mexFunction (Scenario.env false) (world r1)
              (Scenario.names []) [(opt_num_threads, Scenario.row [2]%float)] in
  outcome r1 = Go (Some [])
  ∧ length (readers (world r1)) = 4%nat
  ∧ outcome r2 = Stop Blocked
  ∧ length (readers (world r2)) = 5%nat.
Proof. vm_compute. repeat split; reflexivity. Qed.

(** *** Item states along interleaved executions *)

Section StateFacts.
Context {R : Type} (env : Env R).

Lemma entryPointItem_index (cfg : Config) (pack : option Tensor) (it : Item.t) :
  Item.index (fst (fst (entryPointItem env cfg pack it))) = Item.index it
  ∧ Item.name (fst (fst (entryPointItem env cfg pack it))) = Item.name it.
Proof.
  unfold entryPointItem. destruct (negb _); cbn [fst snd]; [split; reflexivity|].
  unfold entryPointWork. destruct (Item.state it); cbn [fst snd]; try (split; reflexivity).
  unfold fetchWork.
  destruct (negb _); cbn [fst snd]; [split; reflexivity|].
  destruct (Item.plan it); cbn [fst snd]; [|split; reflexivity].
  destruct (packingMethod cfg); cbn [fst snd]; [|split; reflexivity].
  destruct (gpuMode cfg); cbn [fst snd]; [|split; reflexivity].
  destruct (cudaMemcpyAsync env _); split; reflexivity.
Qed.

Lemma returnItem_items (b : Batch) (it : Item.t) :
  0 <= Item.index it →
  ∃ it', items (returnItem env b it) = <[Z.to_nat (Item.index it) := it']> (items b)
         ∧ Item.state it' = Item.ready ∧ Item.index it' = Item.index it
         ∧ Item.borrowed it' = false ∧ Item.name it' = Item.name it.
Proof.
  intros Hi. unfold returnItem.
  match goal with
  | |- context [putItem b _ ?x] => exists x
  end.
  split.
  - cbn [items set_packs set_counters]. unfold putItem.
    rewrite (proj2 (Z.ltb_ge _ _)) by (cbn; lia).
    cbn [items set_items]. f_equal.
    all: try (destruct (_ && negb _); reflexivity).
  - destruct (_ && negb _); repeat split; reflexivity.
Qed.

Lemma prefetchItem_state (cfg : Config) (it : Item.t) (r : R) :
  Item.state (fst (prefetchItem env cfg it r)) = Item.fetch
  ∧ Item.index (fst (prefetchItem env cfg it r)) = Item.index it
  ∧ Item.name (fst (prefetchItem env cfg it r)) = Item.name it
  ∧ Item.error (fst (prefetchItem env cfg it r)) = Item.error it
  ∧ Item.shape (fst (prefetchItem env cfg it r)) = Item.shape it.
Proof.
  unfold prefetchItem, gbind, gret. cbn [fst snd].
  destruct (packingMethod cfg); repeat split; reflexivity.
Qed.

Lemma allocatePack_frame (b b' : Batch) :
  allocatePack env b = Some b' →
  items b' = items b ∧ quit b' = quit b ∧ config b' = config b
  ∧ nextItem b' = nextItem b
  ∧ (packingMethod (config b) = individualArrays → b' = b).
Proof.
  unfold allocatePack. destruct (packingMethod (config b)).
  - intros [= <-]. repeat split.
  - destruct (c_assert env _); [|discriminate]. cbn [mbind option_bind].
    intros [= <-]. repeat split. discriminate.
Qed.

Lemma all_ready_spec (b : Batch) (j : nat) it :
  all_ready b = true → items b !! j = Some it → Item.state it = Item.ready.
Proof.
  unfold all_ready. rewrite forallb_forall. intros H Hj.
  specialize (H it (proj1 (list_elem_of_In _ _) (list_elem_of_lookup_2 _ _ _ Hj))).
  destruct (Item.state it); try discriminate; reflexivity.
Qed.

Lemma step_inv (m m' : Machine R) (e : Event) :
  cycle_inv m → step env m e = Some m' →
  cycle_inv m'
  ∧ ∀ (i : nat) it it', items (m_batch m) !! i = Some it →
      items (m_batch m') !! i = Some it' →
      allowed_change e i (Item.state it) (Item.state it').
Proof.
  intros [Hidx Hloop] Hs. unfold step in Hs.
  destruct e as [nm| |ix| | |].
  - (* registerItem *)
    destruct (m_loop m) eqn:El; [discriminate|]. injection Hs as <-.
    cbn [m_batch m_loop]. split; [split; [|exact I]|].
    + intros j it. unfold registerItem. cbn [items set_items].
      intros Hj. apply lookup_app_Some in Hj as [Hj|[Hlen Hj]]; [eauto|].
      apply list_lookup_singleton_Some in Hj as [Hz <-]. cbn [Item.index freshItem].
      unfold sizeZ. lia.
    + intros i it it' Hi Hi'. left.
      unfold registerItem in Hi'. cbn [items set_items] in Hi'.
      rewrite lookup_app_l in Hi' by (eapply lookup_lt_Some; eauto). congruence.
  - (* borrowNextItem *)
    unfold borrowNextItem in Hs.
    destruct (quit (m_batch m)); [destruct (m_loop m); discriminate|].
    destruct (_ && _) eqn:Eb; [|destruct (m_loop m); discriminate].
    apply andb_true_iff in Eb as [E0 E1]. apply Z.leb_le in E0.
    unfold getItem, putItem in Hs. rewrite (proj2 (Z.ltb_ge _ _)) in Hs by lia.
    destruct (items (m_batch m) !! Z.to_nat (nextItem (m_batch m))) as [it0|] eqn:E;
      [|destruct (m_loop m); discriminate].
    assert (Hm' : m' = {| m_batch := set_counters
                             (set_items (m_batch m)
                                (<[Z.to_nat (nextItem (m_batch m)) := set_borrowed it0 true]>
                                   (items (m_batch m))))
                             (nextItem (m_batch m) + 1) (numReturnedItems (m_batch m));
                          m_rng := m_rng m; m_loop := m_loop m |}).
    { destruct (m_loop m); congruence. }
    subst m'. cbn [m_batch m_loop items set_counters set_items].
    assert (Hst : ∀ (j : nat) it,
               <[Z.to_nat (nextItem (m_batch m)) := set_borrowed it0 true]>
                 (items (m_batch m)) !! j = Some it →
               ∃ it1, items (m_batch m) !! j = Some it1
                      ∧ Item.state it = Item.state it1 ∧ Item.index it = Item.index it1).
    { intros j it Hj.
      destruct (decide (Z.to_nat (nextItem (m_batch m)) = j)) as [<-|Hne].
      - rewrite list_lookup_insert_eq in Hj by (eapply lookup_lt_Some; eauto).
        injection Hj as <-. exists it0. auto.
      - rewrite list_lookup_insert_ne in Hj by exact Hne. eauto. }
    split; [split|].
    + intros j it Hj. destruct (Hst j it Hj) as (it1 & H1 & _ & ->). eauto.
    + destruct (m_loop m); [|exact I].
      intros j it Hk Hj. destruct (Hst j it Hj) as (it1 & H1 & -> & _). eauto.
    + intros i it it' Hi Hi'. left.
      destruct (Hst i it' Hi') as (it1 & H1 & -> & _). congruence.
  - (* work and returnItem *)
    unfold getItem in Hs.
    destruct (ix <? 0) eqn:Eix; [destruct (m_loop m); discriminate|].
    apply Z.ltb_ge in Eix.
    destruct (items (m_batch m) !! Z.to_nat ix) as [it0|] eqn:E;
      [|destruct (m_loop m); discriminate].
    destruct (Item.borrowed it0); [|destruct (m_loop m); discriminate].
    set (w := entryPointItem env (config (m_batch m)) (cpuPack (m_batch m)) it0) in Hs.
    assert (Hm' : m' = {| m_batch := returnItem env
                                       (set_packs (m_batch m) (snd (fst w))
                                          (gpuPack (m_batch m)))
                                       (fst (fst w));
                          m_rng := m_rng m; m_loop := m_loop m |}).
    { destruct (m_loop m); congruence. }
    clear Hs. subst m'.
    assert (Hwx : Item.index (fst (fst w)) = ix).
    { pose proof (Hidx _ _ E) as Hi0. subst w.
      rewrite (proj1 (entryPointItem_index _ _ _)). lia. }
    destruct (returnItem_items (set_packs (m_batch m) (snd (fst w)) (gpuPack (m_batch m)))
                (fst (fst w))) as (it1 & Hr & Hr1 & Hr2 & _); [lia|].
    cbn [items set_packs] in Hr. rewrite Hwx in Hr. unfold cycle_inv. cbn [m_batch m_loop]. rewrite Hr.
    assert (Hst : ∀ (j : nat) it,
               <[Z.to_nat ix := it1]> (items (m_batch m)) !! j = Some it →
               (j = Z.to_nat ix ∧ it = it1)
               ∨ (j ≠ Z.to_nat ix ∧ items (m_batch m) !! j = Some it)).
    { intros j it Hj. destruct (decide (Z.to_nat ix = j)) as [<-|Hne].
      - rewrite list_lookup_insert_eq in Hj by (eapply lookup_lt_Some; eauto).
        left. split; congruence.
      - rewrite list_lookup_insert_ne in Hj by exact Hne. right. split; congruence. }
    split; [split|].
    + intros j it Hj. destruct (Hst j it Hj) as [[Ej Ei]|[_ Hj']]; [|eauto].
      rewrite Ej, Ei, Hr2, Hwx. lia.
    + destruct (m_loop m); [|exact I].
      intros j it Hk Hj. destruct (Hst j it Hj) as [[Ej Ei]|[_ Hj']]; [|eauto].
      rewrite Ei. exact Hr1.
    + intros i it it' Hi Hi'.
      destruct (Hst i it' Hi') as [[Ej Ei]|[_ Hj']].
      * right. left. rewrite Ej, Ei. split; [f_equal; lia|exact Hr1].
      * left. congruence.
  - (* prefetch: sync has returned *)
    destruct (m_loop m) eqn:El; [discriminate|].
    destruct (all_ready (m_batch m)) eqn:Ea; [|discriminate].
    destruct (allocatePack env (m_batch m)) as [b1|] eqn:Eal; [|discriminate].
    injection Hs as <-. apply allocatePack_frame in Eal as (Hit & _).
    unfold cycle_inv. cbn [m_batch m_loop items set_counters]. rewrite Hit.
    split; [split|].
    + exact Hidx.
    + intros j it _ Hj. eapply all_ready_spec; eauto.
    + intros i it it' Hi Hi'. left. congruence.
  - (* prefetch: one item *)
    destruct (m_loop m) as [k|] eqn:El; [|discriminate].
    destruct (items (m_batch m) !! k) as [it0|] eqn:E; [|discriminate].
    injection Hs as <-. unfold cycle_inv. cbn [m_batch m_loop items set_items].
    destruct (prefetchItem_state (config (m_batch m)) it0 (m_rng m))
      as (Hp1 & Hp2 & _).
    assert (Hst : ∀ (j : nat) it,
               <[k := fst (prefetchItem env (config (m_batch m)) it0 (m_rng m))]>
                 (items (m_batch m)) !! j = Some it →
               (j = k ∧ it = fst (prefetchItem env (config (m_batch m)) it0 (m_rng m)))
               ∨ (j ≠ k ∧ items (m_batch m) !! j = Some it)).
    { intros j it Hj. destruct (decide (k = j)) as [<-|Hne].
      - rewrite list_lookup_insert_eq in Hj by (eapply lookup_lt_Some; eauto).
        left. split; congruence.
      - rewrite list_lookup_insert_ne in Hj by exact Hne. right. split; congruence. }
    split; [split|].
    + intros j it Hj. destruct (Hst j it Hj) as [[Ej Ei]|[_ Hj']]; [|eauto].
      rewrite Ej, Ei, Hp2. eauto.
    + intros j it Hk Hj. destruct (Hst j it Hj) as [[Ej Ei]|[_ Hj']]; [lia|].
      eapply Hloop; [|exact Hj']. lia.
    + intros i it it' Hi Hi'.
      destruct (Hst i it' Hi') as [[Ej Ei]|[_ Hj']].
      * right. right. rewrite Ei. split; [reflexivity|]. split; [|exact Hp1].
        eapply Hloop; [|exact Hi]. lia.
      * left. congruence.
  - (* prefetch: the loop ends *)
    destruct (m_loop m) as [k|] eqn:El; [|discriminate].
    destruct (_ <=? _)%nat; [|discriminate].
    injection Hs as <-. cbn [m_batch m_loop]. split; [split; [exact Hidx|exact I]|].
    intros i it it' Hi Hi'. left. congruence.
Qed.

Lemma run_inv (es : list Event) (m0 m : Machine R) :
  cycle_inv m0 → run env m0 es = Some m → cycle_inv m.
Proof.
  revert m0. induction es as [|e es IH]; intros m0 H0; cbn [run].
  - intros [= <-]. exact H0.
  - destruct (step env m0 e) as [m1|] eqn:E; [|discriminate].
    apply IH. exact (proj1 (step_inv _ _ _ H0 E)).
Qed.

Lemma cycleStart_inv (b : Batch) (r : R) : cycle_inv (cycleStart b r).
Proof.
  split; [|exact I]. intros j it. cbn. rewrite lookup_nil. discriminate.
Qed.

End StateFacts.

(** A concrete execution: one item is registered (probe), borrowed and
    returned, which makes it [ready]; [Batch::prefetch] then finds every
    item [ready] and its loop moves the item back to [fetch]. *)
Lemma prefetch_moves_ready_to_fetch :
  ∃ m m' it it',
    run (Scenario.env false)
      (cycleStart (batch (Scenario.loaded ([], []))) ([], []))
      [EvRegister "small.jpg"; EvBorrow; EvReturn 0; EvPrefetchBegin] = Some m
    ∧ step (Scenario.env false) m EvPrefetchItem = Some m'
    ∧ items (m_batch m) !! 0%nat = Some it
    ∧ items (m_batch m') !! 0%nat = Some it'
    ∧ Item.state it = Item.ready
    ∧ Item.state it' = Item.fetch.
Proof.
  do 4 eexists.
  split; [lazy; reflexivity|].
  split; [lazy; reflexivity|].
  split; [lazy; reflexivity|].
  split; [lazy; reflexivity|].
  split; reflexivity.
Qed.

(** C2, as stated, fails: in the execution above the state of the item goes
    from [ready] to [fetch], of lower rank. *)
Lemma C2_counterexample :
  ¬ never_regresses (Scenario.env false)
      (cycleStart (batch (Scenario.loaded ([], []))) ([], [])).
Proof.
  intros H.
  destruct prefetch_moves_ready_to_fetch
    as (m & m' & it & it' & E1 & E2 & E3 & E4 & E5 & E6).
  pose proof (H _ _ _ _ _ _ _ E1 E2 E3 E4) as Hle.
  rewrite E5, E6 in Hle. apply Hle. reflexivity.
Qed.

(** C2, amended. Along every execution of [registerItem], [borrowNextItem],
    [returnItem] and [prefetch] from the start of a cycle, a step changes
    the state of an item in two ways only: the return of that item makes it
    [ready], whatever it was, and the loop of [Batch::prefetch] moves it
    from [ready] to [fetch]. Hence an item runs through probe, ready,
    fetch, ready, and never comes back to probe. *)
Theorem C2_state_changes {R : Type} (env : Env R) (b : Batch) (r : R)
    (es : list Event) (e : Event) (m m' : Machine R) (i : nat) (it it' : Item.t) :
  run env (cycleStart b r) es = Some m →
  step env m e = Some m' →
  items (m_batch m) !! i = Some it →
  items (m_batch m') !! i = Some it' →
  allowed_change e i (Item.state it) (Item.state it')
  ∧ (Item.state it' = Item.prefetch → Item.state it = Item.prefetch).
Proof.
  intros Hrun Hstep Hi Hi'.
  pose proof (run_inv env es _ _ (cycleStart_inv b r) Hrun) as Hinv.
  destruct (step_inv env m m' e Hinv Hstep) as [_ Hch].
  specialize (Hch i it it' Hi Hi'). split; [exact Hch|].
  destruct Hch as [->|[[_ ->]|(_ & _ & ->)]]; [tauto|discriminate|discriminate].
Qed.

Lemma C2_state_changes_witness :
  allowed_change EvPrefetchItem 0 Item.ready Item.fetch.
Proof.
  destruct prefetch_moves_ready_to_fetch
    as (m & m' & it & it' & E1 & E2 & E3 & E4 & E5 & E6).
  rewrite <- E5, <- E6.
  exact (proj1 (C2_state_changes (Scenario.env false) _ _ _ _ _ _ _ _ _ E1 E2 E3 E4)).
Defined.

(** *** The dispatcher: matching the names *)

Lemma getItem_name (b : Batch) (i : Z) (fn : string) :
  0 <= i →
  ((i <? sizeZ (items b))
   && match getItem b i with
      | Some it => String.eqb (Item.name it) fn
      | None => false
      end) = true
  ↔ itemNames b !! Z.to_nat i = Some fn.
Proof.
  intros Hi. unfold getItem, itemNames. rewrite (proj2 (Z.ltb_ge i 0)) by lia.
  rewrite list_lookup_fmap.
  destruct (items b !! Z.to_nat i) as [it|] eqn:E; cbn.
  - rewrite andb_true_iff, Z.ltb_lt, String.eqb_eq. split.
    + intros [_ ->]. reflexivity.
    + intros [= <-]. split; [|reflexivity].
      apply lookup_lt_Some in E. unfold sizeZ. lia.
  - rewrite andb_false_r. split; discriminate.
Qed.

(** The loop yields the names of the cells, and [sameAsPrefeteched] holds
    iff each of them is the name registered at its index. *)
Lemma extractFilenames_spec (b : Batch) (cells : list mxArray) (i : Z)
    (acc : list string) (same : bool) (fns : list string) (s : bool) :
  0 <= i →
  extractFilenames b cells i acc same = Go (fns, s) →
  fns = acc ++ (mxGetString512 <$> cells)
  ∧ (s = true ↔
     same = true
     ∧ ∀ (k : nat) fn, (mxGetString512 <$> cells) !! k = Some fn →
                       itemNames b !! (Z.to_nat i + k)%nat = Some fn).
Proof.
  revert i acc same. induction cells as [|c cells IH]; intros i acc same Hi; cbn [extractFilenames].
  - intros [= <- <-]. split; [rewrite app_nil_r; reflexivity|].
    split; [intros ->; split; [reflexivity|intros k fn; cbn; rewrite lookup_nil; discriminate]|tauto].
  - destruct (negb (vlmxIsString c (-1))); [discriminate|].
    intros H. apply IH in H as [-> Hs]; [|lia]. split.
    + rewrite <- app_assoc. reflexivity.
    + rewrite Hs, andb_true_iff, getItem_name by lia. clear Hs. split.
      * intros [[-> H0] Hk]. split; [reflexivity|].
        intros [|k] fn; cbn.
        -- intros [= <-]. rewrite Nat.add_0_r. exact H0.
        -- intros Hfn. specialize (Hk k fn Hfn).
           rewrite Z2Nat.inj_add in Hk by lia. change (Z.to_nat 1) with 1%nat in Hk.
           replace (Z.to_nat i + S k)%nat with (Z.to_nat i + 1 + k)%nat by lia.
           exact Hk.
      * intros [-> Hk]. split; [split; [reflexivity|]|].
        -- specialize (Hk 0%nat (mxGetString512 c) eq_refl).
           rewrite Nat.add_0_r in Hk. exact Hk.
        -- intros k fn Hfn. specialize (Hk (S k) fn Hfn).
           rewrite Z2Nat.inj_add by lia. change (Z.to_nat 1) with 1%nat.
           replace (Z.to_nat i + 1 + k)%nat with (Z.to_nat i + S k)%nat by lia.
           exact Hk.
Qed.

Lemma lookup_agree_prefix {A} (l1 l2 : list A) :
  (∀ (k : nat) x, l1 !! k = Some x → l2 !! k = Some x) → l1 `prefix_of` l2.
Proof.
  revert l2. induction l1 as [|a l1 IH]; intros l2 H.
  - apply prefix_nil.
  - destruct l2 as [|a' l2].
    + specialize (H 0%nat a eq_refl). discriminate.
    + pose proof (H 0%nat a eq_refl) as H0. injection H0 as ->.
      apply prefix_cons. apply IH. intros k x Hk. exact (H (S k) x Hk).
Qed.

Lemma extractFilenames_same (b : Batch) (cells : list mxArray)
    (fns : list string) (s : bool) :
  extractFilenames b cells 0 [] true = Go (fns, s) →
  fns = mxGetString512 <$> cells
  ∧ (s = true ↔ fns `prefix_of` itemNames b).
Proof.
  intros H. apply extractFilenames_spec in H as [-> Hs]; [|lia].
  cbn [app]. split; [reflexivity|]. rewrite Hs. split.
  - intros [_ Hk]. apply lookup_agree_prefix. exact Hk.
  - intros Hp. split; [reflexivity|].
    intros k fn Hk. cbn. eapply prefix_lookup_Some; eauto.
Qed.

(** *** The workers on the queue *)

Section QueueFacts.
Context {R : Type} (env : Env R).

Lemma registerItems_items (fns : list string) (b : Batch) :
  items (fold_left (registerItem env) fns b)
  = items b ++ imap (fun k nm => freshItem env (sizeZ (items b) + Z.of_nat k) nm) fns
  ∧ quit (fold_left (registerItem env) fns b) = quit b
  ∧ nextItem (fold_left (registerItem env) fns b) = nextItem b
  ∧ config (fold_left (registerItem env) fns b) = config b
  ∧ cpuPack (fold_left (registerItem env) fns b) = cpuPack b
  ∧ gpuPack (fold_left (registerItem env) fns b) = gpuPack b.
Proof.
  revert b. induction fns as [|nm fns IH]; intros b; cbn [fold_left].
  - cbn. rewrite app_nil_r. repeat split.
  - destruct (IH (registerItem env b nm)) as (H1 & H2 & H3 & H4 & H5 & H6).
    rewrite H1, H2, H3, H4, H5, H6. repeat split.
    unfold registerItem. cbn [items set_items]. rewrite <- app_assoc. f_equal.
    cbn [app imap]. f_equal; [f_equal; lia|].
    apply imap_ext. intros k nm' _. cbn. f_equal.
    unfold sizeZ. rewrite length_app. cbn. lia.
Qed.

Lemma imap_fresh_indexed (fns : list string) :
  indexed (imap (fun k nm => freshItem env (Z.of_nat k) nm) fns).
Proof.
  intros j it Hj. rewrite list_lookup_imap in Hj.
  destruct (fns !! j); [|discriminate]. injection Hj as <-. reflexivity.
Qed.

Lemma returned_fields (it : Item.t) :
  Item.state (returned it) = Item.ready
  ∧ Item.index (returned it) = Item.index it
  ∧ Item.name (returned it) = Item.name it
  ∧ Item.error (returned it) = Item.error it
  ∧ Item.errorMessage (returned it) = Item.errorMessage it
  ∧ Item.cpuArray (returned it) = Item.cpuArray it
  ∧ Item.gpuArray (returned it) = Item.gpuArray it
  ∧ Item.shape (returned it) = Item.shape it
  ∧ Item.plan (returned it) = Item.plan it.
Proof. repeat split. Qed.

Lemma turnItem_fields (cfg : Config) (it : Item.t) :
  Item.state (turnItem env cfg it) = Item.ready
  ∧ Item.index (turnItem env cfg it) = Item.index it
  ∧ Item.name (turnItem env cfg it) = Item.name it.
Proof.
  unfold turnItem.
  destruct (entryPointItem_index env cfg None (set_borrowed it true)) as [Hi Hn].
  destruct (returned_fields (fst (fst (entryPointItem env cfg None (set_borrowed it true)))))
    as (H1 & H2 & H3 & _).
  rewrite H1, H2, H3, Hi, Hn. repeat split.
Qed.

(** In individual mode the work on an item neither reads nor writes the
    pack. *)
Lemma entryPointItem_individual (cfg : Config) (pack : option Tensor) (it : Item.t) :
  packingMethod cfg = individualArrays →
  entryPointItem env cfg pack it
  = (fst (fst (entryPointItem env cfg None it)), pack,
     snd (entryPointItem env cfg None it)).
Proof.
  intros Hp. unfold entryPointItem. destruct (negb _); [reflexivity|].
  unfold entryPointWork. destruct (Item.state it); try reflexivity.
  unfold fetchWork. rewrite Hp.
  destruct (negb _); [reflexivity|].
  destruct (Item.plan it); [|reflexivity].
  destruct (gpuMode cfg); reflexivity.
Qed.

Lemma returnItem_frame (b : Batch) (it : Item.t) :
  quit (returnItem env b it) = quit b
  ∧ config (returnItem env b it) = config b
  ∧ nextItem (returnItem env b it) = nextItem b.
Proof.
  unfold returnItem, putItem. destruct (_ <? 0); repeat split.
Qed.

(** What a turn does to the queue, whatever the mode. *)
Lemma entryPointTurn_frame (b b' : Batch) (l : list LogEntry) :
  entryPointTurn env b = Some (b', l) →
  0 <= nextItem b < sizeZ (items b)
  ∧ nextItem b' = nextItem b + 1
  ∧ length (items b') = length (items b)
  ∧ quit b' = quit b ∧ quit b = false
  ∧ config b' = config b
  ∧ (indexed (items b) → indexed (items b') ∧ itemNames b' = itemNames b).
Proof.
  unfold entryPointTurn, borrowNextItem.
  destruct (quit b) eqn:Eq; [discriminate|].
  destruct (_ && _) eqn:Eb; [|discriminate].
  apply andb_true_iff in Eb as [E0 E1]. apply Z.leb_le in E0. apply Z.ltb_lt in E1.
  unfold getItem, putItem. rewrite (proj2 (Z.ltb_ge (nextItem b) 0)) by lia.
  destruct (items b !! Z.to_nat (nextItem b)) as [it|] eqn:E; [|discriminate].
  intros [= <- <-].
  match goal with
  | |- context [returnItem env ?bb ?ii] => set (B := bb); set (I := ii)
  end.
  assert (HB : items B = <[Z.to_nat (nextItem b) := set_borrowed it true]> (items b)
               ∧ quit B = quit b ∧ config B = config b ∧ nextItem B = nextItem b + 1)
    by (repeat split).
  destruct HB as (HB1 & HB2 & HB3 & HB4).
  assert (HI : Item.index I = Item.index it ∧ Item.name I = Item.name it).
  { subst I. apply (entryPointItem_index env _ _ (set_borrowed it true)). }
  destruct HI as [Hwi Hwn].
  destruct (returnItem_frame B I) as (Hf1 & Hf2 & Hf3).
  split; [lia|]. split; [rewrite Hf3; exact HB4|].
  assert (Hlen : length (items (returnItem env B I)) = length (items b)).
  { unfold returnItem. cbn [items set_packs set_counters]. unfold putItem.
    destruct (_ <? 0); cbn [items set_items]; rewrite ?length_insert, HB1, ?length_insert;
      reflexivity. }
  split; [exact Hlen|]. split; [rewrite Hf1, HB2; exact Eq|].
  split; [reflexivity|]. split; [rewrite Hf2; exact HB3|].
  intros Hidx. pose proof (Hidx _ _ E) as Hit.
  destruct (returnItem_items env B I) as (it1 & Hr & Hr1 & Hr2 & _ & Hr4); [lia|].
  assert (Hn : Z.to_nat (Item.index I) = Z.to_nat (nextItem b)) by (rewrite Hwi, Hit; lia).
  rewrite Hn, HB1, list_insert_insert_eq in Hr.
  split.
  - intros j it' Hj. rewrite Hr in Hj.
    destruct (decide (Z.to_nat (nextItem b) = j)) as [<-|Hne].
    + rewrite list_lookup_insert_eq in Hj by (eapply lookup_lt_Some; eauto).
      injection Hj as <-. rewrite Hr2, Hwi. exact Hit.
    + rewrite list_lookup_insert_ne in Hj by exact Hne. eauto.
  - unfold itemNames. rewrite Hr, list_fmap_insert.
    apply list_insert_id. rewrite list_lookup_fmap, E. cbn. f_equal. congruence.
Qed.

Lemma runWorkers_idle_start (fuel : nat) (b : Batch) :
  entryPointTurn env b = None → runWorkers env fuel b = (b, []).
Proof. intros H. destruct fuel; cbn [runWorkers]; [|rewrite H]; reflexivity. Qed.

Lemma runWorkers_frame (fuel : nat) (b : Batch) :
  length (items (fst (runWorkers env fuel b))) = length (items b)
  ∧ quit (fst (runWorkers env fuel b)) = quit b
  ∧ config (fst (runWorkers env fuel b)) = config b
  ∧ (indexed (items b) →
     indexed (items (fst (runWorkers env fuel b)))
     ∧ itemNames (fst (runWorkers env fuel b)) = itemNames b).
Proof.
  revert b. induction fuel as [|fuel IH]; intros b; cbn [runWorkers].
  - cbn [fst]. repeat split; auto.
  - destruct (entryPointTurn env b) as [[b1 l1]|] eqn:E; [|cbn [fst]; repeat split; auto].
    cbn [fst]. apply entryPointTurn_frame in E as (_ & _ & Hl & Hq & _ & Hc & Hx).
    destruct (IH b1) as (I1 & I2 & I3 & I4).
    rewrite I1, I2, I3, Hl, Hq, Hc. repeat split.
    + apply I4, Hx, H.
    + destruct (Hx H) as [Hx1 Hx2]. rewrite (proj2 (I4 Hx1)). exact Hx2.
Qed.

(** With enough fuel the run ends when no worker can borrow. *)
Lemma runWorkers_idle (fuel : nat) (b : Batch) :
  (0 <= nextItem b → sizeZ (items b) - nextItem b <= Z.of_nat fuel) →
  entryPointTurn env (fst (runWorkers env fuel b)) = None.
Proof.
  revert b. induction fuel as [|fuel IH]; intros b Hf; cbn [runWorkers].
  - cbn [fst]. destruct (entryPointTurn env b) as [[b1 l1]|] eqn:E; [|reflexivity].
    apply entryPointTurn_frame in E as (Hn & _). lia.
  - destruct (entryPointTurn env b) as [[b1 l1]|] eqn:E; [|cbn [fst]; exact E].
    cbn [fst]. apply IH.
    apply entryPointTurn_frame in E as (Hn & Hn' & Hl & _).
    unfold sizeZ in *. rewrite Hl, Hn'. lia.
Qed.

Lemma drain_idle (b : Batch) : entryPointTurn env (fst (drain env b)) = None.
Proof. apply runWorkers_idle. unfold sizeZ. lia. Qed.

Lemma drain_twice (b : Batch) : drain env (fst (drain env b)) = (fst (drain env b), []).
Proof. apply runWorkers_idle_start, drain_idle. Qed.

(** A turn in individual mode, on the item at the cursor. *)
Lemma entryPointTurn_individual (b : Batch) (it : Item.t) :
  packingMethod (config b) = individualArrays →
  quit b = false → 0 <= nextItem b →
  items b !! Z.to_nat (nextItem b) = Some it →
  Item.index it = nextItem b →
  ∃ b', entryPointTurn env b = Some (b', turnLog env (config b) it)
        ∧ items b' = <[Z.to_nat (nextItem b) := turnItem env (config b) it]> (items b)
        ∧ nextItem b' = nextItem b + 1
        ∧ quit b' = false ∧ config b' = config b
        ∧ cpuPack b' = cpuPack b ∧ gpuPack b' = gpuPack b.
Proof.
  intros Hp Hq Hn E Hi.
  unfold entryPointTurn, borrowNextItem. rewrite Hq.
  assert (Hlt : nextItem b < sizeZ (items b)).
  { apply lookup_lt_Some in E. unfold sizeZ. lia. }
  rewrite (proj2 (Z.leb_le 0 (nextItem b))) by lia.
  rewrite (proj2 (Z.ltb_lt (nextItem b) _)) by lia. cbn [andb].
  unfold getItem, putItem. rewrite (proj2 (Z.ltb_ge (nextItem b) 0)) by lia.
  rewrite E. cbn [config cpuPack set_counters set_items gpuPack].
  rewrite (entryPointItem_individual (config b) (cpuPack b) (set_borrowed it true) Hp).
  cbn [fst snd]. eexists. split; [reflexivity|].
  fold (turnLog env (config b) it).
  set (I := fst (fst (entryPointItem env (config b) None (set_borrowed it true)))).
  assert (HI : Item.index I = nextItem b).
  { subst I. rewrite (proj1 (entryPointItem_index env _ _ _)). exact Hi. }
  unfold returnItem. cbn [config set_packs set_counters set_items].
  rewrite Hp. rewrite andb_false_r. cbn [andb].
  cbn [items set_packs set_counters nextItem quit config cpuPack gpuPack].
  unfold putItem. cbn [Item.index set_state set_borrowed]. rewrite HI.
  rewrite (proj2 (Z.ltb_ge (nextItem b) 0)) by lia.
  cbn [items set_items set_packs set_counters nextItem quit config cpuPack gpuPack].
  rewrite list_insert_insert_eq. repeat split; try assumption; reflexivity.
Qed.

(** The workers on a queue in individual mode: the items from the cursor
    on are each given one turn, in order. *)
Lemma runWorkers_individual (todo : list Item.t) :
  ∀ (fuel : nat) (b : Batch) (done : list Item.t),
    items b = done ++ todo →
    nextItem b = Z.of_nat (length done) →
    quit b = false →
    packingMethod (config b) = individualArrays →
    indexed (items b) →
    (length todo <= fuel)%nat →
    items (fst (runWorkers env fuel b)) = done ++ (turnItem env (config b) <$> todo)
    ∧ snd (runWorkers env fuel b) = concat (turnLog env (config b) <$> todo)
    ∧ config (fst (runWorkers env fuel b)) = config b
    ∧ quit (fst (runWorkers env fuel b)) = false
    ∧ cpuPack (fst (runWorkers env fuel b)) = cpuPack b
    ∧ gpuPack (fst (runWorkers env fuel b)) = gpuPack b.
Proof.
  induction todo as [|it todo IH]; intros fuel b done Hit Hn Hq Hp Hidx Hf.
  - assert (E : entryPointTurn env b = None).
    { destruct (entryPointTurn env b) as [[b1 l1]|] eqn:E; [|reflexivity].
      apply entryPointTurn_frame in E as (Hlt & _).
      unfold sizeZ in Hlt. rewrite Hit, app_nil_r in Hlt. lia. }
    rewrite (runWorkers_idle_start fuel b E). cbn [fst snd fmap list_fmap concat].
    repeat split; auto.
  - destruct fuel as [|fuel]; [cbn in Hf; lia|]. cbn [runWorkers].
    assert (E : items b !! Z.to_nat (nextItem b) = Some it).
    { rewrite Hit, Hn, Nat2Z.id, lookup_app_r, Nat.sub_diag by lia. reflexivity. }
    destruct (entryPointTurn_individual b it Hp Hq ltac:(lia) E)
      as (b1 & Et & H1 & H2 & H3 & H4 & H5 & H6).
    { rewrite (Hidx _ _ E). lia. }
    rewrite Et. cbn [fst snd].
    assert (H1' : items b1 = (done ++ [turnItem env (config b) it]) ++ todo).
    { rewrite H1, Hit, Hn, Nat2Z.id.
      rewrite insert_app_r_alt, Nat.sub_diag by lia. cbn. rewrite <- app_assoc.
      reflexivity. }
    destruct (IH fuel b1 (done ++ [turnItem env (config b) it])) as (I1 & I2 & I3 & I4 & I5 & I6).
    + exact H1'.
    + rewrite H2, Hn, length_app. cbn. lia.
    + exact H3.
    + rewrite H4. exact Hp.
    + intros j it' Hj. rewrite H1 in Hj.
      destruct (decide (Z.to_nat (nextItem b) = j)) as [<-|Hne].
      * rewrite list_lookup_insert_eq in Hj by (eapply lookup_lt_Some; eauto).
        injection Hj as <-. rewrite (proj1 (proj2 (turnItem_fields _ _))).
        exact (Hidx _ _ E).
      * rewrite list_lookup_insert_ne in Hj by exact Hne. eauto.
    + cbn in Hf. lia.
    + rewrite I1, I2, I3, I4, I5, I6, H4, H5, H6.
      cbn [fmap list_fmap concat]. rewrite <- app_assoc. repeat split.
Qed.

End QueueFacts.

(** *** The dispatcher: starting a cycle *)

Section CycleFacts.
Context {R : Type} (env : Env R).

Lemma prefetchItems_spec (cfg : Config) (l : list Item.t) (r : R) :
  length (fst (prefetchItems env cfg l r)) = length l
  ∧ ∀ (k : nat) it', fst (prefetchItems env cfg l r) !! k = Some it' →
      ∃ it rk, l !! k = Some it ∧ it' = fst (prefetchItem env cfg it rk).
Proof.
  revert r. induction l as [|it l IH]; intros r; cbn [prefetchItems].
  - split; [reflexivity|]. intros k it'. cbn. rewrite lookup_nil. discriminate.
  - unfold gbind, gret. cbn [fst snd].
    destruct (IH (snd (prefetchItem env cfg it r))) as [IH1 IH2]. split.
    + cbn [length]. rewrite IH1. reflexivity.
    + intros [|k] it'; cbn.
      * intros [= <-]. eauto.
      * intros Hk. exact (IH2 k it' Hk).
Qed.

Lemma prefetchItems_names (cfg : Config) (l : list Item.t) (r : R) :
  Item.name <$> fst (prefetchItems env cfg l r) = Item.name <$> l.
Proof.
  destruct (prefetchItems_spec cfg l r) as [Hl Hk].
  apply list_eq. intros k. rewrite !list_lookup_fmap.
  destruct (fst (prefetchItems env cfg l r) !! k) as [it'|] eqn:E.
  - destruct (Hk k it' E) as (it & rk & -> & ->). cbn [fmap option_fmap option_map].
    rewrite (proj1 (proj2 (proj2 (prefetchItem_state env cfg it rk)))). reflexivity.
  - apply lookup_ge_None in E. rewrite Hl in E.
    rewrite (proj2 (lookup_ge_None l k)) by exact E. reflexivity.
Qed.

Lemma prefetchItems_indexed (cfg : Config) (l : list Item.t) (r : R) :
  indexed l → indexed (fst (prefetchItems env cfg l r)).
Proof.
  intros Hidx k it' Hk.
  destruct (proj2 (prefetchItems_spec cfg l r) k it' Hk) as (it & rk & Hl & ->).
  rewrite (proj1 (proj2 (prefetchItem_state env cfg it rk))). eauto.
Qed.

Lemma prefetch_names (b b' : Batch) (r : R) (log : list LogEntry) :
  indexed (items b) →
  fst (prefetch env b r) = (Go b', log) →
  itemNames b' = itemNames b ∧ indexed (items b').
Proof.
  intros Hidx. unfold prefetch, sync.
  set (d := drain env b).
  destruct (runWorkers_frame env (length (items b)) b) as (_ & _ & _ & Hn).
  destruct (Hn Hidx) as [Hix Hnames]. fold (drain env b) in Hnames, Hix.
  fold d in Hnames, Hix.
  cbn [fst snd].
  destruct (forallb _ _); [|cbn; discriminate].
  destruct (allocatePack env (fst d)) as [b2|] eqn:Eal; [|cbn; discriminate].
  apply allocatePack_frame in Eal as (Hit & _).
  unfold gbind, gret. cbn [fst snd]. intros [= <- _].
  unfold itemNames in *. cbn [items set_items set_counters].
  rewrite prefetchItems_names, Hit. split; [exact Hnames|].
  apply prefetchItems_indexed. exact Hix.
Qed.

Lemma applyConfig_frame (b b' : Batch) (c : Config) :
  applyConfig env b c = Go b' →
  items b' = items b ∧ quit b' = quit b ∧ nextItem b' = nextItem b
  ∧ cpuPack b' = cpuPack b ∧ gpuPack b' = gpuPack b ∧ config b' = c.
Proof.
  unfold applyConfig, setCropAnisotropy, setCropSize.
  destruct (c_assert env (minCropAnisotropy c <=? maxCropAnisotropy c)%float);
    [|discriminate]. cbn [mbind option_bind].
  destruct (c_assert env ((0 <=? minCropAnisotropy c)%float && _)); [|discriminate].
  cbn [mbind option_bind].
  destruct (c_assert env (minCropSize c <=? maxCropSize c)%float); [|discriminate].
  cbn [mbind option_bind].
  destruct (c_assert env ((0 <=? minCropSize c)%float && _)); [|discriminate].
  cbn [mbind option_bind].
  destruct (c_assert env ((0 <=? maxCropSize c)%float && _)); [|discriminate].
  cbn [mbind option_bind].
  intros [= <-]. destruct c. repeat split.
Qed.

Lemma registered_indexed (fns : list string) (b : Batch) :
  items b = [] →
  indexed (items (fold_left (registerItem env) fns b))
  ∧ itemNames (fold_left (registerItem env) fns b) = fns.
Proof.
  intros Hb. destruct (registerItems_items env fns b) as (Hr & _).
  rewrite Hb in Hr. cbn [app] in Hr. unfold itemNames. rewrite Hr. split.
  - intros j it Hj. rewrite list_lookup_imap in Hj.
    destruct (fns !! j); [|discriminate]. injection Hj as <-.
    cbn. unfold sizeZ. cbn. lia.
  - rewrite fmap_imap. clear. cbn.
    induction fns as [|x l IH]; cbn; [reflexivity|].
    f_equal. rewrite <- IH at 2. reflexivity.
Qed.

Lemma startCycle_names (w w' : World R) (a : Args) (fns : list string)
    (log : list LogEntry) :
  startCycle env w a fns = inr (w', log) →
  itemNames (batch w') = fns
  ∧ indexed (items (batch w'))
  ∧ batchIsInitialized w' = batchIsInitialized w
  ∧ readers w' = readers w.
Proof.
  unfold startCycle.
  assert (Hgo : ∀ b1, applyConfig env (clear (batch w)) (a_config a) = Go b1 →
            match fst (fst (prefetch env (fold_left (registerItem env) fns b1) (rng w))) with
            | Go b' => itemNames b' = fns ∧ indexed (items b')
            | Stop _ => True
            end).
  { intros b1 Ea. apply applyConfig_frame in Ea as (Hi & _).
    destruct (registered_indexed fns b1 Hi) as [Hx Hn].
    destruct (prefetch env (fold_left (registerItem env) fns b1) (rng w))
      as [[f l] r'] eqn:Epf. cbn [fst]. destruct f as [b'|]; [|exact I].
    destruct (prefetch_names (fold_left (registerItem env) fns b1) b' (rng w) l Hx)
      as [H1 H2]; [rewrite Epf; reflexivity|].
    rewrite H1. split; [exact Hn|exact H2]. }
  destruct (packingMethod (a_config a)), (resizeMethod (a_config a)); try discriminate.
  all: destruct (applyConfig env (clear (batch w)) (a_config a)) as [b1|] eqn:Ea;
    [|discriminate].
  all: specialize (Hgo b1 eq_refl).
  all: destruct (fst (fst (prefetch env (fold_left (registerItem env) fns b1) (rng w))))
    as [b2|]; [|discriminate].
  all: intros [= <- _]; cbn [batch batchIsInitialized readers with_batch].
  all: destruct Hgo as [H1 H2]; repeat split; assumption.
Qed.

End CycleFacts.

(** *** The dispatcher: reuse of the prefetched batch *)

Section ReuseFacts.
Context {R : Type} (env : Env R).

(** The names extracted do not depend on the batch. *)
Lemma extractFilenames_total (b b' : Batch) (cells : list mxArray) (i : Z)
    (acc : list string) (same same' : bool) (fns : list string) (s : bool) :
  extractFilenames b cells i acc same = Go (fns, s) →
  ∃ s', extractFilenames b' cells i acc same' = Go (fns, s').
Proof.
  revert i acc same same'. induction cells as [|c cells IH]; intros i acc same same';
    cbn [extractFilenames].
  - intros [= <- _]. eauto.
  - destruct (negb _); [discriminate|]. intros H. eapply IH. exact H.
Qed.

Lemma prepareBatch_frame (w : World R) :
  batchIsInitialized (prepareBatch w) = true
  ∧ readers (prepareBatch w) = readers w
  ∧ (indexed (items (batch w)) → indexed (items (batch (prepareBatch w)))).
Proof.
  unfold prepareBatch. destruct (batchIsInitialized w) eqn:E; repeat split; auto.
  intros _ j it. cbn. rewrite lookup_nil. discriminate.
Qed.

Lemma prepareReaders_frame (w : World R) (n : Z) :
  batchIsInitialized (fst (prepareReaders w n)) = batchIsInitialized w
  ∧ (indexed (items (batch w)) → indexed (items (batch (fst (prepareReaders w n))))).
Proof.
  unfold prepareReaders. destruct (_ =? _); cbn [fst]; split; auto.
  intros _ j it. cbn. rewrite lookup_nil. discriminate.
Qed.

Lemma collect_registered (w : World R) (a : Args) (n : nat)
    (log : list LogEntry) (reg : list string) :
  registered (collect env w a n log reg) = reg.
Proof.
  unfold collect. destruct (a_prefetch a); [reflexivity|].
  destruct (fst (sync env (batch w))); [|reflexivity].
  destruct (getPackingMethod _); [|reflexivity].
  destruct (fst (emitItems _ _ _ _ _)); reflexivity.
Qed.

(** How [collect] ends: a prefetch-only call leaves the world as it is, a
    collecting call that returns has cleared the batch. *)
Lemma collect_outcome (w : World R) (a : Args) (n : nat)
    (log : list LogEntry) (reg : list string) :
  match outcome (collect env w a n log reg) with
  | Go None => a_prefetch a = true ∧ world (collect env w a n log reg) = w
  | Go (Some _) => a_prefetch a = false
                   ∧ items (batch (world (collect env w a n log reg))) = []
  | Stop _ => True
  end.
Proof.
  unfold collect. destruct (a_prefetch a); [split; reflexivity|].
  destruct (fst (sync env (batch w))); [|exact I].
  destruct (getPackingMethod _).
  - destruct (fst (emitItems _ _ _ _ _)); [|exact I]. split; reflexivity.
  - split; reflexivity.
Qed.

(** A call on an initialised world whose pool has the requested size and
    whose batch holds the incoming names goes straight to [collect]. *)
Lemma reuse_call (w : World R) (cells : list mxArray)
    (opts : list (OptCode * mxArray)) (a : Args) (fns : list string) :
  batchIsInitialized w = true →
  parseOptions (initialArgs (sizeZ (readers w))) opts = Go a →
  Z.max (a_requestedNumThreads a) 1 = sizeZ (readers w) →
  extractFilenames (batch w) cells 0 [] true = Go (fns, true) →
  mexFunction env w (Some (mxCell cells)) opts = collect env w a (length cells) [] [].
Proof.
  intros Hi Hp Hn He. unfold mexFunction. rewrite Hp.
  unfold prepareBatch. rewrite Hi. unfold prepareReaders.
  rewrite Hn, Z.eqb_refl. cbn [fst snd]. unfold dispatch. rewrite He. reflexivity.
Qed.

(** After a call that returned without collecting, the world is
    initialised and its batch holds the names of the call, in order, from
    index 0. *)
Lemma prefetched_world (w : World R) (cells : list mxArray)
    (opts : list (OptCode * mxArray)) :
  indexed (items (batch w)) →
  outcome (mexFunction env w (Some (mxCell cells)) opts) = Go None →
  let w' := world (mexFunction env w (Some (mxCell cells)) opts) in
  batchIsInitialized w' = true
  ∧ indexed (items (batch w'))
  ∧ ∃ s, extractFilenames (batch w) cells 0 [] true = Go (mxGetString512 <$> cells, s)
         ∧ (mxGetString512 <$> cells) `prefix_of` itemNames (batch w').
Proof.
  intros Hidx. unfold mexFunction.
  destruct (parseOptions _ opts) as [a|]; [|discriminate].
  destruct (prepareBatch_frame w) as (Hb1 & _ & Hb3).
  destruct (prepareReaders_frame (prepareBatch w) (Z.max (a_requestedNumThreads a) 1))
    as (Hr1 & Hr2).
  set (pool := prepareReaders (prepareBatch w) (Z.max (a_requestedNumThreads a) 1)) in *.
  destruct (snd pool); [|discriminate].
  unfold dispatch.
  destruct (extractFilenames (batch (fst pool)) cells 0 [] true) as [[fns same]|] eqn:Ee;
    [|discriminate].
  destruct (extractFilenames_same _ _ _ _ Ee) as [Hf Hs]. subst fns.
  destruct (extractFilenames_total _ (batch w) _ _ _ _ true _ _ Ee) as [s0 Es0].
  destruct same.
  - intros Ho.
    pose proof (collect_outcome (fst pool) a (length cells) [] []) as Hc.
    rewrite Ho in Hc. destruct Hc as [_ ->].
    cbv zeta. split; [rewrite Hr1; exact Hb1|]. split; [auto|].
    exists s0. split; [exact Es0|]. apply Hs. reflexivity.
  - destruct (startCycle env (fst pool) a (mxGetString512 <$> cells))
      as [res|[w3 log]] eqn:Esc.
    + unfold startCycle in Esc.
      destruct (packingMethod (a_config a)), (resizeMethod (a_config a));
        try (injection Esc as <-; discriminate).
      all: destruct (applyConfig env _ _); [|injection Esc as <-; discriminate].
      all: destruct (fst (fst (prefetch env _ _))); [discriminate|].
      all: injection Esc as <-; discriminate.
    + intros Ho.
      pose proof (collect_outcome w3 a (length cells) log (mxGetString512 <$> cells)) as Hc.
      rewrite Ho in Hc. destruct Hc as [_ ->].
      destruct (startCycle_names env _ _ _ _ _ Esc) as (Hn & Hx & Hi & _).
      cbv zeta. split; [rewrite Hi, Hr1; exact Hb1|]. split; [exact Hx|].
      exists s0. split; [exact Es0|]. rewrite Hn. reflexivity.
Qed.

End ReuseFacts.

Section ReuseTheorem.
Context {R : Type} (env : Env R).

Lemma startCycle_stops (w : World R) (a : Args) (fns : list string) (res : Result R) :
  startCycle env w a fns = inl res → ∃ h, outcome res = Stop h.
Proof.
  unfold startCycle.
  destruct (packingMethod (a_config a)), (resizeMethod (a_config a)).
  all: try (intros [= <-]; eexists; reflexivity).
  all: destruct (applyConfig env _ _); [|intros [= <-]; eexists; reflexivity].
  all: destruct (fst (fst (prefetch env _ _))) eqn:E; [discriminate|].
  all: intros [= <-]; eexists; reflexivity.
Qed.

Lemma collect_log (w : World R) (a : Args) (n : nat)
    (log : list LogEntry) (reg : list string) :
  readerLog (collect env w a n log reg)
  = if a_prefetch a then log else log ++ snd (sync env (batch w)).
Proof.
  unfold collect. destruct (a_prefetch a); [reflexivity|].
  destruct (fst (sync env (batch w))); [|reflexivity].
  destruct (getPackingMethod _); [|reflexivity].
  destruct (fst (emitItems _ _ _ _ _)); reflexivity.
Qed.

(** A call that returns cells has cleared the batch. *)
Lemma collecting_call_clears (w : World R) (fn : option mxArray)
    (opts : list (OptCode * mxArray)) (out : list (option Tensor)) :
  outcome (mexFunction env w fn opts) = Go (Some out) →
  items (batch (world (mexFunction env w fn opts))) = [].
Proof.
  unfold mexFunction. destruct fn as [fn|]; [|discriminate].
  destruct (parseOptions _ opts) as [a|]; [|discriminate].
  destruct fn as [| |cells|]; try discriminate.
  destruct (snd (prepareReaders _ _)); [|discriminate].
  unfold dispatch.
  destruct (extractFilenames _ cells 0 [] true) as [[fns same]|]; [|discriminate].
  destruct same.
  - intros Ho. pose proof (collect_outcome env (fst (prepareReaders (prepareBatch w)
                 (Z.max (a_requestedNumThreads a) 1))) a (length cells) [] []) as Hc.
    rewrite Ho in Hc. exact (proj2 Hc).
  - destruct (startCycle env _ a fns) as [res|[w3 log]] eqn:Esc.
    + destruct (startCycle_stops _ _ _ _ Esc) as [h ->]. discriminate.
    + intros Ho. pose proof (collect_outcome env w3 a (length cells) log fns) as Hc.
      rewrite Ho in Hc. exact (proj2 Hc).
Qed.

End ReuseTheorem.

(** C1, as stated, fails: on a freshly loaded MEX file two consecutive
    collecting calls with the names {small.jpg} both register the item and
    invoke the reader, since the first call clears the batch when it
    returns. *)
Lemma C1_counterexample : ¬ reuse_claim (Scenario.env false).
Proof.
  intros [_ H].
  specialize (H (Scenario.loaded ([], [])) [mxChar "small.jpg"] []).
  vm_compute in H. destruct H as [H _]. discriminate H.
Qed.

(** C1, amended. The dispatcher reuses the prefetched batch whenever the
    incoming names are exactly the registered ones, and starts a new cycle
    whenever some incoming name differs from, or lies beyond, the
    registered ones. After a call that only prefetched, a call with the
    same names and the same worker count registers nothing, and once the
    workers have emptied the queue it does not invoke the reader either. A
    call that returns cells clears the batch before it returns. *)
Theorem C1_reuse_of_prefetch {R : Type} (env : Env R) :
  (∀ b cells fns same,
     extractFilenames b cells 0 [] true = Go (fns, same) →
     (fns = itemNames b → same = true)
     ∧ (¬ fns `prefix_of` itemNames b → same = false))
  ∧ (∀ w cells opts1 opts2 a2,
       indexed (items (batch w)) →
       outcome (mexFunction env w (Some (mxCell cells)) opts1) = Go None →
       let w1 := world (mexFunction env w (Some (mxCell cells)) opts1) in
       parseOptions (initialArgs (sizeZ (readers w1))) opts2 = Go a2 →
       Z.max (a_requestedNumThreads a2) 1 = sizeZ (readers w1) →
       registered (mexFunction env w1 (Some (mxCell cells)) opts2) = []
       ∧ registered (mexFunction env (fst (background env w1))
                       (Some (mxCell cells)) opts2) = []
       ∧ readerLog (mexFunction env (fst (background env w1))
                      (Some (mxCell cells)) opts2) = [])
  ∧ (∀ w fn opts out,
       outcome (mexFunction env w fn opts) = Go (Some out) →
       items (batch (world (mexFunction env w fn opts))) = []).
Proof.
  split; [|split].
  - intros b cells fns same He.
    destruct (extractFilenames_same _ _ _ _ He) as [_ Hs]. split.
    + intros ->. apply Hs. reflexivity.
    + intros Hn. destruct same; [|reflexivity]. exfalso. apply Hn, Hs. reflexivity.
  - intros w cells opts1 opts2 a2 Hidx Ho w1 Hp Hn.
    destruct (prefetched_world env w cells opts1 Hidx Ho) as (Hi & Hx & s & He & Hpre).
    fold w1 in Hi, Hx, Hpre.
    destruct (extractFilenames_total _ (batch w1) _ _ _ _ true _ _ He) as [s1 E1].
    assert (s1 = true) as ->.
    { apply (proj2 (extractFilenames_same _ _ _ _ E1)). exact Hpre. }
    split.
    { rewrite (reuse_call env w1 cells opts2 a2 _ Hi Hp Hn E1).
      apply collect_registered. }
    set (wb := fst (background env w1)).
    assert (Hwb : batchIsInitialized wb = true ∧ readers wb = readers w1
                  ∧ batch wb = fst (drain env (batch w1))) by (repeat split; exact Hi).
    destruct Hwb as (Hb1 & Hb2 & Hb3).
    destruct (runWorkers_frame env (length (items (batch w1))) (batch w1))
      as (_ & _ & _ & Hnm).
    destruct (Hnm Hx) as [_ Hnames]. fold (drain env (batch w1)) in Hnames.
    destruct (extractFilenames_total _ (batch wb) _ _ _ _ true _ _ He) as [s2 E2].
    assert (s2 = true) as ->.
    { apply (proj2 (extractFilenames_same _ _ _ _ E2)). rewrite Hb3, Hnames. exact Hpre. }
    rewrite <- Hb2 in Hp, Hn.
    rewrite (reuse_call env wb cells opts2 a2 _ Hb1 Hp Hn E2).
    split; [apply collect_registered|].
    rewrite collect_log. destruct (a_prefetch a2); [reflexivity|].
    unfold sync. rewrite Hb3, drain_twice. reflexivity.
  - intros w fn opts out. apply collecting_call_clears.
Qed.

Lemma C1_reuse_of_prefetch_witness :
  let w1 := world (mexFunction (Scenario.env false) (Scenario.loaded ([], []))
                     (Some (mxCell [mxChar "small.jpg"])) [(opt_prefetch, mxOther)]) in
  registered (mexFunction (Scenario.env false) w1
                (Some (mxCell [mxChar "small.jpg"])) []) = []
  ∧ readerLog (mexFunction (Scenario.env false)
                 (fst (background (Scenario.env false) w1))
                 (Some (mxCell [mxChar "small.jpg"])) []) = [].
Proof.
  intros w1.
  assert (Hidx : indexed (items (batch (Scenario.loaded ([], []))))).
  { intros j it H. destruct j; discriminate H. }
  destruct (proj1 (proj2 (C1_reuse_of_prefetch (Scenario.env false)))
              (Scenario.loaded ([], [])) [mxChar "small.jpg"]
              [(opt_prefetch, mxOther)] [] (initialArgs 1) Hidx)
    as (H1 & _ & H3).
  - vm_compute. reflexivity.
  - vm_compute. reflexivity.
  - vm_compute. reflexivity.
  - split; [exact H1|exact H3].
Defined.

(** *** The dispatcher: checks of the configuration *)

Section ConfigFacts.
Context {R : Type} (env : Env R).

Lemma parseOptions_stops_at (a0 : Args) (opts : list (OptCode * mxArray))
    (opt : OptCode) (optarg : mxArray) :
  In (opt, optarg) opts →
  (∀ a, ∃ h, parseOption a opt optarg = Stop h) →
  ∃ h, parseOptions a0 opts = Stop h.
Proof.
  intros Hin Hbad. revert a0. induction opts as [|[o x] opts IH]; intros a0.
  - destruct Hin.
  - cbn [parseOptions]. destruct Hin as [[= -> ->]|Hin].
    + destruct (Hbad a0) as [h ->]. eauto.
    + destruct (parseOption a0 o x); [apply IH, Hin|eauto].
Qed.

Lemma scalar_out_of_range (a : Args) (opt : OptCode) (x : double) :
  opt = opt_contrast ∨ opt = opt_saturation →
  ((x <? 0)%float || (1 <? x)%float) = true →
  ∃ msg, parseOption a opt (mxDouble [1; 1] [x]) = Stop (Raised msg).
Proof.
  intros [-> | ->] Hx; cbn; rewrite Hx; eauto.
Qed.

Lemma collect_readers (w : World R) (a : Args) (n : nat)
    (log : list LogEntry) (reg : list string) :
  readers (world (collect env w a n log reg)) = readers w.
Proof.
  unfold collect. destruct (a_prefetch a); [reflexivity|].
  destruct (fst (sync env (batch w))); [|reflexivity].
  destruct (getPackingMethod _); [|reflexivity].
  destruct (fst (emitItems _ _ _ _ _)); reflexivity.
Qed.

Lemma dispatch_readers (w : World R) (a : Args) (cells : list mxArray) :
  readers (world (dispatch env w a cells)) = readers w.
Proof.
  unfold dispatch.
  destruct (extractFilenames _ cells 0 [] true) as [[fns same]|]; [|reflexivity].
  destruct same; [apply collect_readers|].
  destruct (startCycle env w a fns) as [res|[w3 log]] eqn:E.
  - unfold startCycle in E.
    destruct (packingMethod (a_config a)), (resizeMethod (a_config a)).
    all: try (injection E as <-; reflexivity).
    all: destruct (applyConfig env _ _); [|injection E as <-; reflexivity].
    all: destruct (fst (fst (prefetch env _ _))); [discriminate|].
    all: injection E as <-; reflexivity.
  - rewrite collect_readers.
    exact (proj2 (proj2 (proj2 (startCycle_names env _ _ _ _ _ E)))).
Qed.

End ConfigFacts.

(** C7, as stated, fails for packing: after a prefetch of {small.jpg}, a
    call with the same names and the option Pack, without Resize, is not
    rejected; it returns the prefetched image as an individual array. *)
Lemma C7_counterexample : ¬ pack_always_rejected (Scenario.env false).
Proof.
  intros H.
  destruct (H (world (mexFunction (Scenario.env false) (Scenario.loaded ([], []))
                        (Some (mxCell [mxChar "small.jpg"])) [(opt_prefetch, mxOther)]))
              [mxChar "small.jpg"] [(opt_pack, mxOther)]
              (with_config (initialArgs 1)
                 (Cfg.with_packing (defaultConfig (-1) (-1)) singleArray)))
    as [msg Hmsg].
  - vm_compute. reflexivity.
  - reflexivity.
  - discriminate.
  - vm_compute in Hmsg. discriminate Hmsg.
Qed.

(** C7, amended. An option that fails to parse stops the call with the
    globals untouched, before any work; a contrast or saturation scalar
    below 0 or above 1 anywhere among the options makes the parse fail. A
    call that starts a new cycle with packed mode and no fixed-size resize
    raises the PACK error after clearing the old batch, before any item is
    registered or read; a call that reuses the prefetched batch does not
    look at these options. A requested worker count below 1 is taken as 1:
    from an empty pool the call creates exactly one reader task. *)
Theorem C7_config_validity {R : Type} (env : Env R) :
  (∀ w fn opts h,
     parseOptions (initialArgs (sizeZ (readers w))) opts = Stop h →
     mexFunction env w (Some fn) opts = stopped w h [] [])
  ∧ (∀ a0 opts opt x,
       In (opt, mxDouble [1; 1] [x]) opts →
       opt = opt_contrast ∨ opt = opt_saturation →
       ((x <? 0)%float || (1 <? x)%float) = true →
       ∃ h, parseOptions a0 opts = Stop h)
  ∧ (∀ w cells opts a fns,
       parseOptions (initialArgs (sizeZ (readers w))) opts = Go a →
       packingMethod (a_config a) = singleArray →
       resizeMethod (a_config a) ≠ fixedSize →
       snd (prepareReaders (prepareBatch w) (Z.max (a_requestedNumThreads a) 1)) = Go () →
       extractFilenames
         (batch (fst (prepareReaders (prepareBatch w) (Z.max (a_requestedNumThreads a) 1))))
         cells 0 [] true = Go (fns, false) →
       let r := mexFunction env w (Some (mxCell cells)) opts in
       outcome r
       = Stop (Raised "PACK must be used in combination with resizing to a fixed size.")
       ∧ registered r = [] ∧ readerLog r = []
       ∧ items (batch (world r)) = [])
  ∧ (∀ w cells opts a,
       parseOptions (initialArgs (sizeZ (readers w))) opts = Go a →
       a_requestedNumThreads a < 1 →
       readers w = [] →
       length (readers (world (mexFunction env w (Some (mxCell cells)) opts))) = 1%nat).
Proof.
  split; [|split; [|split]].
  - intros w fn opts h Hp. unfold mexFunction. rewrite Hp. reflexivity.
  - intros a0 opts opt x Hin Ho Hx.
    apply (parseOptions_stops_at a0 opts opt (mxDouble [1; 1] [x]) Hin).
    intros a. destruct (scalar_out_of_range a opt x Ho Hx) as [msg ->]. eauto.
  - intros w cells opts a fns Hp Hpack Hres Hpool He r. subst r.
    unfold mexFunction. rewrite Hp, Hpool. unfold dispatch. rewrite He.
    unfold startCycle. rewrite Hpack.
    destruct (resizeMethod (a_config a)); [| |congruence]; repeat split.
  - intros w cells opts a Hp Hn Hr.
    unfold mexFunction. rewrite Hp.
    assert (Hpool : prepareReaders (prepareBatch w) (Z.max (a_requestedNumThreads a) 1)
                    = ({| batch := clear (batch (prepareBatch w));
                          batchIsInitialized := true;
                          readers := [ {| rt_index := 0; rt_thread := true |} ];
                          rng := rng (prepareBatch w) |}, Go ())).
    { unfold prepareReaders.
      rewrite (proj1 (proj2 (prepareBatch_frame w))), Hr.
      rewrite Z.max_r by lia. cbn [sizeZ length Z.of_nat Z.eqb].
      rewrite (proj1 (prepareBatch_frame w)). reflexivity. }
    rewrite Hpool. cbn [fst snd]. rewrite dispatch_readers. reflexivity.
Qed.

Lemma C7_config_validity_witness :
  (∃ h, parseOptions (initialArgs 0)
          [(opt_flip, mxOther); (opt_contrast, mxDouble [1; 1] [1.5%float])] = Stop h)
  ∧ outcome (mexFunction (Scenario.env false) (Scenario.loaded ([], []))
               (Some (mxCell [mxChar "small.jpg"])) [(opt_pack, mxOther)])
    = Stop (Raised "PACK must be used in combination with resizing to a fixed size.")
  ∧ length (readers (world (mexFunction (Scenario.env false) (Scenario.loaded ([], []))
                              (Some (mxCell [mxChar "small.jpg"]))
                              [(opt_num_threads, mxDouble [1; 1] [(-3)%float])])))
    = 1%nat.
Proof.
  destruct (C7_config_validity (Scenario.env false)) as (_ & H2 & H3 & H4).
  split; [|split].
  - apply (H2 (initialArgs 0) _ opt_contrast 1.5%float).
    + right. left. reflexivity.
    + left. reflexivity.
    + vm_compute. reflexivity.
  - refine (proj1 (H3 (Scenario.loaded ([], [])) [mxChar "small.jpg"] [(opt_pack, mxOther)]
                     (with_config (initialArgs 0)
                        (Cfg.with_packing (defaultConfig (-1) (-1)) singleArray))
                     ["small.jpg"%string] _ _ _ _ _)).
    + vm_compute. reflexivity.
    + reflexivity.
    + discriminate.
    + vm_compute. reflexivity.
    + vm_compute. reflexivity.
  - apply (H4 (Scenario.loaded ([], [])) [mxChar "small.jpg"]
              [(opt_num_threads, mxDouble [1; 1] [(-3)%float])]
              {| a_prefetch := false; a_requestedNumThreads := -3;
                 a_verbosity := 0; a_config := defaultConfig (-1) (-1) |}).
    + vm_compute. reflexivity.
    + cbn. lia.
    + reflexivity.
Defined.

(** *** The dispatcher: a whole call in individual mode *)

Section PipelineFacts.
Context {R : Type} (env : Env R).

Lemma emitItems_spec (gpu : bool) (l : list Item.t) :
  ∀ (pre : list (option Tensor)) (warn : list string),
    emitItems gpu l (length pre) (pre ++ replicate (length l) None) warn
    = (Go (pre ++ (itemSlot gpu <$> l)),
       warn ++ (itemWarning <$> List.filter failed l)).
Proof.
  induction l as [|it l IH]; intros pre warn; cbn [emitItems].
  - cbn. rewrite !app_nil_r. reflexivity.
  - cbn [length replicate fmap list_fmap List.filter]. unfold itemSlot at 1, failed at 1.
    destruct (negb (is_success (Item.error it))) eqn:Ee.
    + replace (pre ++ None :: replicate (length l) None)
        with ((pre ++ [None]) ++ replicate (length l) None)
        by (rewrite <- app_assoc; reflexivity).
      replace (S (length pre)) with (length (pre ++ [None]))
        by (rewrite length_app; cbn; lia).
      rewrite IH. cbn [fmap list_fmap]. rewrite <- !app_assoc. reflexivity.
    + assert (Hlt : (length pre <? length (pre ++ None :: replicate (length l) None))%nat
                    = true).
      { apply Nat.ltb_lt. rewrite length_app. cbn. lia. }
      rewrite Hlt.
      rewrite insert_app_r_alt, Nat.sub_diag by lia. cbn [insert list_insert].
      set (arr := if gpu then Item.gpuArray it else Item.cpuArray it).
      replace (pre ++ arr :: replicate (length l) None)
        with ((pre ++ [arr]) ++ replicate (length l) None)
        by (rewrite <- app_assoc; reflexivity).
      replace (S (length pre)) with (length (pre ++ [arr]))
        by (rewrite length_app; cbn; lia).
      rewrite IH. rewrite <- !app_assoc. reflexivity.
Qed.

(** [sync] on a queue in individual mode whose cursor is at 0. *)
Lemma sync_individual (b : Batch) :
  nextItem b = 0 → quit b = false →
  packingMethod (config b) = individualArrays →
  indexed (items b) →
  ∃ b', sync env b = (Go b', concat (turnLog env (config b) <$> items b))
        ∧ items b' = turnItem env (config b) <$> items b
        ∧ config b' = config b ∧ quit b' = false.
Proof.
  intros Hn Hq Hp Hidx.
  destruct (runWorkers_individual env (items b) (length (items b)) b [])
    as (H1 & H2 & H3 & H4 & _); auto.
  fold (drain env b) in H1, H2, H3, H4. cbn [app] in H1.
  exists (fst (drain env b)). unfold sync. rewrite H1, H2.
  assert (Hall : forallb (fun it => Item.State_eqb (Item.state it) Item.ready)
                   (turnItem env (config b) <$> items b) = true).
  { apply forallb_forall. intros it Hin. apply list_elem_of_In in Hin.
    apply list_elem_of_fmap in Hin as (it0 & -> & _).
    rewrite (proj1 (turnItem_fields env _ _)). reflexivity. }
  rewrite Hall. repeat split; assumption.
Qed.




End PipelineFacts.

(** *** One item through a cycle *)

Section ItemFacts.
Context {R : Type} (env : Env R).

(** The probe of a fresh item records the result of [readShape] on its
    own name. *)
Lemma probe_fields (cfg : Config) (k : Z) (nm : string) :
  let it := turnItem env cfg (freshItem env k nm) in
  Item.error it = fst (readShape env (defaultShape env) nm)
  ∧ Item.shape it = snd (readShape env (defaultShape env) nm)
  ∧ Item.name it = nm ∧ Item.index it = k
  ∧ turnLog env cfg (freshItem env k nm) = [LogReadShape k nm].
Proof. repeat split. Qed.




End ItemFacts.




(** The scenario S3 evaluated: the cells of the first and third file hold
    their arrays, the second is empty, with one warning. *)
Lemma S3_evaluated :
  let r := mexFunction (Scenario.env false) (Scenario.started ([], []))
             (Some (mxCell Scenario.cellsS3)) [] in
  Scenario.shapes r
  = Go (Some [Some {| t_height := 4; t_width := 3; t_depth := 3; t_size := 1 |};
              None;
              Some {| t_height := 3; t_width := 5; t_depth := 3; t_size := 1 |}])
  ∧ warnings r
    = ["could not read image 'missing.jpg' because 'cannot open missing.jpg'"%string]
  ∧ readerLog r
    = [LogReadShape 0 "small.jpg"; LogReadShape 1 "missing.jpg";
       LogReadShape 2 "wide.jpg"; LogReadPixels 0 "small.jpg";
       LogReadPixels 2 "wide.jpg"].
Proof. vm_compute. repeat split; reflexivity. Qed.
(* ================================================================== *)
(** ** Further properties *)
(* ================================================================== *)

(** *** The option loop *)
Lemma parseOptions_inv (P : Args → Prop) :
  (∀ a opt x a', P a → parseOption a opt x = Go a' → P a') →
  ∀ opts a a', P a → parseOptions a opts = Go a' → P a'.
Proof.
  intros Hstep opts. induction opts as [|[o x] opts IH]; intros a a' Ha Hp.
  - injection Hp as <-. exact Ha.
  - cbn [parseOptions] in Hp.
    destruct (parseOption a o x) as [a1|h] eqn:E; [|discriminate].
    exact (IH a1 a' (Hstep a o x a1 Ha E) Hp).
Qed.

Lemma flow_int_range (x : double) (z : Z) :
  flow_int x = Go z → INT_MIN <= z <= INT_MAX.
Proof.
  unfold flow_int, int_of_double. destruct (double_trunc x) as [t|]; [|discriminate].
  destruct ((INT_MIN <=? t) && (t <=? INT_MAX)) eqn:E; [|discriminate].
  intros [= <-]. apply andb_true_iff in E as [E1 E2]. lia.
Qed.

Lemma parseOption_resize (a a' : Args) (opt : OptCode) (x : mxArray) :
  resize_ok (a_config a) → parseOption a opt x = Go a' → resize_ok (a_config a').
Proof.
  intros Ha Hp. destruct opt; cbn in Hp.
  all: repeat match type of Hp with
       | Go _ = Go _ => injection Hp as <-
       | Stop _ = Go _ => discriminate Hp
       | (if ?c then _ else _) = Go _ => destruct c eqn:?
       | flow_bind ?m _ = Go _ => destruct m eqn:?; cbn [flow_bind] in Hp
       | match ?m with _ => _ end = Go _ => destruct m eqn:?
       end.
  all: try exact Ha.
  all: unfold resize_ok in *; cbn.
  all: repeat match goal with
       | H : flow_int _ = Go _ |- _ => apply flow_int_range in H
       | H : (_ <? 1) || (_ <? 1) = false |- _ => apply orb_false_iff in H as [? ?]
       end.
  all: lia.
Qed.


Lemma parseOption_resize_set (a a' : Args) (x : mxArray) :
  parseOption a opt_resize x = Go a' → resizeMethod (a_config a') ≠ noResize.
Proof.
  intros Hp. cbn in Hp. parse_cases Hp. all: cbn; discriminate.
Qed.

Lemma parseOption_resize_keep (a a' : Args) (opt : OptCode) (x : mxArray) :
  opt ≠ opt_resize → parseOption a opt x = Go a' →
  resizeMethod (a_config a') = resizeMethod (a_config a)
  ∧ resizeHeight (a_config a') = resizeHeight (a_config a)
  ∧ resizeWidth (a_config a') = resizeWidth (a_config a).
Proof.
  intros Ho Hp. destruct opt; try congruence; cbn in Hp; parse_cases Hp.
  all: repeat split.
Qed.

(** X1. Whatever options the loop accepts, the resize locals are well
    formed: when a resize method is set, the height and the width lie
    between 1 and INT_MAX, and they are equal for the shortest-side method;
    the method is still [noResize] exactly when no option RESIZE was
    given. *)
Theorem X1_parsed_resize_is_positive (n : Z) (opts : list (OptCode * mxArray)) (a : Args) :
  parseOptions (initialArgs n) opts = Go a →
  resize_ok (a_config a)
  ∧ (resizeMethod (a_config a) = noResize ↔ ∀ x, ¬ In (opt_resize, x) opts).
Proof.
  intros Hp. split.
  - refine (parseOptions_inv (fun a => resize_ok (a_config a)) _ opts _ _ _ Hp).
    + intros a0 opt x a' H0 H1. exact (parseOption_resize a0 a' opt x H0 H1).
    + exact I.
  - assert (G : ∀ opts a0 a',
               parseOptions a0 opts = Go a' →
               (resizeMethod (a_config a') = noResize ↔
                resizeMethod (a_config a0) = noResize ∧ ∀ x, ¬ In (opt_resize, x) opts)).
    { clear. induction opts as [|[o x] opts IH]; intros a0 a' Hp.
      - injection Hp as <-. split; [intros H; split; [exact H|intros x []]|intros [H _]; exact H].
      - cbn [parseOptions] in Hp.
        destruct (parseOption a0 o x) as [a1|h] eqn:E; [|discriminate].
        rewrite (IH a1 a' Hp).
        assert (Hd : o = opt_resize ∨ o ≠ opt_resize)
          by (destruct o; (left; reflexivity) || (right; discriminate)).
        destruct Hd as [->|Hne].
        + pose proof (parseOption_resize_set a0 a1 x E) as Hset. split.
          * intros [H _]. contradiction.
          * intros [_ H]. exfalso. apply (H x). left. reflexivity.
        + destruct (parseOption_resize_keep a0 a1 o x Hne E) as (-> & _ & _). split.
          * intros [H1 H2]. split; [exact H1|]. intros y [[= -> ->]|Hin]; [congruence|].
            exact (H2 y Hin).
          * intros [H1 H2]. split; [exact H1|]. intros y Hin. apply (H2 y). right. exact Hin. }
    rewrite (G opts (initialArgs n) a Hp). cbn. tauto.
Qed.


Lemma X1_parsed_resize_is_positive_witness :
  resize_ok (Cfg.with_resize (defaultConfig (-1) (-1)) fixedSize 2 3).
Proof.
  apply (X1_parsed_resize_is_positive 0 [(opt_resize, Scenario.row [2; 3]%float)]
           (with_config (initialArgs 0)
              (Cfg.with_resize (defaultConfig (-1) (-1)) fixedSize 2 3))).
  vm_compute. reflexivity.
Defined.

Lemma parseOption_color (a a' : Args) (opt : OptCode) (x : mxArray) :
  color_ok (a_config a) → parseOption a opt x = Go a' → color_ok (a_config a').
Proof.
  intros (H1 & H2 & H3 & H4) Hp. destruct opt; cbn in Hp; parse_cases Hp.
  all: unfold color_ok, in_unit_range; cbn.
  all: repeat split; try assumption; try reflexivity.
  all: repeat match goal with
       | H : nth_double _ _ = Go _ |- _ => unfold nth_double in H
       | H : match ?m with _ => _ end = Go _ |- _ => destruct m eqn:?; [|discriminate H]
       | H : Go _ = Go _ |- _ => injection H as <-
       | H : ?c = false |- negb ?c = true => rewrite H; reflexivity
       end.
  (* the average: a plain vector of three elements *)
  - rewrite length_fmap.
    match goal with H : negb (vlmxIsPlainVector x 3) = false |- _ =>
      apply negb_false_iff in H; unfold vlmxIsPlainVector in H end.
    destruct x as [dims pr| | |]; try discriminate.
    destruct dims as [|r [|c [|]]]; try discriminate.
    cbn [mxGetPr]. 
    match goal with H : _ && _ = true |- _ =>
      apply andb_true_iff in H as [_ H]; apply orb_true_iff in H as [H|H] end.
    + discriminate.
    + unfold sizeZ in *. lia.
Qed.

(** X2. After a successful option loop the contrast and the saturation
    deviations pass the range test of the parser, the brightness matrix has
    nine entries and the average has three. *)
Theorem X2_parsed_color_is_wellformed (n : Z) (opts : list (OptCode * mxArray)) (a : Args) :
  parseOptions (initialArgs n) opts = Go a → color_ok (a_config a).
Proof.
  intros Hp.
  refine (parseOptions_inv (fun a => color_ok (a_config a)) _ opts _ _ _ Hp).
  - intros a0 opt x a' H0 H1. exact (parseOption_color a0 a' opt x H0 H1).
  - repeat split.
Qed.

Lemma X2_parsed_color_is_wellformed_witness :
  color_ok (Cfg.with_color (defaultConfig (-1) (-1))
              [0.5; 0; 0; 0.5; 0; 0; 0; 0; 0.5]%float 0.25%float 0%float).
Proof.
  apply (X2_parsed_color_is_wellformed 0
           [(opt_brightness, Scenario.row [0.5]%float);
            (opt_contrast, Scenario.row [0.25]%float)]
           (with_config (initialArgs 0)
              (Cfg.with_color (defaultConfig (-1) (-1))
                 [0.5; 0; 0; 0.5; 0; 0; 0; 0; 0.5]%float 0.25%float 0%float))).
  vm_compute. reflexivity.
Defined.

(** *** Order of doubles *)
Lemma SF_not_lt_le (x y : spec_float) :
  SFeqb x x = true → SFeqb y y = true → SFltb x y = false → SFleb y x = true.
Proof.
  unfold SFeqb, SFltb, SFleb.
  destruct x as [sx|sx| |sx mx ex], y as [sy|sy| |sy my ey]; cbn; try discriminate;
    intros _ _.
  all: try destruct sx; try destruct sy; cbn; try discriminate; try reflexivity.
  all: sf_cases; cbn; intros; try discriminate; try reflexivity; try lia.
Qed.

Lemma SF_le_trans (x y z : spec_float) :
  SFleb x y = true → SFleb y z = true → SFleb x z = true.
Proof.
  unfold SFleb.
  destruct x as [sx|sx| |sx mx ex], y as [sy|sy| |sy my ey], z as [sz|sz| |sz mz ez];
    cbn; try discriminate.
  all: try destruct sx; try destruct sy; try destruct sz; cbn; try discriminate;
    try reflexivity.
  all: sf_cases; cbn; intros; try discriminate; try reflexivity; try lia.
Qed.

Lemma float_not_lt_le (x y : float) :
  is_nan x = false → is_nan y = false → (x <? y)%float = false → (y <=? x)%float = true.
Proof.
  unfold is_nan. rewrite !negb_false_iff, !FloatAxioms.eqb_spec, ltb_spec, leb_spec.
  apply SF_not_lt_le.
Qed.

Lemma float_le_trans (x y z : float) :
  (x <=? y)%float = true → (y <=? z)%float = true → (x <=? z)%float = true.
Proof. rewrite !leb_spec. apply SF_le_trans. Qed.


(** X3. A CROPSIZE pair that the parser accepts and whose components are
    not NaN passes the three assertions of [Batch::setCropSize], whether
    assertions are compiled in or not: the setter stores the pair. *)
Theorem X3_parsed_crop_size_passes_assertions {R : Type} (env : Env R) (a a' : Args)
    (x : mxArray) (b : Batch) :
  parseOption a opt_crop_size x = Go a' →
  is_nan (minCropSize (a_config a')) = false →
  is_nan (maxCropSize (a_config a')) = false →
  setCropSize env b (minCropSize (a_config a')) (maxCropSize (a_config a'))
  = Some (set_config b (Cfg.with_crop_size (config b)
                          (minCropSize (a_config a')) (maxCropSize (a_config a')))).
Proof.
  intros Hp. cbn in Hp. parse_cases Hp. cbn.
  match goal with H : _ || _ || _ = false |- _ =>
    apply orb_false_iff in H as [H H3]; apply orb_false_iff in H as [H1 H2] end.
  intros Hlo Hhi.
  assert (N0 : is_nan 0%float = false) by reflexivity.
  assert (N1 : is_nan 1%float = false) by reflexivity.
  pose proof (float_not_lt_le _ _ Hlo N0 H1) as L1.
  pose proof (float_not_lt_le _ _ Hhi Hlo H2) as L2.
  pose proof (float_not_lt_le _ _ N1 Hhi H3) as L3.
  pose proof (float_le_trans _ _ _ L1 L2) as L4.
  pose proof (float_le_trans _ _ _ L2 L3) as L5.
  unfold setCropSize, c_assert. rewrite L1, L2, L3, L4, L5. cbn.
  rewrite !orb_true_r. reflexivity.
Qed.

Lemma X3_parsed_crop_size_passes_assertions_witness :
  setCropSize (Scenario.env false) (batch (Scenario.loaded ([], []))) 0.5%float 1%float
  = Some (set_config (batch (Scenario.loaded ([], [])))
            (Cfg.with_crop_size (config (batch (Scenario.loaded ([], []))))
               0.5%float 1%float)).
Proof.
  apply (X3_parsed_crop_size_passes_assertions (Scenario.env false) (initialArgs 0)
           (with_config (initialArgs 0)
              (Cfg.with_crop_size (defaultConfig (-1) (-1)) 0.5%float 1%float))
           (Scenario.row [0.5; 1]%float)).
  - vm_compute. reflexivity.
  - vm_compute. reflexivity.
  - vm_compute. reflexivity.
Defined.

(** *** The pool of readers *)
Lemma parseOption_numThreads_keep (a a' : Args) (opt : OptCode) (x : mxArray) :
  opt ≠ opt_num_threads → parseOption a opt x = Go a' →
  a_requestedNumThreads a' = a_requestedNumThreads a.
Proof.
  intros Ho Hp. destruct opt; try congruence; cbn in Hp; parse_cases Hp.
  all: reflexivity.
Qed.

Lemma parseOptions_numThreads_keep (opts : list (OptCode * mxArray)) (a a' : Args) :
  (∀ x, ¬ In (opt_num_threads, x) opts) → parseOptions a opts = Go a' →
  a_requestedNumThreads a' = a_requestedNumThreads a.
Proof.
  revert a. induction opts as [|[o x] opts IH]; intros a Hno Hp.
  - injection Hp as <-. reflexivity.
  - cbn [parseOptions] in Hp.
    destruct (parseOption a o x) as [a1|h] eqn:E; [|discriminate].
    rewrite (IH a1); [|intros y Hy; apply (Hno y); right; exact Hy|exact Hp].
    apply (parseOption_numThreads_keep a a1 o x); [|exact E].
    intros ->. apply (Hno x). left. reflexivity.
Qed.

(** X4. A call without the option NumThreads on a pool that is not empty
    leaves the pool as it is, however the call ends. *)
Theorem X4_pool_kept_without_NumThreads {R : Type} (env : Env R) (w : World R)
    (fn : option mxArray) (opts : list (OptCode * mxArray)) :
  readers w ≠ [] →
  (∀ x, ¬ In (opt_num_threads, x) opts) →
  readers (world (mexFunction env w fn opts)) = readers w.
Proof.
  intros Hne Hno. unfold mexFunction.
  destruct fn as [fn|]; [|reflexivity].
  destruct (parseOptions _ opts) as [a|h] eqn:Hp; [|reflexivity].
  destruct fn; try reflexivity.
  rewrite (parseOptions_numThreads_keep opts _ a Hno Hp). cbn [initialArgs a_requestedNumThreads].
  assert (Hr : readers (prepareBatch w) = readers w)
    by (unfold prepareBatch; destruct (batchIsInitialized w); reflexivity).
  assert (Hsz : 1 <= sizeZ (readers w))
    by (unfold sizeZ; destruct (readers w); [congruence|cbn [length]; lia]).
  unfold prepareReaders. rewrite Hr, Z.max_l by lia. rewrite Z.eqb_refl.
  cbn [fst snd]. rewrite dispatch_readers. exact Hr.
Qed.

Lemma createReaders_fresh (q : bool) (m : nat) :
  ∀ (k : nat),
    createReaders q (seqZ (Z.of_nat k) (Z.of_nat m)) (startedReader <$> seqZ 0 (Z.of_nat k))
    = (startedReader <$> seqZ 0 (Z.of_nat (k + m)), Go ()).
Proof.
  induction m as [|m IH]; intros k.
  - rewrite Nat.add_0_r. reflexivity.
  - rewrite seqZ_cons by lia. cbn [createReaders].
    rewrite Nat2Z.id.
    assert (Hlen : length (startedReader <$> seqZ 0 (Z.of_nat k)) = k)
      by (rewrite length_fmap, length_seqZ; lia).
    rewrite lookup_app_r by lia. rewrite Hlen, Nat.sub_diag. cbn [lookup list_lookup].
    unfold ReaderTask_init. cbn [rt_thread andb].
    rewrite insert_app_r_alt by lia. rewrite Hlen, Nat.sub_diag. cbn [insert list_insert].
    assert (Hs : (startedReader <$> seqZ 0 (Z.of_nat k)) ++ [startedReader (Z.of_nat k)]
                 = startedReader <$> seqZ 0 (Z.of_nat (S k))).
    { replace (Z.of_nat (S k)) with (Z.of_nat k + 1) by lia.
      rewrite seqZ_app by lia. rewrite fmap_app. reflexivity. }
    unfold startedReader at 2 in Hs. rewrite Hs.
    replace (Z.succ (Z.of_nat k)) with (Z.of_nat (S k)) by lia.
    replace (Z.pred (Z.of_nat (S m))) with (Z.of_nat m) by lia.
    rewrite IH. do 3 f_equal. lia.
Qed.

(** X5. From an empty pool, a call whose options parse creates exactly
    max(n, 1) reader tasks for a requested count n: the task at position r
    is initialised with index r and its thread runs. *)
Theorem X5_pool_created_from_empty {R : Type} (env : Env R) (w : World R)
    (cells : list mxArray) (opts : list (OptCode * mxArray)) (a : Args) :
  readers w = [] →
  parseOptions (initialArgs (sizeZ (readers w))) opts = Go a →
  readers (world (mexFunction env w (Some (mxCell cells)) opts))
  = startedReader <$> seqZ 0 (Z.max (a_requestedNumThreads a) 1).
Proof.
  intros Hr Hp. unfold mexFunction. rewrite Hp.
  assert (Hr1 : readers (prepareBatch w) = [])
    by (unfold prepareBatch; destruct (batchIsInitialized w); exact Hr).
  set (n := Z.max (a_requestedNumThreads a) 1).
  assert (Hn : 1 <= n) by lia.
  unfold prepareReaders. rewrite Hr1. change (sizeZ (@nil ReaderTask)) with 0.
  destruct (0 =? n) eqn:E; [lia|].
  pose proof (createReaders_fresh (quit (batch (prepareBatch w))) (Z.to_nat n) 0) as Hc.
  cbn [Nat.add] in Hc. change (Z.of_nat 0) with 0 in Hc. rewrite Z2Nat.id in Hc by lia.
  change (startedReader <$> seqZ 0 0) with (@nil ReaderTask) in Hc.
  rewrite Hc. cbn [fst snd]. rewrite dispatch_readers. reflexivity.
Qed.

Lemma X5_pool_created_from_empty_witness :
  readers (world (mexFunction (Scenario.env false) (Scenario.loaded ([], []))
                    (Some (mxCell [])) [(opt_num_threads, Scenario.row [3]%float)]))
  = [startedReader 0; startedReader 1; startedReader 2].
Proof.
  apply (X5_pool_created_from_empty (Scenario.env false) (Scenario.loaded ([], [])) []
           [(opt_num_threads, Scenario.row [3]%float)]
           {| a_prefetch := false; a_requestedNumThreads := 3; a_verbosity := 0;
              a_config := defaultConfig (-1) (-1) |}).
  - reflexivity.
  - vm_compute. reflexivity.
Defined.

Lemma X4_pool_kept_without_NumThreads_witness :
  readers (world (mexFunction (Scenario.env false) (Scenario.started ([], []))
                    (Some (mxCell [mxChar "small.jpg"])) [(opt_flip, mxOther)]))
  = readers (Scenario.started ([], [])).
Proof.
  apply (X4_pool_kept_without_NumThreads (Scenario.env false)).
  - vm_compute. discriminate.
  - intros x [H|[]]. discriminate H.
Defined.

(** *** Unloading *)
Section ExitFacts.
Context {R : Type} (env : Env R).

Lemma ReaderTask_init_finalize (q : bool) (rt : ReaderTask) (i : Z) :
  ReaderTask_init q rt i
  = flow_bind (ReaderTask_finalize q rt) (fun _ => Go {| rt_index := i; rt_thread := true |}).
Proof. unfold ReaderTask_init, ReaderTask_finalize. destruct (_ && _); reflexivity. Qed.

Lemma finalizeReaders_quit (rs : list ReaderTask) : finalizeReaders true rs = Go ().
Proof.
  induction rs as [|rt rs IH]; [reflexivity|].
  cbn [finalizeReaders]. unfold ReaderTask_finalize. rewrite andb_false_r. exact IH.
Qed.

Lemma collect_initialized (w : World R) (a : Args) (n : nat)
    (log : list LogEntry) (reg : list string) :
  batchIsInitialized (world (collect env w a n log reg)) = batchIsInitialized w.
Proof.
  unfold collect. destruct (a_prefetch a); [reflexivity|].
  destruct (fst (sync env (batch w))); [|reflexivity].
  destruct (getPackingMethod _); [|reflexivity].
  destruct (fst (emitItems _ _ _ _ _)); reflexivity.
Qed.

Lemma dispatch_initialized (w : World R) (a : Args) (cells : list mxArray) :
  batchIsInitialized (world (dispatch env w a cells)) = batchIsInitialized w.
Proof.
  unfold dispatch.
  destruct (extractFilenames _ cells 0 [] true) as [[fns same]|]; [|reflexivity].
  destruct same; [apply collect_initialized|].
  destruct (startCycle env w a fns) as [res|[w3 log]] eqn:E.
  - unfold startCycle in E.
    destruct (packingMethod (a_config a)), (resizeMethod (a_config a)).
    all: try (injection E as <-; reflexivity).
    all: destruct (applyConfig env _ _); [|injection E as <-; reflexivity].
    all: destruct (fst (fst (prefetch env _ _))); [discriminate|].
    all: injection E as <-; reflexivity.
  - rewrite collect_initialized.
    exact (proj1 (proj2 (proj2 (startCycle_names env _ _ _ _ _ E)))).
Qed.

Lemma mexFunction_pool_needs_batch (w : World R) (fn : option mxArray)
    (opts : list (OptCode * mxArray)) :
  pool_needs_batch w → pool_needs_batch (world (mexFunction env w fn opts)).
Proof.
  intros Hw. unfold mexFunction.
  destruct fn as [fn|]; [|exact Hw].
  destruct (parseOptions _ opts) as [a|h]; [|exact Hw].
  destruct fn; try exact Hw.
  assert (Hi : batchIsInitialized
                 (fst (prepareReaders (prepareBatch w) (Z.max (a_requestedNumThreads a) 1)))
               = true).
  { rewrite (proj1 (prepareReaders_frame _ _)). exact (proj1 (prepareBatch_frame w)). }
  destruct (snd (prepareReaders _ _)).
  - left. rewrite dispatch_initialized. exact Hi.
  - left. exact Hi.
Qed.

End ExitFacts.

(** X6. Readers exist only once the batch is initialised, and every call
    of [mexFunction] keeps it so. In such a state [atExit] returns: the
    pool is left empty and the batch uninitialised; an initialised batch
    has been finalised, that is emptied and told to quit. *)
Theorem X6_atExit_releases_everything {R : Type} (env : Env R) (w : World R) :
  pool_needs_batch w →
  (∀ fn opts, pool_needs_batch (world (mexFunction env w fn opts)))
  ∧ snd (atExit w) = Go ()
  ∧ readers (fst (atExit w)) = []
  ∧ batchIsInitialized (fst (atExit w)) = false
  ∧ (batchIsInitialized w = true →
     quit (batch (fst (atExit w))) = true ∧ items (batch (fst (atExit w))) = []).
Proof.
  intros Hw. split; [intros fn opts; exact (mexFunction_pool_needs_batch env w fn opts Hw)|].
  unfold atExit. destruct Hw as [Hi|Hr].
  - rewrite Hi. change (quit (finalize (batch w))) with true.
    rewrite finalizeReaders_quit. repeat split.
  - rewrite Hr. cbn [finalizeReaders fst snd readers batchIsInitialized batch].
    repeat split; destruct (batchIsInitialized w); try reflexivity; discriminate.
Qed.

Lemma X6_atExit_releases_everything_witness :
  snd (atExit (Scenario.started ([], []))) = Go ()
  ∧ readers (fst (atExit (Scenario.started ([], [])))) = [].
Proof.
  destruct (X6_atExit_releases_everything (Scenario.env false) (Scenario.started ([], [])))
    as (_ & H1 & H2 & _).
  - left. vm_compute. reflexivity.
  - split; [exact H1|exact H2].
Defined.

(** *** The scratch buffers of a reader *)
Lemma free_defined (h : Heap) (p : nat) :
  p ∈ h → ∃ h', free h p = Some h' ∧ ∀ q, q ∈ h' ↔ q ∈ h ∧ q ≠ p.
Proof.
  intros Hp. unfold free. rewrite bool_decide_eq_true_2 by exact Hp.
  eexists. split; [reflexivity|]. intros q. rewrite list_elem_of_filter. tauto.
Qed.

Section BufferFacts.
Variable malloc : Heap → Z → option nat.
Hypothesis malloc_fresh : ∀ h sz p, malloc h sz = Some p → p ∉ h.

Lemma holds_insert (bs : list Buffer.t) (i j : nat) (nb : Buffer.t) (p : nat) :
  (i < length bs)%nat →
  holds (<[i := nb]> bs) j p ↔ (j = i ∧ Buffer.memory nb = Some p) ∨ (j ≠ i ∧ holds bs j p).
Proof.
  intros Hi. unfold holds. split.
  - intros (b & Hb & Hm). apply list_lookup_insert_Some in Hb as [(-> & -> & _)|(Hne & Hb)].
    + left. split; [reflexivity|exact Hm].
    + right. split; [congruence|]. exists b. split; assumption.
  - intros [(-> & Hm)|(Hne & b & Hb & Hm)].
    + exists nb. split; [|exact Hm]. apply list_lookup_insert_eq. exact Hi.
    + exists b. split; [|exact Hm]. rewrite list_lookup_insert_ne by congruence. exact Hb.
Qed.

Lemma replace_held (h0 h h1 : Heap) (bs : list Buffer.t) (i : nat) (b : Buffer.t)
    (m : option nat) (sz : Z) :
  held h0 h bs → bs !! i = Some b →
  (∀ q, q ∈ h1 ↔ q ∈ h ∧ Buffer.memory b ≠ Some q) →
  (∀ p, m = Some p → p ∉ h1) →
  held h0 (match m with Some p => p :: h1 | None => h1 end)
       (<[i := {| Buffer.memory := m; Buffer.size := sz |}]> bs).
Proof.
  intros (Hlen & Hinj & Hfr & Hh) Hb Hh1 Hm.
  assert (Hi : (i < length bs)%nat) by (apply lookup_lt_is_Some; eauto).
  assert (Hold : ∀ q, Buffer.memory b = Some q → holds bs i q) by (intros q Hq; exists b; tauto).
  assert (Hnew : ∀ p, m = Some p → (p ∉ h0) ∧ (∀ j, j ≠ i → ¬ holds bs j p)).
  { intros p Hp. specialize (Hm p Hp). split.
    - intros Hin. apply Hm, Hh1. split; [apply Hh; left; exact Hin|].
      intros Hq. exact (Hfr i p (Hold p Hq) Hin).
    - intros j Hj Hjp. apply Hm, Hh1. split; [apply Hh; right; eauto|].
      intros Hq. apply Hj. exact (Hinj j i p Hjp (Hold p Hq)). }
  split; [rewrite length_insert; exact Hlen|]. split; [|split].
  - intros j k p Hj Hk. apply holds_insert in Hj; [|exact Hi].
    apply holds_insert in Hk; [|exact Hi]. cbn [Buffer.memory] in *.
    destruct Hj as [(-> & Hj)|(Hj1 & Hj2)], Hk as [(-> & Hk)|(Hk1 & Hk2)].
    + reflexivity.
    + exfalso. exact (proj2 (Hnew p Hj) k Hk1 Hk2).
    + exfalso. exact (proj2 (Hnew p Hk) j Hj1 Hj2).
    + exact (Hinj j k p Hj2 Hk2).
  - intros j p Hj. apply holds_insert in Hj; try exact Hi. cbn [Buffer.memory] in *.
    destruct Hj as [(-> & Hj)|(Hj1 & Hj2)]; [exact (proj1 (Hnew p Hj))|exact (Hfr j p Hj2)].
  - intros q.
    assert (Hq1 : q ∈ h1 ↔ q ∈ h0 ∨ ∃ j, j ≠ i ∧ holds bs j q).
    { rewrite Hh1, Hh. split.
      - intros [[H|[j Hj]] Hne]; [left; exact H|]. right. exists j. split; [|exact Hj].
        intros ->. destruct Hj as (b' & Hb' & Hm'). congruence.
      - intros [H|(j & Hne & Hj)].
        + split; [left; exact H|]. intros Hq. exact (Hfr i q (Hold q Hq) H).
        + split; [right; eauto|]. intros Hq. apply Hne. exact (Hinj j i q Hj (Hold q Hq)). }
    assert (Hq2 : (∃ j, holds (<[i := {| Buffer.memory := m; Buffer.size := sz |}]> bs) j q)
                  ↔ m = Some q ∨ ∃ j, j ≠ i ∧ holds bs j q).
    { split.
      - intros [j Hj]. apply holds_insert in Hj; try exact Hi. cbn [Buffer.memory] in Hj.
        destruct Hj as [(-> & Hj)|(Hj1 & Hj2)]; [left; exact Hj|right; eauto].
      - intros [H|(j & Hne & Hj)].
        + exists i. apply holds_insert; [exact Hi|]. left. split; [reflexivity|exact H].
        + exists j. apply holds_insert; [exact Hi|]. right. tauto. }
    rewrite Hq2. destruct m as [p|].
    + rewrite elem_of_cons, Hq1. split.
      * intros [->|[H|H]]; [right; left; reflexivity|left; exact H|right; right; exact H].
      * intros [H|[[= ->]|H]]; [right; left; exact H|left; reflexivity|right; right; exact H].
    + rewrite Hq1. split.
      * intros [H|H]; [left; exact H|right; right; exact H].
      * intros [H|[H|H]]; [left; exact H|discriminate H|right; exact H].
Qed.

Lemma getBuffer_held (h0 h : Heap) (bs : list Buffer.t) (i sz : Z) :
  held h0 h bs → i = 0 ∨ i = 1 →
  ∃ m bs' h', getBuffer malloc h bs i sz = Some (m, bs', h') ∧ held h0 h' bs'.
Proof.
  intros Hheld Hi.
  assert (Hlen : length bs = 2%nat) by exact (proj1 Hheld).
  assert (H0 : (i <? 0) = false) by (destruct Hi as [-> | ->]; reflexivity).
  destruct (bs !! Z.to_nat i) as [b|] eqn:Hb.
  2:{ apply lookup_ge_None in Hb. destruct Hi as [-> | ->]; cbn in Hb; lia. }
  unfold getBuffer. rewrite H0, Hb. cbn [mbind option_bind].
  destruct (Buffer.size b <? sz); [|do 3 eexists; split; [reflexivity|exact Hheld]].
  destruct (Buffer.memory b) as [p|] eqn:Em.
  - assert (Hp : p ∈ h).
    { apply (proj2 (proj2 (proj2 Hheld))). right. exists (Z.to_nat i), b. tauto. }
    destruct (free_defined h p Hp) as (h1 & -> & Hh1). cbn [mbind option_bind].
    do 3 eexists. split; [reflexivity|].
    apply (replace_held h0 h h1 bs (Z.to_nat i) b _ sz Hheld Hb).
    + intros q. rewrite Hh1, Em. split; intros [H1 H2]; (split; [exact H1|congruence]).
    + intros q Hq. exact (malloc_fresh _ _ _ Hq).
  - cbn [mbind option_bind]. do 3 eexists. split; [reflexivity|].
    apply (replace_held h0 h h bs (Z.to_nat i) b _ sz Hheld Hb).
    + intros q. rewrite Em. split; [intros H; split; [exact H|discriminate]|tauto].
    + intros q Hq. exact (malloc_fresh _ _ _ Hq).
Qed.

Lemma getBuffers_held (h0 : Heap) (reqs : list (Z * Z)) :
  ∀ h bs,
    held h0 h bs → (∀ r, r ∈ reqs → fst r = 0 ∨ fst r = 1) →
    ∃ bs' h', getBuffers malloc h bs reqs = Some (bs', h') ∧ held h0 h' bs'.
Proof.
  induction reqs as [|[i sz] reqs IH]; intros h bs Hheld Hidx.
  - do 2 eexists. split; [reflexivity|exact Hheld].
  - destruct (getBuffer_held h0 h bs i sz Hheld) as (m & bs1 & h1 & E & Hheld1).
    { apply (Hidx (i, sz)). left. }
    cbn [getBuffers]. rewrite E. cbn [mbind option_bind fst snd].
    apply IH; [exact Hheld1|]. intros r Hr. apply Hidx. right. exact Hr.
Qed.

End BufferFacts.

Lemma holds_cons_0 (b : Buffer.t) (bs : list Buffer.t) (p : nat) :
  holds (b :: bs) 0 p ↔ Buffer.memory b = Some p.
Proof.
  unfold holds. cbn. split; [intros (b' & [= <-] & H); exact H|eauto].
Qed.

Lemma holds_cons_S (b : Buffer.t) (bs : list Buffer.t) (i : nat) (p : nat) :
  holds (b :: bs) (S i) p ↔ holds bs i p.
Proof. reflexivity. Qed.

Lemma finalizeBuffers_spec (bs : list Buffer.t) :
  ∀ h,
    (∀ i j p, holds bs i p → holds bs j p → i = j) →
    (∀ i p, holds bs i p → p ∈ h) →
    ∃ bs' h', finalizeBuffers h bs = Some (bs', h')
              ∧ (∀ q, q ∈ h' ↔ q ∈ h ∧ ¬ ∃ i, holds bs i q)
              ∧ Forall (λ b, Buffer.memory b = None) bs'
              ∧ length bs' = length bs.
Proof.
  induction bs as [|b bs IH]; intros h Hinj Hin.
  - do 2 eexists. split; [reflexivity|]. split; [|split; [constructor|reflexivity]].
    intros q. split; [intros H; split; [exact H|]|tauto].
    intros (i & b & Hb & _). discriminate Hb.
  - cbn [finalizeBuffers]. destruct (Buffer.memory b) as [p|] eqn:Em.
    + assert (Hp : p ∈ h) by (apply (Hin 0%nat), holds_cons_0, Em).
      destruct (free_defined h p Hp) as (h1 & -> & Hh1). cbn [mbind option_bind].
      destruct (IH h1) as (bs' & h' & -> & Hh' & Hall & Hlen).
      * intros i j q Hi Hj. assert (S i = S j) by (apply (Hinj _ _ q); assumption). lia.
      * intros i q Hi. apply Hh1. split; [apply (Hin (S i)), Hi|].
        intros ->. assert (S i = 0%nat); [|lia].
        apply (Hinj _ _ p); [exact Hi|apply holds_cons_0, Em].
      * cbn [mbind option_bind fst snd]. do 2 eexists. split; [reflexivity|].
        split; [|split; [constructor; [reflexivity|exact Hall]|cbn; lia]].
        intros q. rewrite Hh', Hh1. split.
        -- intros [[H1 H2] H3]. split; [exact H1|]. intros [[|i] Hi].
           ++ apply holds_cons_0 in Hi. congruence.
           ++ apply H3. exists i. exact Hi.
        -- intros [H1 H2]. split; [split; [exact H1|]|].
           ++ intros ->. apply H2. exists 0%nat. apply holds_cons_0, Em.
           ++ intros [i Hi]. apply H2. exists (S i). exact Hi.
    + destruct (IH h) as (bs' & h' & -> & Hh' & Hall & Hlen).
      * intros i j q Hi Hj. assert (S i = S j) by (apply (Hinj _ _ q); assumption). lia.
      * intros i q Hi. apply (Hin (S i)), Hi.
      * cbn [mbind option_bind fst snd]. do 2 eexists. split; [reflexivity|].
        split; [|split; [constructor; [exact Em|exact Hall]|cbn; lia]].
        intros q. rewrite Hh'. split.
        -- intros [H1 H3]. split; [exact H1|]. intros [[|i] Hi].
           ++ apply holds_cons_0 in Hi. congruence.
           ++ apply H3. exists i. exact Hi.
        -- intros [H1 H2]. split; [exact H1|].
           intros [i Hi]. apply H2. exists (S i). exact Hi.
Qed.

Lemma newBuffers_held (h0 : Heap) : held h0 h0 newBuffers.
Proof.
  assert (N : ∀ i p, ¬ holds newBuffers i p).
  { intros [|[|i]] p (b & Hb & Hm); cbn in Hb; try discriminate Hb;
      injection Hb as <-; discriminate Hm. }
  split; [reflexivity|]. split; [|split].
  - intros i j p Hi. destruct (N i p Hi).
  - intros i p Hi. destruct (N i p Hi).
  - intros q. split; [tauto|]. intros [H|[i Hi]]; [exact H|destruct (N i q Hi)].
Qed.

(** X7. Under any allocator that hands out addresses not yet allocated,
    a run of [getBuffer] calls on the buffers 0 and 1 of a fresh task never
    frees a block that is not allocated, and the loop of [finalize] then
    frees every block the task holds: the allocated blocks are those of the
    initial heap again and both pointers are NULL. *)
Theorem X7_scratch_buffers_are_released (malloc : Heap → Z → option nat)
    (h0 : Heap) (reqs : list (Z * Z)) :
  (∀ h sz p, malloc h sz = Some p → p ∉ h) →
  (∀ r, r ∈ reqs → fst r = 0 ∨ fst r = 1) →
  ∃ bs h bs' h',
    getBuffers malloc h0 newBuffers reqs = Some (bs, h)
    ∧ finalizeBuffers h bs = Some (bs', h')
    ∧ (∀ q, q ∈ h' ↔ q ∈ h0)
    ∧ Forall (λ b, Buffer.memory b = None) bs'.
Proof.
  intros Hfresh Hidx.
  destruct (getBuffers_held malloc Hfresh h0 reqs h0 newBuffers (newBuffers_held h0) Hidx)
    as (bs & h & E & Hlen & Hinj & Hfr & Hh).
  destruct (finalizeBuffers_spec bs h Hinj) as (bs' & h' & E' & Hh' & Hall & _).
  { intros i p Hi. apply Hh. right. exists i. exact Hi. }
  exists bs, h, bs', h'. split; [exact E|]. split; [exact E'|]. split; [|exact Hall].
  intros q. rewrite Hh', Hh. split.
  - intros [[H|H] Hn]; [exact H|contradiction].
  - intros H. split; [left; exact H|]. intros [i Hi]. exact (Hfr i q Hi H).
Qed.

Lemma bumpAllocator_fresh (h : Heap) (sz : Z) (p : nat) :
  bumpAllocator h sz = Some p → p ∉ h.
Proof.
  intros [= <-] Hin.
  assert (G : ∀ q, q ∈ h → (q <= foldr Nat.max 0 h)%nat).
  { clear. induction h as [|x h IH]; intros q Hq.
    - apply elem_of_nil in Hq. destruct Hq.
    - cbn [foldr]. apply elem_of_cons in Hq as [->|Hq]; [lia|]. specialize (IH q Hq). lia. }
  specialize (G _ Hin). lia.
Qed.

Lemma X7_scratch_buffers_are_released_witness :
  let reqs := scratchRequests {| height := 4; width := 3; depth := 3 |} 4
              ++ scratchRequests {| height := 3; width := 5; depth := 3 |} 3 in
  ∃ bs h bs' h',
    getBuffers bumpAllocator [5%nat] newBuffers reqs = Some (bs, h)
    ∧ finalizeBuffers h bs = Some (bs', h')
    ∧ (∀ q, q ∈ h' ↔ q ∈ [5%nat])
    ∧ Forall (λ b, Buffer.memory b = None) bs'.
Proof.
  apply (X7_scratch_buffers_are_released bumpAllocator [5%nat]).
  - exact bumpAllocator_fresh.
  - intros r Hr. repeat (apply elem_of_cons in Hr as [->|Hr]; [cbn; lia|]).
    apply elem_of_nil in Hr. destruct Hr.
Defined.

Lemma maxRequest_cons (i j sz : Z) (reqs : list (Z * Z)) :
  maxRequest i ((j, sz) :: reqs)
  = if j =? i then Z.max sz (maxRequest i reqs) else maxRequest i reqs.
Proof. reflexivity. Qed.

Lemma maxRequest_nonneg (i : Z) (reqs : list (Z * Z)) : 0 <= maxRequest i reqs.
Proof.
  induction reqs as [|[j sz] reqs IH]; [cbn; lia|].
  rewrite maxRequest_cons. destruct (j =? i); lia.
Qed.

Lemma getBuffers_size (malloc : Heap → Z → option nat) (reqs : list (Z * Z)) :
  ∀ h bs bs' h' (i : nat) b,
    getBuffers malloc h bs reqs = Some (bs', h') →
    bs !! i = Some b → 0 <= Buffer.size b →
    ∃ b', bs' !! i = Some b'
          ∧ Buffer.size b' = Z.max (Buffer.size b) (maxRequest (Z.of_nat i) reqs)
          ∧ ((∀ h sz, is_Some (malloc h sz)) →
             (0 < Buffer.size b → is_Some (Buffer.memory b)) → 0 < Buffer.size b' → is_Some (Buffer.memory b')).
Proof.
  induction reqs as [|[j sz] reqs IH]; intros h bs bs' h' i b Hrun Hb H0.
  - injection Hrun as <- <-. exists b. split; [exact Hb|]. split; [cbn; lia|tauto].
  - cbn [getBuffers] in Hrun.
    destruct (getBuffer malloc h bs j sz) as [[[m bs1] h1]|] eqn:E; [|discriminate].
    cbn [mbind option_bind fst snd] in Hrun.
    unfold getBuffer in E.
    destruct (j <? 0) eqn:Hj; [discriminate|]. apply Z.ltb_ge in Hj.
    destruct (bs !! Z.to_nat j) as [bj|] eqn:Hbj; [|discriminate].
    cbn [mbind option_bind] in E. rewrite maxRequest_cons.
    destruct (Buffer.size bj <? sz) eqn:Hsz.
    + destruct (match Buffer.memory bj with Some p => free h p | None => Some h end) as [hf|];
        [|discriminate].
      cbn [mbind option_bind] in E. injection E as <- <- <-.
      destruct (decide (Z.to_nat j = i)) as [Heq|Hne].
      * subst i. rewrite Z2Nat.id, Z.eqb_refl by lia.
        assert (Hb1 : (<[Z.to_nat j := {| Buffer.memory := malloc hf sz; Buffer.size := sz |}]> bs)
                        !! Z.to_nat j = Some {| Buffer.memory := malloc hf sz; Buffer.size := sz |}).
        { apply list_lookup_insert_eq. apply lookup_lt_is_Some. eauto. }
        assert (bj = b) by congruence. subst bj. apply Z.ltb_lt in Hsz.
        destruct (IH _ _ _ _ _ _ Hrun Hb1) as (b' & Hb' & Hs & Hm); [cbn; lia|].
        exists b'. split; [exact Hb'|]. cbn [Buffer.size Buffer.memory] in *.
        rewrite Z2Nat.id in Hs by lia.
        split; [lia|]. intros Hok _ Hpos. apply Hm; [exact Hok| |exact Hpos].
        intros _. apply Hok.
      * assert (Hji : (j =? Z.of_nat i) = false) by (apply Z.eqb_neq; lia).
        rewrite Hji.
        apply (IH _ _ _ _ i b Hrun); [|exact H0].
        rewrite list_lookup_insert_ne by exact Hne. exact Hb.
    + injection E as <- <- <-. apply Z.ltb_ge in Hsz.
      destruct (IH _ _ _ _ i b Hrun Hb H0) as (b' & Hb' & Hs & Hm).
      exists b'. split; [exact Hb'|]. split; [|exact Hm].
      destruct (j =? Z.of_nat i) eqn:Hji; [|exact Hs].
      apply Z.eqb_eq in Hji. subst j. rewrite Nat2Z.id in Hbj.
      assert (bj = b) by congruence. subst bj. lia.
Qed.

(** X8. After any run of [getBuffer] calls from a fresh task the recorded
    size of a buffer is the largest size requested for it; when the
    allocator never fails, a buffer with a positive size has memory. *)
Theorem X8_scratch_buffer_capacity (malloc : Heap → Z → option nat) (h0 : Heap)
    (reqs : list (Z * Z)) (bs : list Buffer.t) (h : Heap) (i : nat) :
  getBuffers malloc h0 newBuffers reqs = Some (bs, h) →
  (i < 2)%nat →
  ∃ b, bs !! i = Some b
       ∧ Buffer.size b = maxRequest (Z.of_nat i) reqs
       ∧ ((∀ h sz, is_Some (malloc h sz)) → 0 < Buffer.size b → is_Some (Buffer.memory b)).
Proof.
  intros Hrun Hi.
  assert (Hb : newBuffers !! i = Some {| Buffer.memory := None; Buffer.size := 0 |})
    by (destruct i as [|[|i]]; [reflexivity|reflexivity|lia]).
  destruct (getBuffers_size malloc reqs _ _ _ _ i _ Hrun Hb) as (b & Hb' & Hs & Hm);
    [cbn; lia|].
  exists b. split; [exact Hb'|]. cbn [Buffer.size Buffer.memory] in *.
  pose proof (maxRequest_nonneg (Z.of_nat i) reqs). split; [lia|].
  intros Hok Hpos. apply Hm; [exact Hok|lia|exact Hpos].
Qed.

Lemma X8_scratch_buffer_capacity_witness :
  ∃ b, [ {| Buffer.memory := Some 8%nat; Buffer.size := 144 |}; {| Buffer.memory := Some 7%nat; Buffer.size := 36 |} ]
         !! 0%nat = Some b
       ∧ Buffer.size b = maxRequest 0 [(0, 48); (1, 36); (0, 144)]
       ∧ ((∀ h sz, is_Some (bumpAllocator h sz)) → 0 < Buffer.size b → is_Some (Buffer.memory b)).
Proof.
  apply (X8_scratch_buffer_capacity bumpAllocator [5%nat] [(0, 48); (1, 36); (0, 144)]
           _ [8%nat; 7%nat; 5%nat] 0).
  - vm_compute. reflexivity.
  - lia.
Defined.

(** *** The pack *)
Section PackFacts.
Context {R : Type} (env : Env R).

Lemma size_t_of_int_small (z : Z) : 0 <= z <= INT_MAX → size_t_of_int z = z.
Proof. unfold size_t_of_int, INT_MAX. intros H. apply Z.mod_small. lia. Qed.

Lemma prefetchItem_plan_fixed (cfg : Config) (it : Item.t) (r : R) :
  resizeMethod cfg = fixedSize →
  0 <= resizeHeight cfg <= INT_MAX → 0 <= resizeWidth cfg <= INT_MAX →
  ∃ p, Item.plan (fst (prefetchItem env cfg it r)) = Some p
       ∧ outputHeight p = Some (resizeHeight cfg)
       ∧ outputWidth p = Some (resizeWidth cfg).
Proof.
  intros Hm Hh Hw. unfold prefetchItem, gbind, gret. cbn [fst snd].
  set (bs0 := match Item.plan it with Some p => brightnessShift p | None => _ end).
  destruct (planItem_geometry env cfg (Item.shape it) bs0 r) as (H1 & H2 & _).
  set (p := fst (planItem env cfg (Item.shape it) bs0 r)) in *.
  exists p. split.
  - destruct (packingMethod cfg); reflexivity.
  - rewrite H1, H2. unfold outputSize. rewrite Hm. cbn [fst snd fmap option_fmap option_map].
    rewrite !size_t_of_int_small by assumption. split; reflexivity.
Qed.

End PackFacts.

(** X9. In packed mode with a fixed size h x w, [Batch::prefetch]
    allocates a pack of h*w*3 floats per item, and the item at position k
    is planned with a slab that starts at offset h*w*3*k and ends within
    the pack. *)
Theorem X9_packed_slabs_lie_in_pack {R : Type} (env : Env R) (b b' : Batch) (r : R)
    (log : list LogEntry) :
  indexed (items b) →
  packingMethod (config b) = singleArray →
  resizeMethod (config b) = fixedSize →
  1 <= resizeHeight (config b) <= INT_MAX →
  1 <= resizeWidth (config b) <= INT_MAX →
  fst (prefetch env b r) = (Go b', log) →
  let h := resizeHeight (config b) in
  let w := resizeWidth (config b) in
  ∃ t, cpuPack b' = Some t
       ∧ Z.of_nat (length (tdata t)) = slabLength h w * Z.of_nat (length (items b'))
       ∧ ∀ (k : nat) it, items b' !! k = Some it →
           ∃ p, Item.plan it = Some p
                ∧ packOffset p (Item.index it) = Some (slabLength h w * Z.of_nat k)
                ∧ slabLength h w * Z.of_nat k + slabLength h w
                  <= Z.of_nat (length (tdata t)).
Proof.
  intros Hidx Hpack Hfix Hh Hw Hpf h w.
  unfold prefetch, sync in Hpf.
  destruct (runWorkers_frame env (length (items b)) b) as (Hlen & _ & Hcfg & Hn).
  destruct (Hn Hidx) as [Hix _]. fold (drain env b) in Hlen, Hcfg, Hix.
  set (d := drain env b) in *. cbn [fst snd] in Hpf.
  destruct (forallb _ _); [|cbn in Hpf; discriminate].
  unfold allocatePack in Hpf. rewrite Hcfg, Hpack, Hfix in Hpf.
  unfold c_assert in Hpf. rewrite orb_true_r in Hpf. cbn [mbind option_bind] in Hpf.
  unfold gbind, gret in Hpf. cbn [fst snd] in Hpf. injection Hpf as <- _.
  cbn [cpuPack items set_items set_counters set_packs config].
  rewrite Hcfg. fold h w.
  destruct (prefetchItems_spec env (config b) (items (fst d)) r) as [Hl Hk].
  eexists. split; [reflexivity|].
  assert (Hsize : Z.of_nat (length (tdata (allocate h w 3 (sizeZ (items (fst d))))))
                  = slabLength h w * Z.of_nat (length (items (fst d)))).
  { unfold allocate, slabLength, sizeZ. cbn [tdata]. rewrite length_replicate.
    rewrite Z2Nat.id; [lia|]. subst h w. nia. }
  split; [rewrite Hsize, Hl; reflexivity|].
  intros k it' Hit'. destruct (Hk k it' Hit') as (it & rk & Hit & ->).
  destruct (prefetchItem_plan_fixed env (config b) it rk Hfix) as (p & Hp & Hoh & How);
    [lia|lia|].
  exists p. split; [exact Hp|].
  rewrite (proj1 (proj2 (prefetchItem_state env (config b) it rk))).
  rewrite (Hix k it Hit). unfold packOffset. rewrite Hoh, How. cbn [olift2]. fold h w.
  split; [unfold slabLength; f_equal; lia|].
  rewrite Hsize. apply lookup_lt_Some in Hit. unfold slabLength. subst h w. nia.
Qed.

Lemma X9_packed_slabs_lie_in_pack_witness :
  ∃ t, cpuPack Examples.packedPrefetched = Some t
       ∧ Z.of_nat (length (tdata t))
         = slabLength 2 2 * Z.of_nat (length (items Examples.packedPrefetched))
       ∧ ∀ (k : nat) it, items Examples.packedPrefetched !! k = Some it →
           ∃ p, Item.plan it = Some p
                ∧ packOffset p (Item.index it) = Some (slabLength 2 2 * Z.of_nat k)
                ∧ slabLength 2 2 * Z.of_nat k + slabLength 2 2
                  <= Z.of_nat (length (tdata t)).
Proof.
  apply (X9_packed_slabs_lie_in_pack (Scenario.env false) Examples.packedBatch
           Examples.packedPrefetched ([], []) Examples.packedLog).
  - exact (proj1 (registered_indexed (Scenario.env false)
                    ["small.jpg"; "wide.jpg"]%string
                    (set_config (init (batch (Scenario.loaded ([], []))))
                       Examples.cfgPacked) eq_refl)).
  - reflexivity.
  - reflexivity.
  - change (1 <= 2 <= INT_MAX). unfold INT_MAX. lia.
  - change (1 <= 2 <= INT_MAX). unfold INT_MAX. lia.
  - vm_compute. reflexivity.
Defined.

(** *** The queue drained by the workers *)
Section SyncFacts.
Context {R : Type} (env : Env R).

Lemma returnItem_counter (b : Batch) (it : Item.t) :
  numReturnedItems (returnItem env b it) = numReturnedItems b + 1.
Proof. unfold returnItem, putItem. destruct (_ <? 0); reflexivity. Qed.

Lemma entryPointTurn_settles (b b' : Batch) (l : list LogEntry) :
  entryPointTurn env b = Some (b', l) →
  indexed (items b) →
  ∃ it', items b' = <[Z.to_nat (nextItem b) := it']> (items b)
         ∧ settled it'
         ∧ numReturnedItems b' = numReturnedItems b + 1.
Proof.
  unfold entryPointTurn, borrowNextItem.
  destruct (quit b) eqn:Eq; [discriminate|].
  destruct (_ && _) eqn:Eb; [|discriminate].
  apply andb_true_iff in Eb as [E0 E1]. apply Z.leb_le in E0. apply Z.ltb_lt in E1.
  unfold getItem, putItem. rewrite (proj2 (Z.ltb_ge (nextItem b) 0)) by lia.
  destruct (items b !! Z.to_nat (nextItem b)) as [it|] eqn:E; [|discriminate].
  intros [= <- <-] Hidx.
  match goal with
  | |- context [returnItem env ?bb ?ii] => set (B := bb); set (I := ii)
  end.
  assert (HB : items B = <[Z.to_nat (nextItem b) := set_borrowed it true]> (items b)
               ∧ numReturnedItems B = numReturnedItems b) by (split; reflexivity).
  destruct HB as (HB1 & HB2).
  assert (Hwi : Item.index I = Item.index it).
  { subst I. apply (entryPointItem_index env _ _ (set_borrowed it true)). }
  pose proof (Hidx _ _ E) as Hit.
  destruct (returnItem_items env B I) as (it1 & Hr & Hr1 & _ & Hr3 & _); [lia|].
  assert (Hn : Z.to_nat (Item.index I) = Z.to_nat (nextItem b)) by (rewrite Hwi, Hit; lia).
  rewrite Hn, HB1, list_insert_insert_eq in Hr.
  exists it1. split; [exact Hr|]. split; [split; assumption|].
  rewrite returnItem_counter, HB2. reflexivity.
Qed.

Lemma runWorkers_settles (fuel : nat) :
  ∀ b,
    quit b = false → indexed (items b) →
    0 <= nextItem b <= sizeZ (items b) →
    sizeZ (items b) - nextItem b <= Z.of_nat fuel →
    let b' := fst (runWorkers env fuel b) in
    nextItem b' = sizeZ (items b)
    ∧ numReturnedItems b' = numReturnedItems b + (sizeZ (items b) - nextItem b)
    ∧ length (items b') = length (items b)
    ∧ (∀ (j : nat) it, items b' !! j = Some it →
         nextItem b <= Z.of_nat j → settled it)
    ∧ (∀ (j : nat), Z.of_nat j < nextItem b → items b' !! j = items b !! j).
Proof.
  induction fuel as [|fuel IH]; intros b Hq Hidx Hn Hf; cbn [runWorkers].
  - cbn [fst]. assert (nextItem b = sizeZ (items b)) by lia.
    split; [lia|]. split; [lia|]. split; [reflexivity|]. split; [|reflexivity].
    intros j it Hj Hle. apply lookup_lt_Some in Hj. unfold sizeZ in *. lia.
  - destruct (entryPointTurn env b) as [[b1 l1]|] eqn:E.
    + cbn [fst].
      destruct (entryPointTurn_frame env b b1 l1 E) as (Hlt & Hn1 & Hl1 & Hq1 & _ & _ & Hx).
      destruct (entryPointTurn_settles b b1 l1 E Hidx) as (it' & Hit' & Hs & Hc).
      destruct (IH b1) as (I1 & I2 & I3 & I4 & I5).
      * rewrite Hq1. exact Hq.
      * apply Hx, Hidx.
      * unfold sizeZ in *. rewrite Hl1. lia.
      * unfold sizeZ in *. rewrite Hl1. lia.
      * unfold sizeZ in *. rewrite Hl1 in *. split; [lia|]. split; [lia|].
        split; [lia|]. split.
        -- intros j it Hj Hle.
           destruct (decide (Z.of_nat j = nextItem b)) as [Heq|Hne].
           ++ rewrite I5 in Hj by lia. rewrite Hit', <- Heq, Nat2Z.id in Hj.
              rewrite list_lookup_insert_eq in Hj by lia.
              injection Hj as <-. exact Hs.
           ++ apply (I4 j it Hj). lia.
        -- intros j Hj. rewrite I5 by lia. rewrite Hit'.
           apply list_lookup_insert_ne. lia.
    + cbn [fst].
      assert (nextItem b = sizeZ (items b)).
      { unfold entryPointTurn, borrowNextItem in E. rewrite Hq in E.
        destruct ((0 <=? nextItem b) && (nextItem b <? sizeZ (items b))) eqn:Eb.
        - apply andb_true_iff in Eb as [E0 E1]. apply Z.ltb_lt in E1.
          unfold getItem in E. rewrite (proj2 (Z.ltb_ge (nextItem b) 0)) in E by lia.
          destruct (items b !! Z.to_nat (nextItem b)) eqn:El; [discriminate|].
          apply lookup_ge_None in El. unfold sizeZ in *. lia.
        - apply andb_false_iff in Eb as [E0|E1].
          + apply Z.leb_gt in E0. lia.
          + apply Z.ltb_ge in E1. lia. }
      split; [lia|]. split; [lia|]. split; [reflexivity|]. split; [|reflexivity].
      intros j it Hj Hle. apply lookup_lt_Some in Hj. unfold sizeZ in *. lia.
Qed.

End SyncFacts.

(** X11. On a batch that has not quit, whose items below the cursor are
    ready, [sync] returns once the workers have taken each remaining item
    in turn: every item is then ready, the items from the cursor on are in
    no worker's hands, the cursor is at the end and the count of returned
    items has grown by the number of items taken. On a batch that has quit
    the workers do nothing, and [sync] returns only if every item is ready
    already. *)
Theorem X11_sync_returns_with_all_items_ready {R : Type} (env : Env R) (b : Batch) :
  indexed (items b) →
  0 <= nextItem b <= sizeZ (items b) →
  (∀ (j : nat) it, items b !! j = Some it → Z.of_nat j < nextItem b →
     Item.state it = Item.ready) →
  (quit b = false →
   ∃ b', fst (sync env b) = Go b'
         ∧ nextItem b' = sizeZ (items b)
         ∧ numReturnedItems b' = numReturnedItems b + (sizeZ (items b) - nextItem b)
         ∧ itemNames b' = itemNames b
         ∧ (∀ it, it ∈ items b' → Item.state it = Item.ready)
         ∧ (∀ (j : nat) it, items b' !! j = Some it → nextItem b <= Z.of_nat j →
              Item.borrowed it = false))
  ∧ (quit b = true →
     sync env b = (if forallb (fun it => Item.State_eqb (Item.state it) Item.ready) (items b)
                   then Go b else Stop Blocked, [])).
Proof.
  intros Hidx Hn Hdone. split.
  - intros Hq. unfold sync, drain.
    destruct (runWorkers_settles env (length (items b)) b Hq Hidx Hn) as (H1 & H2 & H3 & H4 & H5);
      [unfold sizeZ; lia|].
    destruct (runWorkers_frame env (length (items b)) b) as (_ & _ & _ & Hx).
    destruct (Hx Hidx) as [_ Hnames].
    set (b' := fst (runWorkers env (length (items b)) b)) in *.
    assert (Hall : ∀ it, it ∈ items b' → Item.state it = Item.ready).
    { intros it Hin. apply list_elem_of_lookup in Hin as [j Hj].
      destruct (decide (Z.of_nat j < nextItem b)) as [Hlt|Hge].
      - rewrite H5 in Hj by exact Hlt. exact (Hdone j it Hj Hlt).
      - apply (H4 j it Hj). lia. }
    cbn [fst snd].
    assert (Hf : forallb (fun it => Item.State_eqb (Item.state it) Item.ready) (items b')
                 = true).
    { apply forallb_forall. intros it Hin. rewrite (Hall it); [reflexivity|].
      apply list_elem_of_In. exact Hin. }
    rewrite Hf. exists b'. repeat split; try assumption.
    intros j it Hj Hle. exact (proj2 (H4 j it Hj Hle)).
  - intros Hq. unfold sync, drain.
    rewrite (runWorkers_idle_start env (length (items b)) b); [reflexivity|].
    unfold entryPointTurn, borrowNextItem. rewrite Hq. reflexivity.
Qed.

Lemma X11_sync_returns_with_all_items_ready_witness :
  ∃ b', fst (sync (Scenario.env false) Examples.packedBatch) = Go b'
        ∧ nextItem b' = 2
        ∧ numReturnedItems b' = 2.
Proof.
  destruct (X11_sync_returns_with_all_items_ready (Scenario.env false) Examples.packedBatch)
    as [H _].
  - exact (proj1 (registered_indexed (Scenario.env false)
                    ["small.jpg"; "wide.jpg"]%string
                    (set_config (init (batch (Scenario.loaded ([], []))))
                       Examples.cfgPacked) eq_refl)).
  - vm_compute. split; discriminate.
  - intros j it _ Hj. exfalso. change (Z.of_nat j < 0) in Hj. lia.
  - destruct (H eq_refl) as (b' & H1 & H2 & H3 & _).
    exists b'. split; [exact H1|]. split; [exact H2|exact H3].
Defined.

(** *** Prefetching and collecting in two calls *)
Section TwoPhase.
Context {R : Type} (env : Env R).

Lemma settled_call (w : World R) (cells : list mxArray)
    (opts : list (OptCode * mxArray)) (a : Args) :
  batchIsInitialized w = true →
  parseOptions (initialArgs (sizeZ (readers w))) opts = Go a →
  Z.max (a_requestedNumThreads a) 1 = sizeZ (readers w) →
  mexFunction env w (Some (mxCell cells)) opts = dispatch env w a cells.
Proof.
  intros Hi Hp Hn. unfold mexFunction. rewrite Hp.
  unfold prepareBatch. rewrite Hi. unfold prepareReaders.
  rewrite Hn, Z.eqb_refl. reflexivity.
Qed.

(** The start of a cycle in individual mode: the batch left for the
    workers. *)
Lemma startCycle_individual (w : World R) (a : Args) (fns : list string) (b1 : Batch) :
  quit (batch w) = false →
  packingMethod (a_config a) = individualArrays →
  applyConfig env (clear (batch w)) (a_config a) = Go b1 →
  ∃ w' r',
    startCycle env w a fns
    = inr (w', concat (turnLog env (a_config a) <$> registeredItems env fns))
    ∧ items (batch w') = plannedItems env (a_config a) fns (rng w)
    ∧ nextItem (batch w') = 0 ∧ quit (batch w') = false
    ∧ config (batch w') = a_config a
    ∧ batchIsInitialized w' = batchIsInitialized w
    ∧ readers w' = readers w ∧ rng w' = r'.
Proof.
  intros Hq Hp Ha. unfold startCycle. rewrite Hp, Ha.
  apply applyConfig_frame in Ha as (A1 & A2 & A3 & _ & _ & A6).
  cbn [clear items set_counters set_items quit nextItem] in A1, A2, A3.
  destruct (registerItems_items env fns b1) as (G1 & G2 & G3 & G4 & _).
  rewrite A1 in G1. cbn [app] in G1.
  change (imap _ fns) with (registeredItems env fns) in G1.
  set (b2 := fold_left (registerItem env) fns b1) in *.
  destruct (sync_individual env b2) as (b3 & S1 & S2 & S3 & S4).
  { rewrite G3. exact A3. }
  { rewrite G2, A2. exact Hq. }
  { rewrite G4, A6. exact Hp. }
  { rewrite G1. apply imap_fresh_indexed. }
  rewrite G4, A6 in S1, S2, S3. rewrite G1 in S1, S2.
  fold (probedItems env (a_config a) fns) in S2.
  unfold prefetch. rewrite S1. cbn [fst snd].
  assert (Hal : allocatePack env b3 = Some b3).
  { unfold allocatePack. rewrite S3, Hp. reflexivity. }
  rewrite Hal. unfold gbind, gret. cbn [fst snd]. rewrite S2, S3.
  fold (plannedItems env (a_config a) fns (rng w)).
  do 2 eexists. split; [reflexivity|].
  cbn [batch with_batch items set_items set_counters nextItem quit config
       batchIsInitialized readers rng].
  repeat split; try assumption.
Qed.

(** What [collect] returns on a batch in individual mode whose cursor is
    at 0. *)
Lemma collect_individual (w : World R) (a : Args) (n : nat)
    (log : list LogEntry) (reg : list string) :
  a_prefetch a = false →
  nextItem (batch w) = 0 → quit (batch w) = false →
  packingMethod (config (batch w)) = individualArrays →
  indexed (items (batch w)) →
  n = length (items (batch w)) →
  let l := turnItem env (config (batch w)) <$> items (batch w) in
  outcome (collect env w a n log reg)
  = Go (Some (itemSlot (gpuMode (config (batch w))) <$> l))
  ∧ warnings (collect env w a n log reg) = itemWarning <$> List.filter failed l
  ∧ readerLog (collect env w a n log reg)
    = log ++ concat (turnLog env (config (batch w)) <$> items (batch w)).
Proof.
  intros Hnp Hn Hq Hp Hidx Hlen l. unfold collect. rewrite Hnp.
  destruct (sync_individual env (batch w) Hn Hq Hp Hidx) as (b5 & T1 & T2 & T3 & T4).
  rewrite T1. cbn [fst snd]. unfold getPackingMethod. rewrite T3, Hp, T2. fold l.
  assert (Hl : n = length l) by (subst l; rewrite length_fmap; exact Hlen).
  rewrite Hl.
  pose proof (emitItems_spec (gpuMode (config (batch w))) l [] []) as Hemit.
  cbn [length app] in Hemit. rewrite Hemit.
  cbn [fst snd app outcome warnings readerLog]. repeat split.
Qed.

End TwoPhase.

Section ReuseMore.
Context {R : Type} (env : Env R).

Lemma collect_keeps_config (w : World R) (a : Args) (n : nat)
    (log : list LogEntry) (reg : list string) :
  config (batch (world (collect env w a n log reg))) = config (batch w)
  ∧ rng (world (collect env w a n log reg)) = rng w
  ∧ readers (world (collect env w a n log reg)) = readers w.
Proof.
  unfold collect. destruct (a_prefetch a); [repeat split|].
  pose proof (proj1 (proj2 (proj2 (runWorkers_frame env (length (items (batch w))) (batch w)))))
    as Hc.
  unfold sync. fold (drain env (batch w)) in Hc. cbn [fst snd].
  destruct (forallb _ _); [|repeat split].
  unfold getPackingMethod. destruct (packingMethod _).
  - destruct (fst (emitItems _ _ _ _ _)); repeat split; exact Hc.
  - destruct (gpuMode _); repeat split; exact Hc.
Qed.

Lemma extractFilenames_rejects (b : Batch) (cells : list mxArray) :
  ∀ (i : Z) (acc : list string) (same : bool) (c : mxArray),
    c ∈ cells → vlmxIsString c (-1) = false →
    extractFilenames b cells i acc same
    = Stop (Raised "FILENAMES contains an entry that is not a string.").
Proof.
  induction cells as [|c0 cells IH]; intros i acc same c Hin Hc.
  - apply elem_of_nil in Hin. destruct Hin.
  - cbn [extractFilenames]. destruct (negb (vlmxIsString c0 (-1))) eqn:E; [reflexivity|].
    apply elem_of_cons in Hin as [->|Hin].
    + rewrite Hc in E. discriminate E.
    + exact (IH _ _ _ c Hin Hc).
Qed.

Lemma emitItems_overflow (gpu : bool) (l : list Item.t) :
  ∀ (i : nat) (out : list (option Tensor)) (warn : list string) (k : nat) (it : Item.t),
    l !! k = Some it → failed it = false → (length out <= i + k)%nat →
    fst (emitItems gpu l i out warn) = Stop Undefined.
Proof.
  induction l as [|it0 l IH]; intros i out warn k it Hk Hf Hlen; [discriminate Hk|].
  cbn [emitItems]. destruct (negb (is_success (Item.error it0))) eqn:E.
  - destruct k as [|k].
    + injection Hk as <-. unfold failed in Hf. congruence.
    + apply (IH (S i) out _ k it Hk Hf). lia.
  - destruct (i <? length out)%nat eqn:Ei; [|reflexivity].
    apply Nat.ltb_lt in Ei. destruct k as [|k]; [lia|].
    apply (IH (S i) _ warn k it Hk Hf). rewrite length_insert. lia.
Qed.

End ReuseMore.

(** X13. A call that reuses the prefetched batch leaves the configuration
    of the batch and the generators as they are, whatever its options, and
    registers nothing; with the option Prefetch it changes nothing at
    all. *)
Theorem X13_reuse_ignores_the_options {R : Type} (env : Env R) (w : World R)
    (cells : list mxArray) (opts : list (OptCode * mxArray)) (a : Args)
    (fns : list string) :
  batchIsInitialized w = true →
  parseOptions (initialArgs (sizeZ (readers w))) opts = Go a →
  Z.max (a_requestedNumThreads a) 1 = sizeZ (readers w) →
  extractFilenames (batch w) cells 0 [] true = Go (fns, true) →
  let r := mexFunction env w (Some (mxCell cells)) opts in
  config (batch (world r)) = config (batch w)
  ∧ rng (world r) = rng w
  ∧ registered r = []
  ∧ (a_prefetch a = true → world r = w ∧ outcome r = Go None ∧ readerLog r = []).
Proof.
  intros Hi Hp Hn He r. subst r. rewrite (reuse_call env w cells opts a fns Hi Hp Hn He).
  destruct (collect_keeps_config env w a (length cells) [] []) as (H1 & H2 & _).
  split; [exact H1|]. split; [exact H2|]. split; [apply collect_registered|].
  intros Hf. unfold collect. rewrite Hf. repeat split.
Qed.

Lemma X13_reuse_ignores_the_options_witness :
  let r := mexFunction (Scenario.env false) Examples.prefetchedTwo
             (Some (mxCell [mxChar "small.jpg"; mxChar "wide.jpg"]))
             [(opt_flip, mxOther); (opt_prefetch, mxOther)] in
  config (batch (world r)) = config (batch Examples.prefetchedTwo)
  ∧ rng (world r) = rng Examples.prefetchedTwo
  ∧ registered r = []
  ∧ (true = true → world r = Examples.prefetchedTwo ∧ outcome r = Go None
                   ∧ readerLog r = []).
Proof.
  apply (X13_reuse_ignores_the_options (Scenario.env false) Examples.prefetchedTwo
           [mxChar "small.jpg"; mxChar "wide.jpg"]
           [(opt_flip, mxOther); (opt_prefetch, mxOther)]
           {| a_prefetch := true; a_requestedNumThreads := 1; a_verbosity := 0;
              a_config := Cfg.with_flip (defaultConfig (-1) (-1)) true |}
           ["small.jpg"; "wide.jpg"]%string).
  all: vm_compute; reflexivity.
Defined.

(** X14. A cell of FILENAMES that is not a string makes the call raise
    after the pool is prepared and before the batch is looked at: nothing
    is registered, read or warned about, and when the pool already has the
    requested size the globals are untouched. *)
Theorem X14_bad_filename_cell_is_rejected {R : Type} (env : Env R) (w : World R)
    (cells : list mxArray) (opts : list (OptCode * mxArray)) (a : Args) (c : mxArray) :
  parseOptions (initialArgs (sizeZ (readers w))) opts = Go a →
  snd (prepareReaders (prepareBatch w) (Z.max (a_requestedNumThreads a) 1)) = Go () →
  c ∈ cells → vlmxIsString c (-1) = false →
  let r := mexFunction env w (Some (mxCell cells)) opts in
  outcome r = Stop (Raised "FILENAMES contains an entry that is not a string.")
  ∧ world r = fst (prepareReaders (prepareBatch w) (Z.max (a_requestedNumThreads a) 1))
  ∧ registered r = [] ∧ readerLog r = [] ∧ warnings r = []
  ∧ (batchIsInitialized w = true →
     Z.max (a_requestedNumThreads a) 1 = sizeZ (readers w) → world r = w).
Proof.
  intros Hp Hpool Hin Hc r. subst r. unfold mexFunction. rewrite Hp, Hpool.
  unfold dispatch. rewrite (extractFilenames_rejects _ cells 0 [] true c Hin Hc).
  cbn [stopped outcome world registered readerLog warnings]. repeat split.
  intros Hi Hn. unfold prepareBatch. rewrite Hi. unfold prepareReaders.
  rewrite Hn, Z.eqb_refl. reflexivity.
Qed.

Lemma X14_bad_filename_cell_is_rejected_witness :
  outcome (mexFunction (Scenario.env false) Examples.prefetchedTwo
             (Some (mxCell [mxChar "small.jpg"; mxOther])) [])
  = Stop (Raised "FILENAMES contains an entry that is not a string.")
  ∧ world (mexFunction (Scenario.env false) Examples.prefetchedTwo
             (Some (mxCell [mxChar "small.jpg"; mxOther])) [])
    = Examples.prefetchedTwo.
Proof.
  destruct (X14_bad_filename_cell_is_rejected (Scenario.env false) Examples.prefetchedTwo
              [mxChar "small.jpg"; mxOther] [] (initialArgs 1) mxOther)
    as (H1 & _ & _ & _ & _ & H6).
  - vm_compute. reflexivity.
  - vm_compute. reflexivity.
  - right. left.
  - reflexivity.
  - split; [exact H1|]. apply H6; vm_compute; reflexivity.
Defined.

(** X15. A collecting call is taken as a reuse when its names are a
    prefix of the prefetched ones. In individual mode the result then has
    one cell per incoming name while the loop of lines 1255-1264 runs over
    every item of the batch: an item without error at a position past the
    incoming names is stored outside the cell array. *)
Theorem X15_shorter_list_overruns_the_output {R : Type} (env : Env R) (w : World R)
    (cells : list mxArray) (opts : list (OptCode * mxArray)) (a : Args)
    (fns : list string) (k : nat) (it : Item.t) :
  batchIsInitialized w = true →
  parseOptions (initialArgs (sizeZ (readers w))) opts = Go a →
  Z.max (a_requestedNumThreads a) 1 = sizeZ (readers w) →
  extractFilenames (batch w) cells 0 [] true = Go (fns, true) →
  a_prefetch a = false →
  nextItem (batch w) = 0 → quit (batch w) = false →
  packingMethod (config (batch w)) = individualArrays →
  indexed (items (batch w)) →
  items (batch w) !! k = Some it →
  (length cells <= k)%nat →
  failed (turnItem env (config (batch w)) it) = false →
  fns `prefix_of` itemNames (batch w)
  ∧ outcome (mexFunction env w (Some (mxCell cells)) opts) = Stop Undefined.
Proof.
  intros Hi Hp Hn He Hf Hnext Hq Hpack Hidx Hk Hlen Hok.
  split; [exact (proj1 (proj2 (extractFilenames_same _ _ _ _ He)) eq_refl)|].
  rewrite (reuse_call env w cells opts a fns Hi Hp Hn He).
  unfold collect. rewrite Hf.
  destruct (sync_individual env (batch w) Hnext Hq Hpack Hidx) as (b5 & T1 & T2 & T3 & T4).
  rewrite T1. cbn [fst snd]. unfold getPackingMethod. rewrite T3, Hpack, T2.
  rewrite (emitItems_overflow (gpuMode (config (batch w)))
             (turnItem env (config (batch w)) <$> items (batch w))
             0 (replicate (length cells) None) [] k
             (turnItem env (config (batch w)) it)).
  - reflexivity.
  - rewrite list_lookup_fmap, Hk. reflexivity.
  - exact Hok.
  - rewrite length_replicate. lia.
Qed.

Lemma X15_shorter_list_overruns_the_output_witness :
  ["small.jpg"%string] `prefix_of` itemNames (batch Examples.prefetchedTwo)
  ∧ outcome (mexFunction (Scenario.env false) Examples.prefetchedTwo
               (Some (mxCell [mxChar "small.jpg"])) [])
    = Stop Undefined.
Proof.
  apply (X15_shorter_list_overruns_the_output (Scenario.env false) Examples.prefetchedTwo
           [mxChar "small.jpg"] [] (initialArgs 1) ["small.jpg"%string] 1
           Examples.prefetchedTwoItem).
  all: try (vm_compute; reflexivity).
  - destruct (prefetched_world (Scenario.env false) (Scenario.started ([], []))
                [mxChar "small.jpg"; mxChar "wide.jpg"] [(opt_prefetch, mxOther)])
      as (_ & Hx & _).
    + intros j it Hj. vm_compute in Hj. discriminate Hj.
    + vm_compute. reflexivity.
    + exact Hx.
Defined.

(** *** Interleavings: what an event does to the queue *)
Section MachineFacts.
Context {R : Type} (env : Env R).

Lemma prefetchItem_borrowed (cfg : Config) (it : Item.t) (r : R) :
  Item.borrowed (fst (prefetchItem env cfg it r)) = Item.borrowed it.
Proof.
  unfold prefetchItem, gbind, gret. cbn [fst snd].
  destruct (packingMethod cfg); reflexivity.
Qed.

Lemma step_effect (m m' : Machine R) (e : Event) :
  cycle_inv m → step env m e = Some m' → effect e m m'.
Proof.
  intros [Hidx Hloop] Hs. unfold step in Hs. unfold effect.
  destruct e as [nm| |ix| | |].
  - destruct (m_loop m) eqn:El; [discriminate|]. injection Hs as <-.
    cbn [m_batch m_loop]. repeat split.
    eexists. split; [reflexivity|]. split; reflexivity.
  - unfold borrowNextItem in Hs.
    destruct (quit (m_batch m)); [destruct (m_loop m); discriminate|].
    destruct (_ && _) eqn:Eb; [|destruct (m_loop m); discriminate].
    apply andb_true_iff in Eb as [E0 E1]. apply Z.leb_le in E0.
    unfold getItem, putItem in Hs. rewrite (proj2 (Z.ltb_ge _ _)) in Hs by lia.
    destruct (items (m_batch m) !! Z.to_nat (nextItem (m_batch m))) as [it0|] eqn:E;
      [|destruct (m_loop m); discriminate].
    assert (Hm' : m' = {| m_batch := set_counters
                             (set_items (m_batch m)
                                (<[Z.to_nat (nextItem (m_batch m)) := set_borrowed it0 true]>
                                   (items (m_batch m))))
                             (nextItem (m_batch m) + 1) (numReturnedItems (m_batch m));
                          m_rng := m_rng m; m_loop := m_loop m |}).
    { destruct (m_loop m); congruence. }
    subst m'. cbn [m_batch m_loop items nextItem set_counters set_items].
    split; [reflexivity|]. split; [exact E0|]. split; [reflexivity|].
    exists it0. split; reflexivity.
  - unfold getItem in Hs.
    destruct (ix <? 0) eqn:Eix; [destruct (m_loop m); discriminate|].
    apply Z.ltb_ge in Eix.
    destruct (items (m_batch m) !! Z.to_nat ix) as [it0|] eqn:E;
      [|destruct (m_loop m); discriminate].
    destruct (Item.borrowed it0) eqn:Ebor; [|destruct (m_loop m); discriminate].
    set (w := entryPointItem env (config (m_batch m)) (cpuPack (m_batch m)) it0) in Hs.
    assert (Hm' : m' = {| m_batch := returnItem env
                                       (set_packs (m_batch m) (snd (fst w))
                                          (gpuPack (m_batch m)))
                                       (fst (fst w));
                          m_rng := m_rng m; m_loop := m_loop m |}).
    { destruct (m_loop m); congruence. }
    clear Hs. subst m'.
    assert (Hwx : Item.index (fst (fst w)) = ix).
    { pose proof (Hidx _ _ E) as Hi0. subst w.
      rewrite (proj1 (entryPointItem_index env _ _ _)). lia. }
    destruct (returnItem_items env (set_packs (m_batch m) (snd (fst w)) (gpuPack (m_batch m)))
                (fst (fst w))) as (it1 & Hr & Hr1 & _ & Hr3 & _); [lia|].
    cbn [items set_packs] in Hr. rewrite Hwx in Hr.
    cbn [m_batch m_loop].
    split; [reflexivity|]. split; [exact Eix|].
    split; [exact (proj2 (proj2 (returnItem_frame env _ _)))|].
    exists it0, it1. repeat split; assumption.
  - destruct (m_loop m) eqn:El; [discriminate|].
    destruct (all_ready (m_batch m)) eqn:Ea; [|discriminate].
    destruct (allocatePack env (m_batch m)) as [b1|] eqn:Eal; [|discriminate].
    injection Hs as <-. apply allocatePack_frame in Eal as (Hit & _).
    cbn [m_batch m_loop items nextItem set_counters]. repeat split. exact Hit.
  - destruct (m_loop m) as [k|] eqn:El; [|discriminate].
    destruct (items (m_batch m) !! k) as [it0|] eqn:E; [|discriminate].
    injection Hs as <-. cbn [m_batch m_loop items nextItem set_items].
    split; [reflexivity|]. exists k, it0. eexists.
    split; [reflexivity|]. split; [reflexivity|]. split; [exact E|].
    split; [reflexivity|].
    split; [exact (proj1 (prefetchItem_state env _ _ _))|apply prefetchItem_borrowed].
  - destruct (m_loop m) as [k|] eqn:El; [|discriminate].
    destruct (length (items (m_batch m)) <=? k)%nat eqn:Ek; [|discriminate].
    injection Hs as <-. cbn [m_batch m_loop]. apply Nat.leb_le in Ek. repeat split.
    exists k. repeat split. exact Ek.
Qed.

Lemma insert_cases {A} (l : list A) (k j : nat) (x y : A) :
  <[k := x]> l !! j = Some y →
  (j = k ∧ y = x) ∨ (j ≠ k ∧ l !! j = Some y).
Proof.
  intros Hj. destruct (decide (k = j)) as [<-|Hne].
  - left. apply list_lookup_insert_Some in Hj as [(_ & -> & _)|(Hne & _)]; [auto|congruence].
  - right. rewrite list_lookup_insert_ne in Hj by exact Hne. auto.
Qed.

Lemma effect_stranded (m m' : Machine R) (e : Event) (j : nat) :
  effect e m m' → stranded m j → stranded m' j.
Proof.
  unfold effect, stranded. intros He ((it & Hj & Hst & Hbo) & Hn & Hl).
  assert (Hlt : (j < length (items (m_batch m)))%nat) by (eapply lookup_lt_Some; eauto).
  destruct e as [nm| |ix| | |].
  - destruct He as (L & L' & -> & it0 & -> & _). rewrite L'.
    split; [|split; [exact Hn|exact I]].
    exists it. rewrite lookup_app_l by exact Hlt. auto.
  - destruct He as (-> & H0 & -> & it0 & Hit0 & ->).
    split; [|split; [lia|exact Hl]].
    exists it. rewrite list_lookup_insert_ne by lia. auto.
  - destruct He as (-> & H0 & -> & it0 & it1 & Hit0 & Hb0 & -> & _).
    split; [|split; [lia|exact Hl]].
    exists it. rewrite list_lookup_insert_ne; [auto|].
    intros Heq. rewrite Heq in Hit0. congruence.
  - destruct He as (_ & _ & _ & Ha & _). exfalso.
    pose proof (all_ready_spec (m_batch m) j it Ha Hj). congruence.
  - destruct He as (-> & k & it0 & it1 & L & -> & Hk & -> & _).
    rewrite L in Hl.
    split; [|split; [lia|lia]].
    exists it. rewrite list_lookup_insert_ne by lia. auto.
  - destruct He as (-> & -> & k & L & -> & _).
    split; [|split; [lia|exact I]]. exists it. auto.
Qed.

Lemma run_stranded (es : list Event) :
  ∀ (m m' : Machine R) (j : nat),
    cycle_inv m → stranded m j → run env m es = Some m' →
    cycle_inv m' ∧ stranded m' j.
Proof.
  induction es as [|e es IH]; intros m m' j Hc Hs; cbn [run].
  - intros [= <-]. split; assumption.
  - destruct (step env m e) as [m1|] eqn:E; [|discriminate].
    apply IH.
    + exact (proj1 (step_inv env _ _ _ Hc E)).
    + exact (effect_stranded m m1 e j (step_effect m m1 e Hc E) Hs).
Qed.

End MachineFacts.

(** X16. An item in state [fetch] that lies below the cursor in no
    worker's hands, behind the loop of [Batch::prefetch], stays so under
    every further event: it is never handed out again, so not every item
    becomes ready and the [sync] of a later prefetch never returns. *)
Theorem X16_stranded_item_blocks_sync {R : Type} (env : Env R) (m m' : Machine R)
    (j : nat) (es : list Event) :
  cycle_inv m → stranded m j →
  run env m es = Some m' →
  stranded m' j
  ∧ all_ready (m_batch m') = false
  ∧ step env m' EvPrefetchBegin = None.
Proof.
  intros Hc Hs Hr. destruct (run_stranded env es m m' j Hc Hs Hr) as [Hc' Hs'].
  split; [exact Hs'|].
  assert (Ha : all_ready (m_batch m') = false).
  { destruct (all_ready (m_batch m')) eqn:Ea; [|reflexivity].
    destruct Hs' as ((it & Hj & Hst & _) & _).
    pose proof (all_ready_spec (m_batch m') j it Ea Hj). congruence. }
  split; [exact Ha|]. unfold step. rewrite Ha. destruct (m_loop m'); reflexivity.
Qed.

Lemma X16_stranded_item_blocks_sync_witness :
  run (Scenario.env false) Examples.raceStart Examples.raceEvents = Some Examples.raced
  ∧ stranded Examples.racedEnd 1
  ∧ all_ready (m_batch Examples.racedEnd) = false
  ∧ step (Scenario.env false) Examples.racedEnd EvPrefetchBegin = None.
Proof.
  assert (Hrun : run (Scenario.env false) Examples.raceStart Examples.raceEvents
                 = Some Examples.raced) by (vm_compute; reflexivity).
  split; [exact Hrun|].
  apply (X16_stranded_item_blocks_sync (Scenario.env false) Examples.raced
           Examples.racedEnd 1 [EvPrefetchEnd]).
  - apply (run_inv (Scenario.env false) Examples.raceEvents Examples.raceStart);
      [apply cycleStart_inv|exact Hrun].
  - split; [|split].
    + eexists. split; [vm_compute; reflexivity|]. split; reflexivity.
    + vm_compute. reflexivity.
    + vm_compute. lia.
  - vm_compute. reflexivity.
Defined.

Section LendingFacts.
Context {R : Type} (env : Env R).

Lemma effect_lending (m m' : Machine R) (e : Event) :
  effect e m m' → lending_inv m → lending_inv m'.
Proof.
  unfold effect, lending_inv. intros He (H0 & HA & HB).
  destruct e as [nm| |ix| | |].
  - destruct He as (L & L' & -> & it0 & -> & Hs0 & Hb0). rewrite L in *. rewrite L'.
    split; [exact H0|]. split.
    + intros j it Hj Hn. apply lookup_app_Some in Hj as [Hj|[_ Hj]]; [exact (HA j it Hj Hn)|].
      apply list_lookup_singleton_Some in Hj as [_ <-]. split; [exact Hb0|congruence].
    + intros j it Hj Hb. apply lookup_app_Some in Hj as [Hj|[_ Hj]]; [exact (HB j it Hj Hb)|].
      apply list_lookup_singleton_Some in Hj as [_ <-]. congruence.
  - destruct He as (-> & _ & -> & it0 & Hit0 & ->).
    split; [lia|]. split.
    + intros j it Hj Hn. rewrite list_lookup_insert_ne in Hj by lia.
      apply (HA j it Hj). lia.
    + intros j it Hj Hb. apply insert_cases in Hj as [[-> ->]|[Hne Hj]].
      * destruct (HA _ _ Hit0) as [_ Hs]; [lia|]. cbn [Item.state set_borrowed].
        destruct (m_loop m); [|exact Hs]. intros Hk. rewrite (Hs Hk). discriminate.
      * exact (HB j it Hj Hb).
  - destruct He as (-> & Hix & -> & it0 & it1 & Hit0 & Hb0 & -> & Hs1 & Hb1).
    split; [exact H0|]. split.
    + intros j it Hj Hn. apply insert_cases in Hj as [[-> ->]|[Hne Hj]];
        [|exact (HA j it Hj Hn)].
      destruct (HA _ _ Hit0 Hn) as [Hf _]. congruence.
    + intros j it Hj Hb. apply insert_cases in Hj as [[-> ->]|[Hne Hj]];
        [congruence|exact (HB j it Hj Hb)].
  - destruct He as (L & -> & -> & Ha & ->). rewrite L in *.
    split; [lia|]. split.
    + intros j it Hj _. split; [|lia].
      destruct (Item.borrowed it) eqn:Eb; [|reflexivity]. exfalso.
      apply (HB j it Hj Eb). exact (all_ready_spec _ j it Ha Hj).
    + intros j it Hj Hb. lia.
  - destruct He as (-> & k & it0 & it1 & L & -> & Hk & -> & Hs1 & Hb1). rewrite L in *.
    split; [exact H0|]. split.
    + intros j it Hj Hn. apply insert_cases in Hj as [[-> ->]|[Hne Hj]].
      * destruct (HA _ _ Hk Hn) as [Hf _]. split; [congruence|]. intros _. exact Hs1.
      * destruct (HA j it Hj Hn) as [Hf Hs]. split; [exact Hf|]. intros Hlt. apply Hs. lia.
    + intros j it Hj Hb. apply insert_cases in Hj as [[-> ->]|[Hne Hj]].
      * intros _. rewrite Hs1. discriminate.
      * intros Hlt. apply (HB j it Hj Hb). lia.
  - destruct He as (-> & -> & k & L & -> & Hlen). rewrite L in *.
    split; [exact H0|]. split.
    + intros j it Hj Hn. destruct (HA j it Hj Hn) as [Hf Hs]. split; [exact Hf|].
      apply lookup_lt_Some in Hj. rewrite Hs by lia. discriminate.
    + intros j it Hj Hb. apply (HB j it Hj Hb). apply lookup_lt_Some in Hj. lia.
Qed.

Lemma run_lending (es : list Event) :
  ∀ (m m' : Machine R),
    cycle_inv m → lending_inv m → run env m es = Some m' →
    cycle_inv m' ∧ lending_inv m'.
Proof.
  induction es as [|e es IH]; intros m m' Hc Hl; cbn [run].
  - intros [= <-]. split; assumption.
  - destruct (step env m e) as [m1|] eqn:E; [|discriminate].
    apply IH.
    + exact (proj1 (step_inv env _ _ _ Hc E)).
    + exact (effect_lending m m1 e (step_effect env m m1 e Hc E) Hl).
Qed.

Lemma cycleStart_lending (b : Batch) (r : R) : lending_inv (cycleStart b r).
Proof.
  split; [cbn; lia|]. split; intros j it Hj; cbn in Hj; rewrite lookup_nil in Hj;
    discriminate.
Qed.

End LendingFacts.

(** X17. Along every interleaving from the start of a cycle, the items in
    the hands of workers lie below the cursor: [borrowNextItem] hands out
    an item that no worker holds, and only an item below the cursor is
    returned. *)
Theorem X17_no_item_is_lent_twice {R : Type} (env : Env R) (b : Batch) (r : R)
    (es : list Event) (m : Machine R) :
  run env (cycleStart b r) es = Some m →
  (∀ (j : nat) it, items (m_batch m) !! j = Some it → Item.borrowed it = true →
     Z.of_nat j < nextItem (m_batch m))
  ∧ (∀ m', step env m EvBorrow = Some m' →
       ∃ it, items (m_batch m) !! Z.to_nat (nextItem (m_batch m)) = Some it
             ∧ Item.borrowed it = false
             ∧ items (m_batch m')
               = <[Z.to_nat (nextItem (m_batch m)) := set_borrowed it true]>
                   (items (m_batch m))
             ∧ nextItem (m_batch m') = nextItem (m_batch m) + 1)
  ∧ (∀ ix m', step env m (EvReturn ix) = Some m' → 0 <= ix < nextItem (m_batch m)).
Proof.
  intros Hr.
  destruct (run_lending env es _ m (cycleStart_inv b r) (cycleStart_lending b r) Hr)
    as [Hc (H0 & HA & HB)].
  assert (Hheld : ∀ (j : nat) it, items (m_batch m) !! j = Some it →
                    Item.borrowed it = true → Z.of_nat j < nextItem (m_batch m)).
  { intros j it Hj Hb.
    destruct (Z_lt_le_dec (Z.of_nat j) (nextItem (m_batch m))) as [Hlt|Hle]; [exact Hlt|].
    destruct (HA j it Hj Hle) as [Hf _]. congruence. }
  split; [exact Hheld|]. split.
  - intros m' Hs. pose proof (step_effect env m m' EvBorrow Hc Hs) as He.
    destruct He as (_ & _ & Hn & it & Hit & Hl).
    exists it. split; [exact Hit|]. split; [|split; [exact Hl|exact Hn]].
    apply (HA _ _ Hit). lia.
  - intros ix m' Hs. pose proof (step_effect env m m' (EvReturn ix) Hc Hs) as He.
    destruct He as (_ & Hix & _ & it & it' & Hit & Hb & _).
    split; [exact Hix|]. pose proof (Hheld _ _ Hit Hb). lia.
Qed.

Lemma X17_no_item_is_lent_twice_witness :
  0 <= 0 < nextItem (m_batch Examples.lentOne).
Proof.
  destruct (X17_no_item_is_lent_twice (Scenario.env false)
              (batch (Scenario.loaded ([], []))) ([], [])
              [EvRegister "small.jpg"; EvBorrow] Examples.lentOne) as (_ & _ & H).
  - vm_compute. reflexivity.
  - eapply (H 0). vm_compute. reflexivity.
Defined.

(** *** Error messages *)
Section MessageFacts.
Context {R : Type} (env : Env R).

Lemma entryPointItem_reported (cfg : Config) (pack : option Tensor) (it : Item.t) :
  reported it → reported (fst (fst (entryPointItem env cfg pack it))).
Proof.
  intros Hit. unfold entryPointItem.
  destruct (negb (is_success (Item.error it))) eqn:Ee; [exact Hit|].
  unfold entryPointWork. destruct (Item.state it); cbn [fst snd]; [| |exact Hit].
  - unfold reported, failed. cbn [Item.error Item.errorMessage set_error set_shape].
    destruct (is_success (fst (readShape env (Item.shape it) (Item.name it))));
      [discriminate|eauto].
  - unfold fetchWork.
    destruct (negb (is_success (fst (readPixels env (Item.name it))))) eqn:Er;
      cbn [fst snd].
    + intros _. cbn. eauto.
    + assert (Hok : ∀ it', Item.error it' = fst (readPixels env (Item.name it)) → reported it').
      { intros it' He. unfold reported, failed. rewrite He, Er. discriminate. }
      destruct (Item.plan it); cbn [fst snd]; [|apply Hok; reflexivity].
      destruct (packingMethod cfg); cbn [fst snd]; [|apply Hok; reflexivity].
      destruct (gpuMode cfg); cbn [fst snd]; [|apply Hok; reflexivity].
      destruct (cudaMemcpyAsync env _); [apply Hok; reflexivity|].
      intros _. cbn. eauto.
Qed.

Lemma returnItem_reported (b : Batch) (it : Item.t) :
  reported it → Forall reported (items b) → Forall reported (items (returnItem env b it)).
Proof.
  intros Hit Hall. unfold returnItem. cbn [items set_packs set_counters]. unfold putItem.
  destruct (_ <? 0); [exact Hall|]. cbn [items set_items].
  apply Forall_insert; [exact Hall|].
  destruct (_ && negb _); [intros _; cbn; eauto|exact Hit].
Qed.

Lemma entryPointTurn_reported (b b' : Batch) (l : list LogEntry) :
  Forall reported (items b) → entryPointTurn env b = Some (b', l) →
  Forall reported (items b').
Proof.
  intros Hall. unfold entryPointTurn, borrowNextItem.
  destruct (quit b); [discriminate|].
  destruct (_ && _); [|discriminate].
  destruct (getItem b (nextItem b)) as [it|] eqn:E; [|discriminate].
  intros [= <- _].
  assert (Hit : reported it).
  { unfold getItem in E. destruct (_ <? 0); [discriminate|].
    exact (proj1 (Forall_lookup _ _) Hall _ _ E). }
  apply returnItem_reported.
  - apply entryPointItem_reported. exact Hit.
  - cbn [items set_packs set_counters]. unfold putItem.
    destruct (_ <? 0); [exact Hall|]. cbn [items set_items].
    apply Forall_insert; [exact Hall|exact Hit].
Qed.

Lemma runWorkers_reported (fuel : nat) (b : Batch) :
  Forall reported (items b) → Forall reported (items (fst (runWorkers env fuel b))).
Proof.
  revert b. induction fuel as [|fuel IH]; intros b Hall; cbn [runWorkers]; [exact Hall|].
  destruct (entryPointTurn env b) as [[b1 l1]|] eqn:E; [|exact Hall].
  cbn [fst]. apply IH. exact (entryPointTurn_reported b b1 l1 Hall E).
Qed.

Lemma prefetchItem_reported (cfg : Config) (it : Item.t) (r : R) :
  reported it → reported (fst (prefetchItem env cfg it r)).
Proof.
  unfold prefetchItem, gbind, gret, reported, failed. cbn [fst snd].
  destruct (packingMethod cfg); exact (fun H => H).
Qed.

Lemma prefetchItems_reported (cfg : Config) (l : list Item.t) (r : R) :
  Forall reported l → Forall reported (fst (prefetchItems env cfg l r)).
Proof.
  intros Hall. apply Forall_lookup. intros k it' Hk.
  destruct (proj2 (prefetchItems_spec env cfg l r) k it' Hk) as (it & rk & Hl & ->).
  apply prefetchItem_reported. exact (proj1 (Forall_lookup _ _) Hall _ _ Hl).
Qed.

Lemma prefetch_reported (b b' : Batch) (r : R) (log : list LogEntry) :
  Forall reported (items b) →
  fst (prefetch env b r) = (Go b', log) →
  Forall reported (items b').
Proof.
  intros Hall. unfold prefetch, sync.
  pose proof (runWorkers_reported (length (items b)) b Hall) as Hd.
  fold (drain env b) in Hd. cbn [fst snd].
  destruct (forallb _ _); [|cbn; discriminate].
  destruct (allocatePack env (fst (drain env b))) as [b2|] eqn:Eal; [|cbn; discriminate].
  destruct (allocatePack_frame env _ _ Eal) as (Hit & _ & Hcfg & _).
  unfold gbind, gret. cbn [fst snd]. intros [= <- _].
  cbn [items set_items]. apply prefetchItems_reported. rewrite Hit. exact Hd.
Qed.

Lemma registerItems_reported (fns : list string) (b : Batch) :
  Forall reported (items b) → Forall reported (items (fold_left (registerItem env) fns b)).
Proof.
  revert b. induction fns as [|nm fns IH]; intros b Hall; [exact Hall|].
  cbn [fold_left]. apply IH. unfold registerItem. cbn [items set_items].
  apply Forall_app. split; [exact Hall|]. constructor; [|constructor].
  unfold reported, failed. cbn. discriminate.
Qed.

Lemma emitItems_warnings (gpu : bool) (l : list Item.t) :
  ∀ (i : nat) (out : list (option Tensor)) (warn : list string) (msg : string),
    msg ∈ snd (emitItems gpu l i out warn) →
    msg ∈ warn ∨ ∃ it, it ∈ l ∧ failed it = true ∧ msg = itemWarning it.
Proof.
  induction l as [|it l IH]; intros i out warn msg; cbn [emitItems].
  - cbn [snd]. auto.
  - destruct (negb (is_success (Item.error it))) eqn:Ee.
    + intros Hm. apply IH in Hm as [Hm|(it' & Hin & Hf & ->)].
      * apply elem_of_app in Hm as [Hm|Hm]; [left; exact Hm|].
        apply list_elem_of_singleton in Hm. right. exists it.
        split; [left|]. split; [exact Ee|exact Hm].
      * right. exists it'. split; [right; exact Hin|auto].
    + destruct (i <? length out)%nat; [|cbn [snd]; auto].
      intros Hm. apply IH in Hm as [Hm|(it' & Hin & Hf & ->)]; [left; exact Hm|].
      right. exists it'. split; [right; exact Hin|auto].
Qed.

Lemma collect_warnings (w : World R) (a : Args) (n : nat)
    (log : list LogEntry) (reg : list string) (msg : string) :
  Forall reported (items (batch w)) →
  msg ∈ warnings (collect env w a n log reg) →
  ∃ it s, Item.errorMessage it = Some s
          ∧ msg = ("could not read image '" ++ Item.name it ++ "' because '" ++ s ++ "'")%string.
Proof.
  intros Hall. unfold collect.
  destruct (a_prefetch a); [cbn; intros H; apply elem_of_nil in H; destruct H|].
  pose proof (runWorkers_reported (length (items (batch w))) (batch w) Hall) as Hd.
  unfold sync. fold (drain env (batch w)) in Hd. cbn [fst snd].
  destruct (forallb _ _); [|cbn; intros H; apply elem_of_nil in H; destruct H].
  destruct (getPackingMethod _); [|cbn; intros H; apply elem_of_nil in H; destruct H].
  assert (G : msg ∈ snd (emitItems (gpuMode (config (fst (drain env (batch w)))))
                           (items (fst (drain env (batch w)))) 0 (replicate n None) []) →
              ∃ it s, Item.errorMessage it = Some s
                      ∧ msg = ("could not read image '" ++ Item.name it ++ "' because '"
                               ++ s ++ "'")%string).
  { intros Hm. apply emitItems_warnings in Hm as [Hm|(it & Hin & Hf & ->)].
    - apply elem_of_nil in Hm. destruct Hm.
    - apply list_elem_of_lookup in Hin as [k Hk].
      destruct (proj1 (Forall_lookup _ _) Hd _ _ Hk Hf) as [s Hs].
      exists it, s. split; [exact Hs|]. unfold itemWarning. rewrite Hs. reflexivity. }
  destruct (fst (emitItems _ _ _ _ _)); exact G.
Qed.

Lemma collect_reported (w : World R) (a : Args) (n : nat)
    (log : list LogEntry) (reg : list string) :
  Forall reported (items (batch w)) →
  Forall reported (items (batch (world (collect env w a n log reg)))).
Proof.
  intros Hall. unfold collect. destruct (a_prefetch a); [exact Hall|].
  pose proof (runWorkers_reported (length (items (batch w))) (batch w) Hall) as Hd.
  unfold sync. fold (drain env (batch w)) in Hd. cbn [fst snd].
  destruct (forallb _ _); [|exact Hall].
  destruct (getPackingMethod _).
  - destruct (fst (emitItems _ _ _ _ _)); [constructor|exact Hd].
  - constructor.
Qed.

Lemma startCycle_reported (w : World R) (a : Args) (fns : list string) :
  match startCycle env w a fns with
  | inl res => warnings res = [] ∧ Forall reported (items (batch (world res)))
  | inr (w', _) => Forall reported (items (batch w'))
  end.
Proof.
  unfold startCycle.
  assert (G : ∀ b1, applyConfig env (clear (batch w)) (a_config a) = Go b1 →
            match fst (fst (prefetch env (fold_left (registerItem env) fns b1) (rng w))) with
            | Go b' => Forall reported (items b')
            | Stop _ => True
            end).
  { intros b1 Ea. apply applyConfig_frame in Ea as (Hi & _).
    destruct (prefetch env (fold_left (registerItem env) fns b1) (rng w))
      as [[f l] r'] eqn:Epf. cbn [fst]. destruct f as [b'|]; [|exact I].
    apply (prefetch_reported (fold_left (registerItem env) fns b1) b' (rng w) l).
    - apply registerItems_reported. rewrite Hi. constructor.
    - rewrite Epf. reflexivity. }
  assert (G2 : ∀ b1, applyConfig env (clear (batch w)) (a_config a) = Go b1 →
            Forall reported (items (fold_left (registerItem env) fns b1))).
  { intros b1 Ea. apply applyConfig_frame in Ea as (Hi & _).
    apply registerItems_reported. rewrite Hi. constructor. }
  destruct (packingMethod (a_config a)), (resizeMethod (a_config a));
    try (split; [reflexivity|constructor]).
  all: destruct (applyConfig env (clear (batch w)) (a_config a)) as [b1|] eqn:Ea;
    [|split; [reflexivity|constructor]].
  all: specialize (G b1 eq_refl); specialize (G2 b1 eq_refl).
  all: destruct (fst (fst (prefetch env (fold_left (registerItem env) fns b1) (rng w))));
    [exact G|split; [reflexivity|exact G2]].
Qed.

End MessageFacts.

(** X18. Every item that carries an error carries a message written by
    the code, a property that each call of [mexFunction] keeps; so every
    warning of a call quotes such a message, never the message buffer that
    the constructor leaves unwritten. *)
Theorem X18_every_warning_quotes_a_written_message {R : Type} (env : Env R) (w : World R)
    (fn : option mxArray) (opts : list (OptCode * mxArray)) (msg : string) :
  Forall reported (items (batch w)) →
  Forall reported (items (batch (world (mexFunction env w fn opts))))
  ∧ (msg ∈ warnings (mexFunction env w fn opts) →
     ∃ it s, Item.errorMessage it = Some s
             ∧ msg = ("could not read image '" ++ Item.name it ++ "' because '"
                      ++ s ++ "'")%string).
Proof.
  intros Hall. unfold mexFunction.
  assert (N : msg ∈ @nil string → ∃ it s, Item.errorMessage it = Some s
                ∧ msg = ("could not read image '" ++ Item.name it ++ "' because '"
                         ++ s ++ "'")%string)
    by (intros H; apply elem_of_nil in H; destruct H).
  destruct fn as [fn|]; [|split; [exact Hall|exact N]].
  destruct (parseOptions _ opts) as [a|]; [|split; [exact Hall|exact N]].
  destruct fn; try (split; [exact Hall|exact N]).
  set (pool := prepareReaders (prepareBatch w) (Z.max (a_requestedNumThreads a) 1)).
  assert (Hpool : Forall reported (items (batch (fst pool)))).
  { subst pool. unfold prepareReaders, prepareBatch.
    destruct (batchIsInitialized w); destruct (_ =? _); cbn; try exact Hall; constructor. }
  destruct (snd pool); [|split; [exact Hpool|exact N]].
  unfold dispatch.
  destruct (extractFilenames _ _ 0 [] true) as [[fns same]|];
    [|split; [exact Hpool|exact N]].
  destruct same;
    [split; [apply collect_reported|apply collect_warnings]; exact Hpool|].
  pose proof (startCycle_reported env (fst pool) a fns) as Hs.
  destruct (startCycle env (fst pool) a fns) as [res|[w' log]].
  - destruct Hs as [Hs1 Hs2]. rewrite Hs1. split; [exact Hs2|exact N].
  - split; [apply collect_reported|apply collect_warnings]; exact Hs.
Qed.

Lemma X18_every_warning_quotes_a_written_message_witness :
  ∃ it s, Item.errorMessage it = Some s
          ∧ "could not read image 'missing.jpg' because 'cannot open missing.jpg'"%string
            = ("could not read image '" ++ Item.name it ++ "' because '" ++ s ++ "'")%string.
Proof.
  destruct (X18_every_warning_quotes_a_written_message (Scenario.env false)
              (Scenario.started ([], [])) (Some (mxCell Scenario.cellsS3)) []
              "could not read image 'missing.jpg' because 'cannot open missing.jpg'"%string)
    as [_ H].
  - vm_compute. constructor.
  - apply H. rewrite (proj1 (proj2 S3_evaluated)). left.
Defined.

(** *** The plan: offsets and draws *)
Lemma in_int_true (z : Z) : INT_MIN <= z <= INT_MAX → in_int z = true.
Proof.
  intros H. unfold in_int. apply andb_true_iff. split; apply Z.leb_le; lia.
Qed.

(** X19. For a slack d between the input extent and the crop extent, with
    d + 1 representable, the centred offset is defined and splits d into
    two margins that differ by at most one, the first being the larger; the
    random offset, for a non-negative value of [rand()], is defined and
    lies between 0 and d, and takes one draw. *)
Theorem X19_crop_offset_within_slack {R : Type} (env : Env R) (r : R) (d : Z) :
  0 <= d < INT_MAX →
  0 <= fst (rand env r) <= INT_MAX →
  (∃ x, centerOffset (Some d) = Some x ∧ 0 <= x <= d ∧ d - x <= x <= d - x + 1)
  ∧ (∃ x, fst (randomOffset env (Some d) r) = Some x ∧ 0 <= x <= d)
  ∧ snd (randomOffset env (Some d) r) = snd (rand env r).
Proof.
  intros Hd Hr.
  assert (Hmin : INT_MIN < 0) by (unfold INT_MIN; lia).
  assert (Hadd : int_add d 1 = Some (d + 1)).
  { unfold int_add. rewrite in_int_true by lia. reflexivity. }
  split; [|split; [|reflexivity]].
  - exists ((d + 1) / 2). unfold centerOffset. cbn [mbind option_bind]. rewrite Hadd.
    cbn [mbind option_bind]. unfold int_div. cbn [Z.eqb].
    rewrite Z.quot_div_nonneg by lia.
    pose proof (Z.div_mod (d + 1) 2 ltac:(lia)).
    pose proof (Z.mod_pos_bound (d + 1) 2 ltac:(lia)).
    rewrite in_int_true by lia.
    split; [reflexivity|]. lia.
  - exists (Z.rem (fst (rand env r)) (d + 1)).
    unfold randomOffset, gbind, gret. cbn [fst snd mbind option_bind]. rewrite Hadd.
    cbn [mbind option_bind]. unfold int_rem.
    destruct (d + 1 =? 0) eqn:E0; [lia|].
    rewrite Z.quot_div_nonneg by lia.
    assert (Hq : 0 <= fst (rand env r) / (d + 1) <= fst (rand env r)).
    { split; [apply Z.div_pos; lia|]. apply Z.div_le_upper_bound; nia. }
    rewrite in_int_true by lia.
    split; [reflexivity|]. rewrite Z.rem_mod_nonneg by lia.
    pose proof (Z.mod_pos_bound (fst (rand env r)) (d + 1) ltac:(lia)). lia.
Qed.

Lemma X19_crop_offset_within_slack_witness :
  (∃ x, centerOffset (Some 5) = Some x ∧ 0 <= x <= 5 ∧ 5 - x <= x <= 5 - x + 1)
  ∧ (∃ x, fst (randomOffset (Scenario.env false) (Some 5) ([17], [])) = Some x
          ∧ 0 <= x <= 5)
  ∧ snd (randomOffset (Scenario.env false) (Some 5) ([17], []))
    = snd (rand (Scenario.env false) ([17], [])).
Proof.
  apply (X19_crop_offset_within_slack (Scenario.env false) ([17], []) 5).
  - unfold INT_MAX. lia.
  - cbn. unfold INT_MAX. lia.
Defined.

Section DrawFacts.
Context {R : Type} (env : Env R).

Lemma gfor_list_state {S} (l : list Z) (body : Z → S → Gen R S) (step : R → R) :
  (∀ i s r, snd (body i s r) = step r) →
  ∀ s r, snd (gfor_list l body s r) = Nat.iter (length l) step r.
Proof.
  intros Hb. induction l as [|i l IH]; intros s r; [reflexivity|].
  cbn [gfor_list length]. unfold gbind. rewrite IH, Hb. symmetry. apply Nat.iter_succ_r.
Qed.

Lemma planGeometry_state (cfg : Config) (sh : ImageShape)
    (bs0 : list (option double)) (r : R) :
  snd (planGeometry env cfg sh bs0 r)
  = Nat.iter (randDraws cfg) (fun r => snd (rand env r)) r.
Proof.
  unfold planGeometry, anisotropyRatio, randomOffset, rand_sym, rand_unit, gbind, gret,
    randDraws.
  destruct (_ && _), (cropLocation cfg), (flipMode cfg); reflexivity.
Qed.

End DrawFacts.

(** X20. Planning an item draws from [rand()] a number of times fixed by
    the configuration, then from [vl::randn()] once per output channel: the
    state of the generators afterwards does not depend on the size of the
    image nor on the values drawn. *)
Theorem X20_plan_consumes_draws_by_configuration {R : Type} (env : Env R) (cfg : Config)
    (sh : ImageShape) (bs0 : list (option double)) (r : R) :
  0 <= channelsOf cfg sh <= 3 →
  snd (planItem env cfg sh bs0 r)
  = Nat.iter (Z.to_nat (int_of_size_t (channelsOf cfg sh))) (fun r => snd (randn env r))
      (Nat.iter (randDraws cfg) (fun r => snd (rand env r)) r).
Proof.
  intros _. unfold planItem, gbind, gret. cbn [snd].
  rewrite (planGeometry_state env cfg sh bs0 r).
  assert (Hn : outputNumChannels (fst (planGeometry env cfg sh bs0 r)) = channelsOf cfg sh).
  { unfold planGeometry, gbind, gret. reflexivity. }
  rewrite Hn. unfold drawW, gfor_loop.
  rewrite (gfor_list_state _ _ (fun r => snd (randn env r))) by reflexivity.
  rewrite length_seqZ. reflexivity.
Qed.

Lemma X20_plan_consumes_draws_by_configuration_witness :
  snd (planItem (Scenario.env false) Scenario.cfgBrightness Scenario.shapeA
         [None; None; None] ([4; 5; 6; 7; 8], [1; 2; 3; 4]%float))
  = ([8], [4%float]).
Proof.
  rewrite (X20_plan_consumes_draws_by_configuration (Scenario.env false)
             Scenario.cfgBrightness Scenario.shapeA [None; None; None]
             ([4; 5; 6; 7; 8], [1; 2; 3; 4]%float)).
  - vm_compute. reflexivity.
  - cbn. lia.
Defined.

(* ================================================================== *)
(** ** The shortest-side output size *)
(* ================================================================== *)

Lemma digits2_pos_lower (m : positive) : 2 ^ (Z.pos (digits2_pos m) - 1) <= Z.pos m.
Proof.
  induction m as [m IH|m IH|]; cbn [digits2_pos].
  - rewrite Pos2Z.inj_succ. replace (Z.succ (Z.pos (digits2_pos m)) - 1)
      with (Z.succ (Z.pos (digits2_pos m) - 1)) by lia.
    rewrite Z.pow_succ_r by lia. lia.
  - rewrite Pos2Z.inj_succ. replace (Z.succ (Z.pos (digits2_pos m)) - 1)
      with (Z.succ (Z.pos (digits2_pos m) - 1)) by lia.
    rewrite Z.pow_succ_r by lia. lia.
  - cbn. lia.
Qed.

Lemma int_of_double_above_one (x : double) (z : Z) :
  int_of_double (std_max 1%float x) = Some z → 1 <= z.
Proof.
  unfold std_max. destruct (1 <? x)%float eqn:E.
  2:{ vm_compute. intros [= <-]. discriminate. }
  rewrite ltb_spec in E. pose proof (Prim2SF_valid x) as Hv.
  unfold int_of_double, double_trunc.
  change (Prim2SF 1) with (S754_finite false 4503599627370496 (-52)) in E.
  destruct (Prim2SF x) as [s|s| |s m e]; try discriminate E.
  - destruct s; discriminate.
  - unfold SFltb, SFcompare in E. destruct s; [discriminate E|].
    unfold SpecFloat.valid_binary, bounded, canonical_mantissa, fexp, SpecFloat.emin in Hv.
    apply andb_true_iff in Hv as [Hc _]. apply Z.eqb_eq in Hc.
    pose proof (digits2_pos_lower m) as Hd.
    assert (He : -52 <= e).
    { destruct (Z.compare_spec (-52) e); first [lia | discriminate E]. }
    assert (Hdig : Z.pos (digits2_pos m) = 53).
    { change prec with 53 in Hc. change emax with 1024 in Hc. lia. }
    rewrite Hdig in Hd. change (2 ^ (53 - 1)) with 4503599627370496 in Hd.
    assert (Ha : 1 <= match e with
                      | Z.neg p => Z.shiftr (Z.pos m) (Z.pos p)
                      | _ => Z.shiftl (Z.pos m) e
                      end).
    { destruct e as [|p|p].
      - rewrite Z.shiftl_0_r. lia.
      - rewrite Z.shiftl_mul_pow2 by lia.
        assert (0 < 2 ^ Z.pos p) by (apply Z.pow_pos_nonneg; lia). nia.
      - rewrite Z.shiftr_div_pow2 by lia.
        apply Z.div_le_lower_bound; [apply Z.pow_pos_nonneg; lia|].
        rewrite Z.mul_1_r.
        destruct (Z.compare_spec (-52) (Z.neg p)) as [Heq|Hlt|Hgt].
        + injection Heq as <-.
          change (PosDef.Pos.compare_cont Eq 4503599627370496 m)
            with (Pos.compare 4503599627370496 m) in E.
          destruct (Pos.compare_spec 4503599627370496 m); try discriminate E.
          change (2 ^ Z.pos 52) with 4503599627370496. lia.
        + assert (Z.pos p <= 51) by lia.
          assert (2 ^ Z.pos p <= 2 ^ 51) by (apply Z.pow_le_mono_r; lia).
          change (2 ^ 51) with 2251799813685248 in *. lia.
        + lia. }
    destruct (_ && _); [|discriminate]. intros [= <-]. exact Ha.
Qed.

(** X23. With the shortest-side resize method, an output height and width
    that the conversion to int defines are both at least 1 and at most
    INT_MAX, however small the image and the requested side are: the
    [std::max(1., round(...))] of the source survives the conversion. *)
Theorem X23_shortest_side_output_is_at_least_one (cfg : Config) (sh : ImageShape) (oh ow : Z) :
  resizeMethod cfg = resizeShortestSide →
  outputSize cfg sh = (Some oh, Some ow) →
  1 <= oh <= INT_MAX ∧ 1 <= ow <= INT_MAX.
Proof.
  intros Hm. unfold outputSize. rewrite Hm. intros [= Hh Hw].
  assert (Hr : ∀ x z, int_of_double x = Some z → z <= INT_MAX).
  { intros x z. unfold int_of_double. destruct (double_trunc x); [|discriminate].
    destruct (_ && _) eqn:E; [|discriminate]. intros [= <-].
    apply andb_true_iff in E as [_ E]. apply Z.leb_le in E. exact E. }
  split; split.
  - exact (int_of_double_above_one _ _ Hh).
  - exact (Hr _ _ Hh).
  - exact (int_of_double_above_one _ _ Hw).
  - exact (Hr _ _ Hw).
Qed.

Lemma X23_shortest_side_output_is_at_least_one_witness : 1 <= 43 <= INT_MAX ∧ 1 <= 32 <= INT_MAX.
Proof.
  apply (X23_shortest_side_output_is_at_least_one Scenario.cfgS1 Scenario.shapeA 43 32).
  - reflexivity.
  - vm_compute. reflexivity.
Defined.

